(** * Shared objects, component runtime, quorum and snapshot of the
    collaborative sequence substrate: a shallow embedding and its properties.

    Part I holds the definitions, translated method by method from the
    TypeScript sources; Part II holds the theorems.  JavaScript numbers that
    carry sequence numbers are integers ([Z]); the numbers a counter adds are
    IEEE-754 doubles ([float]); a thrown [Error] is the [Throw] outcome of
    [result]; events emitted and calls made to collaborators are appended to
    an explicit trace. *)

From Stdlib Require Import ZArith Lia Ascii String PrimFloat.
From stdpp Require Import gmap strings list fin_maps.

Local Open Scope Z_scope.
Local Open Scope string_scope.

(* ===================================================================== *)
(** * Part I. Definitions *)
(* ===================================================================== *)

(** ** Common protocol types *)

(** Outcome of a method that may [throw new Error(msg)]. *)
Inductive result (A : Type) : Type :=
| Ok (a : A)
| Throw (msg : string).
Arguments Ok {A} a.
Arguments Throw {A} msg.

(** [result] is an error monad; stdpp's [x ← r; k] sequences its steps. *)
Global Instance result_ret : MRet result := fun A a => Ok a.
Global Instance result_bind : MBind result := fun A B k r =>
  match r with
  | Ok a => k a
  | Throw m => Throw m
  end.

Definition is_ok {A : Type} (r : result A) : bool :=
  match r with Ok _ => true | Throw _ => false end.

(** [MessageType] of [@prague/container-definitions].  The sources name four
    of its members; every other member is [OtherMessage]. *)
Inductive MessageType : Type :=
| Operation
| Attach
| Save
| BlobUploaded
| OtherMessage (name : string).

Global Instance MessageType_eq_dec : EqDecision MessageType.
Proof. solve_decision. Defined.

(** [ISequencedDocumentMessage], with the fields that [prepareOp] and
    [processOp] copy into the transformed message; the type of [contents]
    (declared [any]) is a parameter. *)
Record ISequencedDocumentMessage (C : Type) : Type := mkMessage {
  clientId : string;
  clientSequenceNumber : Z;
  contents : C;
  minimumSequenceNumber : Z;
  origin : option string;
  referenceSequenceNumber : Z;
  sequenceNumber : Z;
  type : MessageType
}.
Arguments mkMessage {C}.
Arguments clientId {C}.
Arguments clientSequenceNumber {C}.
Arguments contents {C}.
Arguments minimumSequenceNumber {C}.
Arguments origin {C}.
Arguments referenceSequenceNumber {C}.
Arguments sequenceNumber {C}.
Arguments type {C}.

(** A JavaScript value as far as the shared objects look at it: [undefined],
    a plain value, or a shared object (identified by its [id]). *)
Inductive jsval : Type :=
| Undefined
| Num (z : Z)
| Str (s : string)
| SharedObject (id : string).

Global Instance jsval_eq_dec : EqDecision jsval.
Proof. solve_decision. Defined.

(* --------------------------------------------------------------------- *)
(** ** packages/runtime/cell/src/cell.ts *)
(* --------------------------------------------------------------------- *)

Module Cell.

Record ICellValue : Type := mkCellValue {
  cv_type : string;
  cv_value : jsval
}.

(** [ICellOperation]: on the wire [type] is a string, so values other than
    ["setCell"] and ["deleteCell"] can arrive. *)
Record ICellOperation : Type := mkCellOp {
  op_type : string;
  op_value : option ICellValue
}.

(** [CellValueType[CellValueType.Shared]] and [CellValueType[CellValueType.Plain]]. *)
Definition Shared : string := "Shared".
Definition Plain : string := "Plain".

(** What a method does besides writing the two fields: events emitted,
    [value.attach()], and the message handed to [submitLocalMessage]. *)
Inductive effect : Type :=
| EmitValueChanged (value : jsval)
| EmitDelete
| AttachValue (id : string)
| SubmitLocalMessage (op : ICellOperation).

Record t : Type := mkCell {
  data : jsval;
  pendingClientSequenceNumber : Z;
  trace : list effect
}.

(** The constructor followed by [initializeLocalCore]. *)
Definition create : t :=
  {| data := Undefined; pendingClientSequenceNumber := -1; trace := [] |}.

Definition setCore (value : jsval) (c : t) : t :=
  {| data := value;
     pendingClientSequenceNumber := pendingClientSequenceNumber c;
     trace := trace c ++ [EmitValueChanged value] |}.

Definition deleteCore (c : t) : t :=
  {| data := Undefined;
     pendingClientSequenceNumber := pendingClientSequenceNumber c;
     trace := trace c ++ [EmitDelete] |}.

(** [submitCellMessage]; [csn] is the number [submitLocalMessage] returns. *)
Definition submitCellMessage (op : ICellOperation) (csn : Z) (c : t) : t :=
  {| data := data c;
     pendingClientSequenceNumber := csn;
     trace := trace c ++ [SubmitLocalMessage op] |}.

Definition attachValue (id : string) (c : t) : t :=
  {| data := data c;
     pendingClientSequenceNumber := pendingClientSequenceNumber c;
     trace := trace c ++ [AttachValue id] |}.

(** [set]; [isLocal] is what [this.isLocal()] answers. *)
Definition set (value : jsval) (isLocal : bool) (csn : Z) (c : t) : t :=
  let '(c1, operationValue) :=
    match value with
    | SharedObject id =>
        (if negb isLocal then attachValue id c else c,
         {| cv_type := Shared; cv_value := Str id |})
    | _ => (c, {| cv_type := Plain; cv_value := value |})
    end in
  let op := {| op_type := "setCell"; op_value := Some operationValue |} in
  submitCellMessage op csn (setCore value c1).

Definition delete (csn : Z) (c : t) : t :=
  let op := {| op_type := "deleteCell"; op_value := None |} in
  submitCellMessage op csn (deleteCore c).

Definition get (c : t) : jsval := data c.

Definition empty (c : t) : bool := bool_decide (data c = Undefined).

(** What [await] finds in a promise: it was rejected ([Throw]), it is
    resolved with a value ([Ok (Some v)]), or it is still pending
    ([Ok None]) and the [await] does not return. *)
Definition awaited (A : Type) : Type := result (option A).

(** [prepareCore]; [getChannel] stands for [await
    this.runtime.getChannel(id)]: the runtime throws when it is closed, and
    its promise stays pending as long as no channel is known under the id.
    Both outcomes are those of [prepareCore] then.  A ["setCell"] operation
    without a [value] makes [op.value.type] a [TypeError]. *)
Definition prepareCore (getChannel : jsval -> awaited jsval)
    (message : ISequencedDocumentMessage ICellOperation) (local : bool) : awaited jsval :=
  if bool_decide (type message = Operation) && negb local then
    let op := contents message in
    if bool_decide (op_type op = "setCell") then
      match op_value op with
      | Some v =>
          if bool_decide (cv_type v = Shared) then getChannel (cv_value v)
          else Ok (Some (cv_value v))
      | None => Throw "TypeError"
      end
    else Ok (Some Undefined)
  else Ok (Some Undefined).

(** [this.pendingClientSequenceNumber = -1]. *)
Definition acked (c : t) : t :=
  {| data := data c; pendingClientSequenceNumber := -1; trace := trace c |}.

(** [processCore].  The only [throw] comes before any field is written, so
    [Throw] leaves the cell as it was. *)
Definition processCore (message : ISequencedDocumentMessage ICellOperation)
    (local : bool) (context : jsval) (c : t) : result t :=
  if negb (bool_decide (pendingClientSequenceNumber c = -1)) then
    (* waiting for an ACK: every message is ignored until it arrives *)
    if local && bool_decide (clientSequenceNumber message = pendingClientSequenceNumber c) then
      Ok (acked c)
    else Ok c
  else if bool_decide (type message = Operation) && negb local then
    let op := contents message in
    if bool_decide (op_type op = "setCell") then Ok (setCore context c)
    else if bool_decide (op_type op = "deleteCell") then Ok (deleteCore c)
    else Throw "Unknown operation"
  else Ok c.

End Cell.

(* --------------------------------------------------------------------- *)
(** ** packages/runtime/map/src/counter.ts *)
(* --------------------------------------------------------------------- *)

Module Counter.

(** A JavaScript [number] is an IEEE-754 double: [float], the binary64
    numbers of the kernel, whose [+] rounds to nearest, ties to even, as
    JavaScript's does.  Not-a-number, the infinities and the negative zero
    are values like any other. *)
Inductive effect : Type :=
| EmitterEmit (opName : string) (previousValue : float) (params : float)
| EmitIncremented (incrementValue : float) (currentValue : float).

Record t : Type := mkCounter {
  _value : float;
  trace : list effect
}.

(** A number is falsy when it is [NaN], [0] or [-0]. *)
Definition falsy (x : float) : bool := is_nan x || is_zero x.

(** [CounterFactory.load]: [raw || 0], where [raw] may be [undefined]. *)
Definition load (raw : option float) : t :=
  {| _value := match raw with
               | Some x => if falsy x then 0%float else x
               | None => 0%float
               end;
     trace := [] |}.

Definition store (c : t) : float := _value c.

Definition increment (value : float) (submit : bool) (c : t) : t :=
  let previousValue := _value c in
  let v := (_value c + value)%float in
  {| _value := v;
     trace := trace c
              ++ (if submit then [EmitterEmit "increment" previousValue value] else [])
              ++ [EmitIncremented value v] |}.

(** The [process] member of the ["increment"] operation. *)
Definition process (value : t) (params : float) (local : bool) : t :=
  if local then value else increment params false value.

End Counter.

(* --------------------------------------------------------------------- *)
(** ** packages/runtime/component-runtime/src/componentRuntime.ts *)
(* --------------------------------------------------------------------- *)

(** A JavaScript [Map] keyed by strings: iteration follows insertion order
    and [set] on a present key keeps its place. *)
Module JsMap.

Definition t (V : Type) : Type := list (string * V).

Fixpoint get {V : Type} (k : string) (m : t V) : option V :=
  match m with
  | [] => None
  | (k', v) :: m' => if bool_decide (k' = k) then Some v else get k m'
  end.

Definition has {V : Type} (k : string) (m : t V) : bool :=
  match get k m with Some _ => true | None => false end.

Fixpoint set {V : Type} (k : string) (v : V) (m : t V) : t V :=
  match m with
  | [] => [(k, v)]
  | (k', v') :: m' =>
      if bool_decide (k' = k) then (k, v) :: m' else (k', v') :: set k v m'
  end.

Fixpoint delete {V : Type} (k : string) (m : t V) : t V :=
  match m with
  | [] => []
  | (k', v') :: m' =>
      if bool_decide (k' = k) then m' else (k', v') :: delete k m'
  end.

Definition values {V : Type} (m : t V) : list V := m.*2.

End JsMap.

Module ComponentRuntime.

Inductive ConnectionState : Type := Disconnected | Connecting | Connected.

Global Instance ConnectionState_eq_dec : EqDecision ConnectionState.
Proof. solve_decision. Defined.

(** [ITreeEntry]/[ITree]: a blob or a directory holding a tree. *)
#[warnings="-register-all"] Inductive ITreeEntry : Type :=
| Blob (path : string) (blobContents : string)
| Tree (path : string) (treeEntries : list ITreeEntry) (treeId : option string).

Record ITree : Type := mkTree {
  entries : list ITreeEntry;
  tree_id : option string
}.

#[warnings="-register-all"] Fixpoint ITreeEntry_eq_dec (x y : ITreeEntry) : Decision (x = y).
Proof.
  refine
    match x, y with
    | Blob p c, Blob p' c' => cast_if_and (decide (p = p')) (decide (c = c'))
    | Tree p es i, Tree p' es' i' =>
        cast_if_and3 (decide (p = p')) (@list_eq_dec _ ITreeEntry_eq_dec es es') (decide (i = i'))
    | _, _ => right _
    end; congruence.
Defined.
Global Instance ITreeEntry_eq : EqDecision ITreeEntry := ITreeEntry_eq_dec.

Global Instance ITree_eq_dec : EqDecision ITree.
Proof. solve_decision. Defined.

Record IChannelAttributes : Type := mkAttributes {
  attr_snapshotFormatVersion : option string;
  attr_type : string
}.

(** The part of [ISnapshotTree] the runtime reads: [tree.id] and the parsed
    [".attributes"] blob. *)
Record ISnapshotTree : Type := mkSnapshotTree {
  st_id : option string;
  st_attributes : IChannelAttributes
}.

(** An [IChannel] as the runtime sees it; [ch_isRegistered] and [ch_snapshot]
    are what [isRegistered()] and [snapshot()] answer. *)
Record IChannel : Type := mkChannel {
  ch_id : string;
  ch_type : string;
  ch_snapshotFormatVersion : string;
  ch_isRegistered : bool;
  ch_snapshot : ITree
}.

Global Instance IChannel_eq_dec : EqDecision IChannel.
Proof. solve_decision. Defined.

Record ChannelDeltaConnection : Type := mkConnection {
  conn_objectId : string;
  conn_state : ConnectionState
}.

Inductive IObjectStorageService : Type :=
| ChannelStorageService (tree : option ISnapshotTree)
| LocalChannelStorageService (snapshot : ITree).

Record IChannelState : Type := mkChannelState {
  object : IChannel;
  storage : option IObjectStorageService;
  connection : option ChannelDeltaConnection;
  baseId : option string
}.

Record IObjectServices : Type := mkServices {
  deltaConnection : ChannelDeltaConnection;
  objectStorage : IObjectStorageService;
  svc_baseId : option string
}.

Record IAttachMessage : Type := mkAttach {
  am_id : string;
  am_snapshot : ITree;
  am_type : string
}.

(** [message.contents] is [any]; the runtime casts it to [IEnvelope] or
    [IAttachMessage] without looking. *)
Inductive content : Type :=
| Envelope (address : string) (inner : jsval)
| AttachContent (m : IAttachMessage)
| PlainContent (v : jsval).

(** The [context] handed from [prepare] to [process]. *)
Inductive context : Type :=
| CtxUndefined
| CtxChannelState (s : IChannelState)
| CtxValue (v : jsval).

Inductive IResponse : Type :=
| Response (status : Z) (mimeType : string) (value : option IChannel) (text : string)
| NeverResolves.

(** A [Deferred<IChannel>]: unresolved, or resolved with a channel. *)
Definition Deferred : Type := option IChannel.

Definition resolve (ch : IChannel) (d : Deferred) : Deferred :=
  match d with
  | None => Some ch
  | Some c => Some c
  end.

(** Calls into collaborators and events emitted, in order. *)
Inductive effect : Type :=
| HostRequest (url : string)
| HandlerRequest (url : string)
| ContextCreateComponent (id pkg : string)
| ContextSubmitMessage (ty : MessageType) (c : content)
| ContextSubmitSignal (ty : string) (c : jsval)
| ContextAttach
| ContextError (e : string)
| ChannelConnect (id : string)
| ConnectionPrepare (id : string) (m : ISequencedDocumentMessage jsval) (local : bool)
| ConnectionProcess (id : string) (m : ISequencedDocumentMessage jsval) (local : bool)
| RaiseConnectedEvent (value : ConnectionState) (clientId : string)
| EmitOp (m : ISequencedDocumentMessage content) (target : option IChannel)
| EmitSignal (ty : string) (local : bool)
| SnapshotFn (message : string)
| CloseFn
| CreateBlob (file : string)
| GetBlob (blobId : string)
| GetBlobMetadata
| NotifyPendingMessages
| ExtensionLoad (id ty : string)
| Debug (text : string).

Record ISharedObjectExtension : Type := mkExtension {
  ext_snapshotFormatVersion : string;
  ext_create : string -> IChannel;
  ext_load : string -> Z -> IObjectServices -> string -> result IChannel
}.

(** The fields of the class. *)
Record t : Type := mkRuntime {
  channels : JsMap.t IChannelState;
  channelsDeferred : JsMap.t Deferred;
  closed : bool;
  pendingAttach : JsMap.t IAttachMessage;
  requestHandler : option (string -> IResponse);
  isLocal : bool;
  deferredAttached : bool;
  attachChannelQueue : JsMap.t IChannel;
  trace : list effect
}.

(** A method: it ends by returning or by throwing, and in both cases leaves
    a state behind (fields written before a [throw] stay written). *)
Definition M (A : Type) : Type := t -> result A * t.

Definition ret {A : Type} (a : A) : M A := fun s => (Ok a, s).
Definition throw {A : Type} (msg : string) : M A := fun s => (Throw msg, s).
Definition bindM {A B : Type} (m : M A) (k : A -> M B) : M B :=
  fun s => match m s with
           | (Ok a, s') => k a s'
           | (Throw e, s') => (Throw e, s')
           end.
Definition modify (f : t -> t) : M unit := fun s => (Ok tt, f s).
Definition gets {A : Type} (f : t -> A) : M A := fun s => (Ok (f s), s).
Definition assert (b : bool) : M unit :=
  if b then ret tt else throw "AssertionError".

Declare Scope rt_scope.
Delimit Scope rt_scope with rt.
Notation "'do' x <- m ; k" := (bindM m (fun x => k))
  (at level 10, x name, m at level 100, k at level 200) : rt_scope.
Notation "m ;; k" := (bindM m (fun _ => k))
  (at level 100, k at level 200, right associativity) : rt_scope.
Local Open Scope rt_scope.

Fixpoint forEach {A : Type} (f : A -> M unit) (l : list A) : M unit :=
  match l with
  | [] => ret tt
  | a :: l' => f a ;; forEach f l'
  end.

Definition set_channels (v : JsMap.t IChannelState) (s : t) : t :=
  mkRuntime v (channelsDeferred s) (closed s) (pendingAttach s) (requestHandler s)
    (isLocal s) (deferredAttached s) (attachChannelQueue s) (trace s).
Definition set_channelsDeferred (v : JsMap.t Deferred) (s : t) : t :=
  mkRuntime (channels s) v (closed s) (pendingAttach s) (requestHandler s)
    (isLocal s) (deferredAttached s) (attachChannelQueue s) (trace s).
Definition set_closed (v : bool) (s : t) : t :=
  mkRuntime (channels s) (channelsDeferred s) v (pendingAttach s) (requestHandler s)
    (isLocal s) (deferredAttached s) (attachChannelQueue s) (trace s).
Definition set_pendingAttach (v : JsMap.t IAttachMessage) (s : t) : t :=
  mkRuntime (channels s) (channelsDeferred s) (closed s) v (requestHandler s)
    (isLocal s) (deferredAttached s) (attachChannelQueue s) (trace s).
Definition set_requestHandler (v : option (string -> IResponse)) (s : t) : t :=
  mkRuntime (channels s) (channelsDeferred s) (closed s) (pendingAttach s) v
    (isLocal s) (deferredAttached s) (attachChannelQueue s) (trace s).
Definition set_isLocal (v : bool) (s : t) : t :=
  mkRuntime (channels s) (channelsDeferred s) (closed s) (pendingAttach s) (requestHandler s)
    v (deferredAttached s) (attachChannelQueue s) (trace s).
Definition set_deferredAttached (v : bool) (s : t) : t :=
  mkRuntime (channels s) (channelsDeferred s) (closed s) (pendingAttach s) (requestHandler s)
    (isLocal s) v (attachChannelQueue s) (trace s).
Definition set_attachChannelQueue (v : JsMap.t IChannel) (s : t) : t :=
  mkRuntime (channels s) (channelsDeferred s) (closed s) (pendingAttach s) (requestHandler s)
    (isLocal s) (deferredAttached s) v (trace s).
Definition log (e : effect) : M unit := modify (fun s =>
  mkRuntime (channels s) (channelsDeferred s) (closed s) (pendingAttach s) (requestHandler s)
    (isLocal s) (deferredAttached s) (attachChannelQueue s) (trace s ++ [e])).

Section Methods.

(** The collaborators the runtime was constructed with. *)
Variable registry : string -> option ISharedObjectExtension.
Variable connectionState : ConnectionState.
Variable documentId : string.
Variable hostRequest : string -> IResponse.
(** [componentContext.submitMessage]: the client sequence number, or a throw. *)
Variable contextSubmitMessage : MessageType -> content -> result Z.
(** [ChannelDeltaConnection.prepare] and [.process], which run the channel's
    own handler. *)
Variable connectionPrepare :
  string -> ISequencedDocumentMessage jsval -> bool -> result context.
Variable connectionProcess :
  string -> ISequencedDocumentMessage jsval -> bool -> context -> result unit.

Definition lift {A : Type} (r : result A) : M A :=
  match r with
  | Ok a => ret a
  | Throw e => throw e
  end.

Definition verifyNotClosed : M unit :=
  do c <- gets closed;
  if c then throw "Runtime is closed" else ret tt.

Definition submit (ty : MessageType) (c : content) : M Z :=
  verifyNotClosed ;;
  log (ContextSubmitMessage ty c) ;;
  lift (contextSubmitMessage ty c).

Definition reserve (id : string) : M unit :=
  do d <- gets channelsDeferred;
  if negb (JsMap.has id d) then modify (set_channelsDeferred (JsMap.set id None d))
  else ret tt.

(** [new Runtime(...)]: the field initialisers and the constructor body. *)
Definition create (existing : bool) : t :=
  {| channels := []; channelsDeferred := []; closed := false; pendingAttach := [];
     requestHandler := None; isLocal := negb existing;
     deferredAttached := existing; attachChannelQueue := []; trace := [] |}.

Definition createAndAttachComponent (id pkg : string) : M unit :=
  log (ContextCreateComponent id pkg).

(** [request.url.substr(1)]. *)
Definition substr1 (url : string) : string :=
  match url with
  | EmptyString => EmptyString
  | String _ rest => rest
  end.

Definition request (url : string) : M IResponse :=
  if bool_decide (url = "/_scheduler") then
    log (HostRequest url) ;; ret (hostRequest url)
  else
    let id := substr1 url in
    do d <- gets channelsDeferred;
    match JsMap.get id d with
    | Some (Some value) => ret (Response 200 "prague/dataType" (Some value) EmptyString)
    | Some None => ret NeverResolves
    | None =>
        do h <- gets requestHandler;
        match h with
        | None => ret (Response 404 "text/plain" None (url ++ " not found"))
        | Some handler => log (HandlerRequest url) ;; ret (handler url)
        end
    end.

Definition registerRequestHandler (handler : string -> IResponse) : M unit :=
  modify (set_requestHandler (Some handler)).

Definition getChannel (id : string) : M Deferred :=
  verifyNotClosed ;;
  reserve id ;;
  do d <- gets channelsDeferred;
  ret (default None (JsMap.get id d)).

(** Resolve the deferred of [id] with [channel], creating it when absent. *)
Definition resolveDeferred (id : string) (channel : IChannel) : M unit :=
  do d <- gets channelsDeferred;
  match JsMap.get id d with
  | Some deferred => modify (set_channelsDeferred (JsMap.set id (resolve channel deferred) d))
  | None => modify (set_channelsDeferred (JsMap.set id (Some channel) d))
  end.

Definition createChannel (id ty : string) : M IChannel :=
  verifyNotClosed ;;
  match registry ty with
  | None => throw ("Channel Extension " ++ ty ++ " not registered")
  | Some extension =>
      let channel := ext_create extension id in
      modify (fun s => set_channels
        (JsMap.set id {| object := channel; storage := None; connection := None; baseId := None |}
           (channels s)) s) ;;
      resolveDeferred id channel ;;
      ret channel
  end.

Definition getObjectServices (id : string) (tree : option ISnapshotTree) : IObjectServices :=
  {| deltaConnection := {| conn_objectId := id; conn_state := connectionState |};
     objectStorage := ChannelStorageService tree;
     svc_baseId := match tree with Some tr => st_id tr | None => None end |}.

Definition getAndAttachChannelServices (channel : IChannel) : M IObjectServices :=
  let services := getObjectServices (ch_id channel) None in
  do chs <- gets channels;
  match JsMap.get (ch_id channel) chs with
  | None => throw "TypeError"
  | Some entry =>
      assert (bool_decide (object entry = channel)) ;;
      modify (set_channels
        (JsMap.set (ch_id channel)
           {| object := object entry; storage := Some (objectStorage services);
              connection := Some (deltaConnection services); baseId := baseId entry |} chs)) ;;
      ret services
  end.

Definition attachChannel (channel : IChannel) : M IObjectServices :=
  verifyNotClosed ;;
  let message :=
    {| am_id := ch_id channel; am_snapshot := ch_snapshot channel; am_type := ch_type channel |} in
  modify (fun s => set_pendingAttach (JsMap.set (ch_id channel) message (pendingAttach s)) s) ;;
  submit Attach (AttachContent message) ;;
  getAndAttachChannelServices channel.

Definition registerChannel (channel : IChannel) : M unit :=
  do l <- gets isLocal;
  if negb l then
    attachChannel channel ;; log (ChannelConnect (ch_id channel))
  else
    do q <- gets attachChannelQueue;
    if negb (JsMap.has (ch_id channel) q)
    then modify (set_attachChannelQueue (JsMap.set (ch_id channel) channel q))
    else ret tt.

Definition attach : M unit :=
  do l <- gets isLocal;
  if negb l then ret tt
  else
    log ContextAttach ;;
    do q <- gets attachChannelQueue;
    forEach (fun channel =>
               getAndAttachChannelServices channel ;; log (ChannelConnect (ch_id channel)))
            (JsMap.values q) ;;
    modify (set_isLocal false) ;;
    modify (set_deferredAttached true) ;;
    modify (set_attachChannelQueue []).

Definition setConnectionState (value : ConnectionState) (entry : IChannelState) : IChannelState :=
  match connection entry with
  | Some c =>
      {| object := object entry; storage := storage entry;
         connection := Some {| conn_objectId := conn_objectId c; conn_state := value |};
         baseId := baseId entry |}
  | None => entry
  end.

Definition changeConnectionState (value : ConnectionState) (clientId : string) : M unit :=
  verifyNotClosed ;;
  (if bool_decide (value = Connected) then
     do p <- gets pendingAttach;
     forEach (fun message => submit Attach (AttachContent message) ;; ret tt) (JsMap.values p)
   else ret tt) ;;
  modify (fun s => set_channels (prod_map id (setConnectionState value) <$> channels s) s) ;;
  log (RaiseConnectedEvent value clientId).

Definition getQuorum : M unit := verifyNotClosed.

Definition snapshot (message : string) : M unit :=
  verifyNotClosed ;; log (SnapshotFn message).

Definition save (tag : string) : M unit :=
  verifyNotClosed ;; submit Save (PlainContent (Str tag)) ;; ret tt.

Definition uploadBlob (file : string) : M unit :=
  verifyNotClosed ;;
  log (CreateBlob file) ;;
  submit BlobUploaded (PlainContent (Str file)) ;; ret tt.

Definition getBlob (blobId : string) : M unit :=
  verifyNotClosed ;; log (GetBlob blobId).

Definition getBlobMetadata : M unit := log GetBlobMetadata.

(** [JSON.stringify(objectAttributes)]. *)
Definition quote : string := String (Ascii.ascii_of_nat 34) EmptyString.
Definition stringifyAttributes (version ty : string) : string :=
  "{" ++ quote ++ "snapshotFormatVersion" ++ quote ++ ":" ++ quote ++ version ++ quote
  ++ "," ++ quote ++ "type" ++ quote ++ ":" ++ quote ++ ty ++ quote ++ "}".

Definition snapshotChannel (objectId : string) (entry : IChannelState) : list ITreeEntry :=
  if ch_isRegistered (object entry) then
    let snap := ch_snapshot (object entry) in
    let withAttributes :=
      (entries snap ++
       [Blob ".attributes"
          (stringifyAttributes (ch_snapshotFormatVersion (object entry))
             (ch_type (object entry)))])%list in
    let snapId :=
      match baseId entry with
      | Some b => if bool_decide (b = EmptyString) then tree_id snap else Some b
      | None => tree_id snap
      end in
    [Tree objectId withAttributes snapId]
  else [].

Definition snapshotInternal : M (list ITreeEntry) :=
  do chs <- gets channels;
  ret (concat (map (fun '(objectId, entry) => snapshotChannel objectId entry) chs)).

Definition stop : M (list ITreeEntry) :=
  verifyNotClosed ;;
  modify (set_closed true) ;;
  snapshotInternal.

Definition close : M unit := log CloseFn.

Definition transform (message : ISequencedDocumentMessage content) (inner : jsval)
    : ISequencedDocumentMessage jsval :=
  {| clientId := clientId message;
     clientSequenceNumber := clientSequenceNumber message;
     contents := inner;
     minimumSequenceNumber := minimumSequenceNumber message;
     origin := origin message;
     referenceSequenceNumber := referenceSequenceNumber message;
     sequenceNumber := sequenceNumber message;
     type := type message |}.

(** [channels.get(envelope.address)] after the cast to [IEnvelope]: contents
    of another shape have no [address], and the lookup finds nothing. *)
Definition envelopeTarget (c : content) (chs : JsMap.t IChannelState)
    : option (string * jsval * IChannelState) :=
  match c with
  | Envelope address inner =>
      match JsMap.get address chs with
      | Some details => Some (address, inner, details)
      | None => None
      end
  | _ => None
  end.

Definition prepareOp (message : ISequencedDocumentMessage content) (local : bool) : M context :=
  verifyNotClosed ;;
  do chs <- gets channels;
  match envelopeTarget (contents message) chs with
  | None => throw "AssertionError"
  | Some (address, inner, objectDetails) =>
      match connection objectDetails with
      | None => throw "TypeError"
      | Some _ =>
          log (ConnectionPrepare address (transform message inner) local) ;;
          lift (connectionPrepare address (transform message inner) local)
      end
  end.

Definition processOp (message : ISequencedDocumentMessage content) (local : bool)
    (ctx : context) : M IChannel :=
  verifyNotClosed ;;
  do chs <- gets channels;
  match envelopeTarget (contents message) chs with
  | None => throw "AssertionError"
  | Some (address, inner, objectDetails) =>
      (* Clear base id since the channel is now dirty *)
      modify (set_channels
        (JsMap.set address
           {| object := object objectDetails; storage := storage objectDetails;
              connection := connection objectDetails; baseId := None |} chs)) ;;
      match connection objectDetails with
      | None => throw "TypeError"
      | Some _ =>
          log (ConnectionProcess address (transform message inner) local) ;;
          lift (connectionProcess address (transform message inner) local ctx) ;;
          ret (object objectDetails)
      end
  end.

Definition attachId (c : content) : option string :=
  match c with
  | AttachContent m => Some (am_id m)
  | _ => None
  end.

Definition processAttach (message : ISequencedDocumentMessage content) (local : bool)
    (ctx : context) : M IChannel :=
  verifyNotClosed ;;
  let attachMessageId := attachId (contents message) in
  (if local then
     do p <- gets pendingAttach;
     match attachMessageId with
     | Some i =>
         assert (JsMap.has i p) ;;
         modify (set_pendingAttach (JsMap.delete i p))
     | None => throw "AssertionError"
     end
   else
     match ctx with
     | CtxChannelState channelState =>
         modify (fun s => set_channels
           (JsMap.set (ch_id (object channelState)) channelState (channels s)) s) ;;
         resolveDeferred (ch_id (object channelState)) (object channelState)
     | _ => throw "TypeError"
     end) ;;
  do chs <- gets channels;
  match attachMessageId with
  | Some i =>
      match JsMap.get i chs with
      | Some entry => ret (object entry)
      | None => throw "TypeError"
      end
  | None => throw "TypeError"
  end.

Definition versionMismatch (ty snapshotFormatVersion clientVersion : string) : string :=
  "Snapshot version mismatch. Type: " ++ ty ++ ", " ++
  "Snapshot format version: " ++ snapshotFormatVersion ++ ", " ++
  "client format version: " ++ clientVersion.

Definition loadChannel (id ty : string) (snapshotFormatVersion : option string)
    (minSequenceNumber : Z) (services : IObjectServices) (originBranch : string)
    : M IChannelState :=
  match registry ty with
  | None => throw ("Channel Extension " ++ ty ++ " not registered")
  | Some extension =>
      (* compare snapshot version to collaborative object version *)
      match snapshotFormatVersion with
      | Some v =>
          if negb (bool_decide (v = ext_snapshotFormatVersion extension))
          then log (Debug (versionMismatch ty v (ext_snapshotFormatVersion extension)))
          else ret tt
      | None => ret tt
      end ;;
      log (ExtensionLoad id ty) ;;
      do value <- lift (ext_load extension id minSequenceNumber services originBranch);
      ret {| object := value; storage := Some (objectStorage services);
             connection := Some (deltaConnection services); baseId := svc_baseId services |}
  end.

Definition prepareAttach (message : ISequencedDocumentMessage content) (local : bool)
    : M context :=
  verifyNotClosed ;;
  if local then ret CtxUndefined
  else
    match contents message with
    | AttachContent attachMessage =>
        let services :=
          {| deltaConnection :=
               {| conn_objectId := am_id attachMessage; conn_state := connectionState |};
             objectStorage := LocalChannelStorageService (am_snapshot attachMessage);
             svc_baseId := None |} in
        let origin_ := default documentId (origin message) in
        do value <- loadChannel (am_id attachMessage) (am_type attachMessage) None
                      (minimumSequenceNumber message) services origin_;
        ret (CtxChannelState value)
    | _ => throw "TypeError"
    end.

Definition loadSnapshotChannel (id : string) (tree : ISnapshotTree) (branch : string)
    (deltaManagerMinimumSequenceNumber : Z) : M unit :=
  let channelAttributes := st_attributes tree in
  let services := getObjectServices id (Some tree) in
  do channelDetails <- loadChannel id (attr_type channelAttributes)
                         (attr_snapshotFormatVersion channelAttributes)
                         deltaManagerMinimumSequenceNumber services branch;
  do chs <- gets channels;
  assert (negb (JsMap.has id chs)) ;;
  modify (set_channels (JsMap.set id channelDetails chs)) ;;
  do d <- gets channelsDeferred;
  match JsMap.get id d with
  | Some deferred =>
      modify (set_channelsDeferred (JsMap.set id (resolve (object channelDetails) deferred) d))
  | None => throw "TypeError"
  end.

Definition prepare (message : ISequencedDocumentMessage content) (local : bool) : M context :=
  match type message with
  | Attach => prepareAttach message local
  | Operation => prepareOp message local
  | _ => ret CtxUndefined
  end.

Definition process (message : ISequencedDocumentMessage content) (local : bool)
    (ctx : context) : M unit :=
  do target <-
    match type message with
    | Attach => do ch <- processAttach message local ctx; ret (Some ch)
    | Operation => do ch <- processOp message local ctx; ret (Some ch)
    | _ => ret None
    end;
  log (EmitOp message target).

Definition processSignal (ty : string) (local : bool) : M unit :=
  log (EmitSignal ty local).

Definition submitMessage (ty : MessageType) (c : content) : M unit :=
  submit ty c ;; ret tt.

Definition submitSignal (ty : string) (c : jsval) : M unit :=
  verifyNotClosed ;; log (ContextSubmitSignal ty c).

Definition notifyPendingMessages : M unit :=
  assert (negb (bool_decide (connectionState = Connected))) ;;
  log NotifyPendingMessages.

Definition waitAttached : M bool := gets deferredAttached.

Definition error (e : string) : M unit := log (ContextError e).

(** The public surface of the class, one constructor per method. *)
Inductive call : Type :=
| CallCreateAndAttachComponent (id pkg : string)
| CallRequest (url : string)
| CallRegisterRequestHandler (handler : string -> IResponse)
| CallGetChannel (id : string)
| CallCreateChannel (id ty : string)
| CallRegisterChannel (channel : IChannel)
| CallAttach
| CallChangeConnectionState (value : ConnectionState) (clientId : string)
| CallGetQuorum
| CallSnapshot (message : string)
| CallSave (tag : string)
| CallUploadBlob (file : string)
| CallGetBlob (blobId : string)
| CallGetBlobMetadata
| CallStop
| CallClose
| CallPrepare (message : ISequencedDocumentMessage content) (local : bool)
| CallProcess (message : ISequencedDocumentMessage content) (local : bool) (ctx : context)
| CallProcessSignal (ty : string) (local : bool)
| CallSnapshotInternal
| CallSubmitMessage (ty : MessageType) (c : content)
| CallSubmitSignal (ty : string) (c : jsval)
| CallNotifyPendingMessages
| CallWaitAttached
| CallError (e : string).

Definition void {A : Type} (m : M A) : M unit := m ;; ret tt.

Definition exec (c : call) : M unit :=
  match c with
  | CallCreateAndAttachComponent id pkg => createAndAttachComponent id pkg
  | CallRequest url => void (request url)
  | CallRegisterRequestHandler handler => registerRequestHandler handler
  | CallGetChannel id => void (getChannel id)
  | CallCreateChannel id ty => void (createChannel id ty)
  | CallRegisterChannel channel => registerChannel channel
  | CallAttach => attach
  | CallChangeConnectionState value clientId => changeConnectionState value clientId
  | CallGetQuorum => getQuorum
  | CallSnapshot message => snapshot message
  | CallSave tag => save tag
  | CallUploadBlob file => uploadBlob file
  | CallGetBlob blobId => getBlob blobId
  | CallGetBlobMetadata => getBlobMetadata
  | CallStop => void stop
  | CallClose => close
  | CallPrepare message local => void (prepare message local)
  | CallProcess message local ctx => process message local ctx
  | CallProcessSignal ty local => processSignal ty local
  | CallSnapshotInternal => void snapshotInternal
  | CallSubmitMessage ty c => submitMessage ty c
  | CallSubmitSignal ty c => submitSignal ty c
  | CallNotifyPendingMessages => notifyPendingMessages
  | CallWaitAttached => void waitAttached
  | CallError e => error e
  end.

(** The calls whose first statement, on every path, is [verifyNotClosed()]
    (directly, or as the first statement of the private method they enter). *)
Definition guarded (c : call) : bool :=
  match c with
  | CallGetChannel _ | CallCreateChannel _ _ | CallChangeConnectionState _ _
  | CallGetQuorum | CallSnapshot _ | CallSave _ | CallUploadBlob _ | CallGetBlob _
  | CallStop | CallSubmitMessage _ _ | CallSubmitSignal _ _ => true
  | CallPrepare message _ | CallProcess message _ _ =>
      bool_decide (type message = Attach) || bool_decide (type message = Operation)
  | _ => false
  end.

(** A run of calls; a call that throws leaves its state to the next one. *)
Fixpoint run (cs : list call) (s : t) : t :=
  match cs with
  | [] => s
  | c :: cs' => run cs' (exec c s).2
  end.

End Methods.

(** A method keeps a closed runtime closed. *)
Definition keeps_closed {A : Type} (m : M A) : Prop :=
  forall s, closed s = true -> closed (m s).2 = true.

End ComponentRuntime.

(* --------------------------------------------------------------------- *)
(** ** Quorum *)
(* --------------------------------------------------------------------- *)

Module Quorum.

(** Modelled from the spec: the Quorum component, whose code is not among
    the sources.  Section 4.3: it "tracks the set of connected clients and,
    for each, the highest sequence number it has acknowledged";
    "[minimumSequenceNumber()] = minimum of all connected clients'
    acknowledged sequence numbers (or [currentSeq] if no clients
    connected)". *)
Record t : Type := mkQuorum {
  currentSeq : Z;
  connected : gset string;
  acknowledged : gmap string Z
}.


(** Modelled from the spec: the least acknowledged number, if any client
    has contributed one. *)
Definition lowest (acks : gmap string Z) : option Z :=
  map_fold (fun _ n acc => Some (from_option (Z.min n) n acc)) None acks.

Definition minimumSequenceNumber (q : t) : Z :=
  default (currentSeq q) (lowest (acknowledged q)).






End Quorum.

(* --------------------------------------------------------------------- *)
(** ** Segment tree and snapshot *)
(* --------------------------------------------------------------------- *)

Module MergeTree.

(** Modelled from the spec: the Segment and the tree of section 3, whose
    code (the merge-tree package) is not among the sources.  "Segment: a
    contiguous run of content (text characters, or a zero-length marker
    carrying property tags)", with its properties, "sequenceNumber (...;
    sentinel universal for content present before collaboration began)",
    "removedSequenceNumber (seq at which it was removed, or unset)", the
    client ids of inserter and remover and a per-client local id.  A segment
    not yet acknowledged carries the pending marker. *)
Inductive Content : Type :=
| TextRun (text : string)
| Marker.

Inductive SequenceNumber : Type :=
| Universal
| Sequenced (n : Z)
| Pending.

Record Segment : Type := mkSegment {
  content : Content;
  properties : gmap string jsval;
  sequenceNumber : SequenceNumber;
  removedSequenceNumber : option SequenceNumber;
  clientId : option string;
  removedClientId : option string;
  localId : Z
}.

(** Modelled from the spec: the tree as the ordered sequence of its segments
    ("segments form an ordered sequence under tree traversal") together with
    the window's [minSeq] and [currentSeq]. *)
Record t : Type := mkMergeTree {
  segments : list Segment;
  minSeq : Z;
  currentSeq : Z
}.

Definition runLength (c : Content) : nat :=
  match c with
  | TextRun text => String.length text
  | Marker => 0
  end.

Definition runText (c : Content) : string :=
  match c with
  | TextRun text => text
  | Marker => EmptyString
  end.

(** Modelled from the spec: a segment is removed once its
    [removedSequenceNumber] is set. *)
Definition live (s : Segment) : bool :=
  match removedSequenceNumber s with
  | None => true
  | Some _ => false
  end.

(** Modelled from the spec: "the sum of length over all non-removed segments
    equals the tree's reported getLength()"; [getText] is their text in
    order. *)
Definition getLength (T : t) : nat :=
  sum_list (runLength ∘ content <$> filter (fun s => live s = true) (segments T)).

Definition getText (T : t) : string :=
  foldr String.append EmptyString
    (runText ∘ content <$> filter (fun s => live s = true) (segments T)).

(** Modelled from the spec: what a client that has seen everything up to
    sequence number [n] sees -- a segment inserted at or before [n] and not
    removed at or before [n]. *)
Definition reached (n : Z) (q : SequenceNumber) : bool :=
  match q with
  | Universal => true
  | Sequenced k => bool_decide (k <= n)
  | Pending => false
  end.

Definition visibleAt (n : Z) (s : Segment) : bool :=
  reached n (sequenceNumber s)
  && negb (from_option (reached n) false (removedSequenceNumber s)).

(** The linearized content: one entry per character or marker, each with
    the properties of its segment.  Segment boundaries do not show. *)
Inductive Unit : Type :=
| Char (c : Ascii.ascii)
| MarkerUnit.

Definition runUnits (c : Content) (props : gmap string jsval)
    : list (Unit * gmap string jsval) :=
  match c with
  | TextRun text => (fun ch => (Char ch, props)) <$> list_ascii_of_string text
  | Marker => [(MarkerUnit, props)]
  end.

Definition linearize (T : t) : list (Unit * gmap string jsval) :=
  filter (fun s => live s = true) (segments T)
    ≫= (fun s => runUnits (content s) (properties s)).

(** The characters among linearized units, in order. *)
Definition unitChars (us : list (Unit * gmap string jsval)) : list Ascii.ascii :=
  omap (fun u => match u.1 with Char c => Some c | MarkerUnit => None end) us.

(** Modelled from the spec: a quiescent tree -- every insertion and every
    removal has been sequenced at or below [minSeq], so nothing is pending
    and the minSeq view is the current view. *)
Definition quiescent (T : t) : bool :=
  forallb (fun s =>
             reached (minSeq T) (sequenceNumber s)
             && from_option (reached (minSeq T)) true (removedSequenceNumber s))
          (segments T).

End MergeTree.

Module Snapshot.

Import MergeTree.

(** Modelled from the spec: the snapshot of section 4.4, whose code
    ([Snapshot.extractSync], [emit], [loadChunk]) is not among the sources;
    only its test is.  "Each chunk contains a flat ordered list of segment
    descriptors sufficient to reconstruct a contiguous slice of the
    sequence, plus the minSeq at snapshot time"; there is a "header chunk
    (always present, bounded size) plus zero or more body chunks". *)
Record SegmentSpec : Type := mkSpec {
  spec_content : Content;
  spec_properties : gmap string jsval
}.

Record Chunk : Type := mkChunk {
  segmentTexts : list SegmentSpec;
  chunkMinSeq : Z
}.

Record t : Type := mkSnapshot {
  header : Chunk;
  body : list Chunk
}.

Definition toSpec (s : Segment) : SegmentSpec :=
  {| spec_content := content s; spec_properties := properties s |}.

(** Modelled from the spec: the test's [specToSegment]; a reloaded segment
    belongs to nobody and carries the universal sequence number. *)
Definition specToSegment (sp : SegmentSpec) : Segment :=
  {| content := spec_content sp; properties := spec_properties sp;
     sequenceNumber := Universal; removedSequenceNumber := None;
     clientId := None; removedClientId := None; localId := 0 |}.

Definition specUnits (specs : list SegmentSpec) : list (Unit * gmap string jsval) :=
  specs ≫= (fun sp => runUnits (spec_content sp) (spec_properties sp)).

Definition textTake (n : nat) (text : string) : string :=
  string_of_list_ascii (take n (list_ascii_of_string text)).
Definition textDrop (n : nat) (text : string) : string :=
  string_of_list_ascii (drop n (list_ascii_of_string text)).

(** Modelled from the spec: the positions a list of descriptors takes up;
    a marker takes none. *)
Definition contentLength (specs : list SegmentSpec) : nat :=
  sum_list (runLength ∘ spec_content <$> specs).

(** Modelled from the spec: one way to part the descriptors between the
    header and the rest.  "The first chunk holds up to a fixed capacity
    ([sizeOfFirstChunk], measured in serialized content units); if total
    content exceeds capacity, remaining content is serialized into one or
    more body chunks".  Content is measured in positions of the sequence.
    The header takes every descriptor that still fits -- a marker always
    does -- and of the first run that does not fit the part that does
    ("segments may be coalesced/split differently"); what comes after goes
    to the rest.  The section does not fix where the cut falls: [admits],
    below, is what it asks of any snapshot. *)
Fixpoint fill (capacity : nat) (specs : list SegmentSpec)
    : list SegmentSpec * list SegmentSpec :=
  match specs with
  | [] => ([], [])
  | sp :: rest =>
      match spec_content sp with
      | Marker => let '(h, b) := fill capacity rest in (sp :: h, b)
      | TextRun text =>
          if bool_decide (String.length text <= capacity)%nat then
            let '(h, b) := fill (capacity - String.length text) rest in (sp :: h, b)
          else
            match capacity with
            | O => ([], specs)
            | S _ =>
                ([mkSpec (TextRun (textTake capacity text)) (spec_properties sp)],
                 mkSpec (TextRun (textDrop capacity text)) (spec_properties sp) :: rest)
            end
      end
  end.

Section WithCapacity.

(** [Snapshot.sizeOfFirstChunk]; its value is not in the sources. *)
Variable sizeOfFirstChunk : nat.

(** Modelled from the spec: "[extract()]: walks the tree and serializes
    visible segments (as of current minSeq) into an ordered list of
    chunks". *)
Definition extract (T : MergeTree.t) : t :=
  let specs := toSpec <$> filter (fun s => visibleAt (minSeq T) s = true) (segments T) in
  let '(h, rest) := fill sizeOfFirstChunk specs in
  {| header := mkChunk h (minSeq T);
     body := match rest with
             | [] => []
             | _ :: _ => [mkChunk rest (minSeq T)]
             end |}.

End WithCapacity.

(** Modelled from the spec: "[load(header, optionalBody)]: reconstructs a
    tree from the header chunk alone if the document is short enough to have
    no body; otherwise reconstructs header content immediately and body
    content as a deferred second phase".  As in the test, the header is
    reloaded with [reloadFromSegments] and a body chunk is inserted at the
    end, at [getLength()]. *)
Definition reloadFromSegments (segs : list Segment) (seq : Z) : MergeTree.t :=
  {| segments := segs; minSeq := seq; currentSeq := seq |}.

Definition loadHeader (h : Chunk) : MergeTree.t :=
  reloadFromSegments (specToSegment <$> segmentTexts h) (chunkMinSeq h).

Definition insertSegmentsAtEnd (T : MergeTree.t) (segs : list Segment) : MergeTree.t :=
  {| segments := segments T ++ segs; minSeq := minSeq T; currentSeq := currentSeq T |}.

Definition applyBody (T : MergeTree.t) (b : Chunk) : MergeTree.t :=
  insertSegmentsAtEnd T (specToSegment <$> segmentTexts b).

Definition load (s : t) : MergeTree.t :=
  foldl applyBody (loadHeader (header s)) (body s).

(** Modelled from the spec: the descriptors a tree is snapshotted from,
    those of the "visible segments (as of current minSeq)". *)
Definition visibleSpecs (T : MergeTree.t) : list SegmentSpec :=
  toSpec <$> filter (fun sg => visibleAt (minSeq T) sg = true) (segments T).

(** Modelled from the spec: what sections 3 and 4.4 ask of a snapshot of
    [T], wherever it cuts the segments.  The descriptors of the header and
    of the body chunks, in order, "reconstruct a contiguous slice of the
    sequence" each and together the content visible as of [minSeq], with its
    properties; the header "holds up to a fixed capacity"; body chunks are
    "present only if content exceeds the header's capacity"; and every chunk
    carries "the minSeq at snapshot time". *)
Definition admits (capacity : nat) (T : MergeTree.t) (s : t) : Prop :=
  specUnits (segmentTexts (header s) ++ (body s ≫= segmentTexts)) = specUnits (visibleSpecs T)
  /\ (contentLength (segmentTexts (header s)) <= capacity)%nat
  /\ (body s <> [] -> (capacity < contentLength (visibleSpecs T))%nat)
  /\ Forall (fun c => chunkMinSeq c = minSeq T) (header s :: body s).

End Snapshot.

(* --------------------------------------------------------------------- *)
(** ** Sample inputs *)
(* --------------------------------------------------------------------- *)

(** Concrete cells, messages and collaborators on which the statements of
    Part II are evaluated. *)
Module Sample.

Definition cellMessage (ty : MessageType) (csn : Z) (op : Cell.ICellOperation)
    : ISequencedDocumentMessage Cell.ICellOperation :=
  {| clientId := "remote"; clientSequenceNumber := csn; contents := op;
     minimumSequenceNumber := 0; origin := None; referenceSequenceNumber := 0;
     sequenceNumber := 1; type := ty |}.

(** A cell holding a local value whose operation (number 7) awaits its echo. *)
Definition pendingCell : Cell.t :=
  Cell.set (Str "mine") true 7 Cell.create.

Definition idleCell : Cell.t := Cell.acked pendingCell.

Definition setTheirs : Cell.ICellOperation :=
  Cell.mkCellOp "setCell" (Some (Cell.mkCellValue Cell.Plain (Str "theirs"))).

Definition renameCell : Cell.ICellOperation := Cell.mkCellOp "renameCell" None.

Import ComponentRuntime.

Definition textChannel (id : string) : IChannel :=
  {| ch_id := id; ch_type := "text"; ch_snapshotFormatVersion := "0.2";
     ch_isRegistered := true; ch_snapshot := mkTree [Blob "header" "abc"] None |}.

Definition textExtension : ISharedObjectExtension :=
  {| ext_snapshotFormatVersion := "0.2";
     ext_create := textChannel;
     ext_load := fun id _ _ _ => Ok (textChannel id) |}.

Definition registry (ty : string) : option ISharedObjectExtension :=
  if bool_decide (ty = "text") then Some textExtension else None.

Definition hostRequest (url : string) : IResponse :=
  Response 200 "prague/component" None EmptyString.

Definition contextSubmitMessage (ty : MessageType) (c : content) : result Z := Ok 1.

Definition connectionPrepare (address : string) (m : ISequencedDocumentMessage jsval)
    (local : bool) : result context := Ok CtxUndefined.

Definition connectionProcess (address : string) (m : ISequencedDocumentMessage jsval)
    (local : bool) (ctx : context) : result unit := Ok tt.

Definition exec : call -> M unit :=
  ComponentRuntime.exec registry Connected "doc" hostRequest contextSubmitMessage
    connectionPrepare connectionProcess.

Definition run : list call -> t -> t :=
  ComponentRuntime.run registry Connected "doc" hostRequest contextSubmitMessage
    connectionPrepare connectionProcess.

(** A runtime on which [stop()] has been called. *)
Definition stopped : t := run [CallStop] (create true).

Definition handler (url : string) : IResponse :=
  Response 200 "text/plain" None url.

Definition runtimeMessage (ty : MessageType) (c : content)
    : ISequencedDocumentMessage content :=
  {| clientId := "remote"; clientSequenceNumber := 3; contents := c;
     minimumSequenceNumber := 0; origin := None; referenceSequenceNumber := 0;
     sequenceNumber := 1; type := ty |}.

Definition services : IObjectServices :=
  getObjectServices Connected "root" None.

(** The snapshot tree of the channel "root" in a base snapshot: its id and
    its parsed [".attributes"] blob. *)
Definition rootTree : ISnapshotTree :=
  {| st_id := Some "base";
     st_attributes := {| attr_snapshotFormatVersion := Some "0.2"; attr_type := "text" |} |}.

(** A runtime as [ComponentRuntime.load] leaves it for a base snapshot that
    holds the channel "root": constructed, the id reserved, the channel
    loaded. *)
Definition loaded : t :=
  (bindM (reserve "root") (fun _ => loadSnapshotChannel registry Connected "root" rootTree "doc" 0)
     (create true)).2.


Definition opOnRoot : ISequencedDocumentMessage content :=
  runtimeMessage Operation (Envelope "root" (Num 1)).

(** A tree of three acknowledged runs, a marker among them, and a tree that
    also holds a local insertion still awaiting its echo. *)
Definition bold : gmap string jsval := {["bold" := Num 1]}.

Definition textRun (text : string) (props : gmap string jsval)
    (seq : MergeTree.SequenceNumber) : MergeTree.Segment :=
  MergeTree.mkSegment (MergeTree.TextRun text) props seq None (Some "me") None 0.

Definition settledTree : MergeTree.t :=
  MergeTree.mkMergeTree
    [textRun "hel" ∅ (MergeTree.Sequenced 1);
     MergeTree.mkSegment MergeTree.Marker bold (MergeTree.Sequenced 2) None (Some "me") None 0;
     textRun "lo wor" bold (MergeTree.Sequenced 3);
     MergeTree.mkSegment (MergeTree.TextRun "XX") ∅ (MergeTree.Sequenced 2)
       (Some (MergeTree.Sequenced 4)) (Some "me") (Some "you") 0;
     textRun "ld" ∅ MergeTree.Universal]
    4 4.

Definition editedTree : MergeTree.t :=
  MergeTree.mkMergeTree
    [textRun "abc" ∅ (MergeTree.Sequenced 1); textRun "d" ∅ MergeTree.Pending] 1 1.





End Sample.

(* --------------------------------------------------------------------- *)
(** ** Cell and Counter: what travels between replicas *)
(* --------------------------------------------------------------------- *)

Module CellWire.

Import Cell.

(** The operation a method handed to [submitLocalMessage] last, as it is
    found in the trace. *)
Definition submitted (c : t) : option ICellOperation :=
  match last (trace c) with
  | Some (SubmitLocalMessage op) => Some op
  | _ => None
  end.

End CellWire.

Module CounterWire.

Import Counter.

Definition isEmitterEmit (e : effect) : bool :=
  match e with
  | EmitterEmit _ _ _ => true
  | EmitIncremented _ _ => false
  end.

(** The operations a counter handed to its [IValueOpEmitter]. *)
Definition emitted (c : t) : list effect := filter (fun e => isEmitterEmit e = true) (trace c).

(** The ["increment"] operation's [process] run over the messages of a
    stream, each with its [params] and [local] flag. *)
Definition processAll (c : t) (ms : list (float * bool)) : t :=
  foldl (fun v m => process v m.1 m.2) c ms.

(** The amounts of the remote messages of a stream, in order of arrival. *)
Definition remote (ms : list (float * bool)) : list float :=
  (filter (fun m : float * bool => m.2 = false) ms).*1.

End CounterWire.

(* --------------------------------------------------------------------- *)
(** ** Component runtime: views of its state *)
(* --------------------------------------------------------------------- *)

Module RuntimeView.

Import ComponentRuntime.

(** [path] of an [ITreeEntry]. *)
Definition entryPath (e : ITreeEntry) : string :=
  match e with
  | Blob path _ => path
  | Tree path _ _ => path
  end.

(** The [".attributes"] blob [snapshotInternal] appends for a channel. *)
Definition attributesBlob (channel : IChannel) : ITreeEntry :=
  Blob ".attributes"
    (stringifyAttributes (ch_snapshotFormatVersion channel) (ch_type channel)).

(** The messages handed to [componentContext.submitMessage], in order. *)
Definition submittedMessages (s : t) : list (MessageType * content) :=
  omap (fun e => match e with
                 | ContextSubmitMessage ty c => Some (ty, c)
                 | _ => None
                 end) (trace s).

(** The "op" events emitted, in order, each with its message and target. *)
Definition emittedOps (s : t) : list (ISequencedDocumentMessage content * option IChannel) :=
  omap (fun e => match e with
                 | EmitOp m target => Some (m, target)
                 | _ => None
                 end) (trace s).


(** A property of the state that a method leaves standing, whether it
    returns or throws. *)
Definition stable {A : Type} (P : t -> Prop) (m : M A) : Prop :=
  forall s, P s -> P (m s).2.

(** The entries [snapshotInternal] returns. *)
Definition snapshotEntries (s : t) : list ITreeEntry :=
  match (snapshotInternal s).1 with
  | Ok es => es
  | Throw _ => []
  end.

(** The state with further effects appended to its trace. *)
Definition logged (es : list effect) (s : t) : t :=
  mkRuntime (channels s) (channelsDeferred s) (closed s) (pendingAttach s) (requestHandler s)
    (isLocal s) (deferredAttached s) (attachChannelQueue s) (trace s ++ es).

(** The callback [attach] runs on every channel of [attachChannelQueue]. *)
Definition connectOne (connectionState : ConnectionState) (channel : IChannel) : M unit :=
  bindM (getAndAttachChannelServices connectionState channel)
    (fun _ => log (ChannelConnect (ch_id channel))).

(** The channel stored under [k] is connected to the op stream. *)
Definition connectedAt (connectionState : ConnectionState) (k : string)
    (chs : JsMap.t IChannelState) : Prop :=
  exists e, JsMap.get k chs = Some e
            /\ connection e = Some {| conn_objectId := k; conn_state := connectionState |}
            /\ storage e = Some (ChannelStorageService None).

(** [IAttachMessage] built by [attachChannel] for a channel. *)
Definition attachMessage (channel : IChannel) : IAttachMessage :=
  {| am_id := ch_id channel; am_snapshot := ch_snapshot channel; am_type := ch_type channel |}.

End RuntimeView.

(* --------------------------------------------------------------------- *)
(** ** packages/runtime/sequence/src/test/generateSharedStrings.ts:
       class ComponentContext *)
(* --------------------------------------------------------------------- *)

Module ComponentContext.

(** The envelope [submitOp] and [submitSignal] build:
    [{ address: this.id, contents: { content, type } }]. *)
Record IEnvelope (T C : Type) : Type := mkEnvelope {
  env_address : string;
  env_content : C;
  env_type : T
}.
Arguments mkEnvelope {T C}.
Arguments env_address {T C}.
Arguments env_content {T C}.
Arguments env_type {T C}.

(** Calls into the host runtime and events emitted by the context. *)
Inductive effect : Type :=
| HostCreateComponent (id pkg : string)
| HostGetComponentRuntime (id : string) (wait : bool)
| RaiseConnectedEvent (value : ComponentRuntime.ConnectionState) (clientId : string)
| HostGetQuorum
| BlobManagerGetBlobMetadata
| HostCloseFn
| HostSubmitFn (ty : MessageType) (envelope : IEnvelope MessageType ComponentRuntime.content)
| HostSubmitSignalFn (envelope : IEnvelope string jsval)
| HostError (err : string)
| EmitLeader (clientId : string).

(** The fields of the class; [_componentRuntime] is [undefined] until
    [start] has run. *)
Record t : Type := mkContext {
  closed : bool;
  _componentRuntime : option ComponentRuntime.t;
  baseId : option string;
  trace : list effect
}.

Definition set_closed (v : bool) (c : t) : t :=
  mkContext v (_componentRuntime c) (baseId c) (trace c).
Definition set_componentRuntime (v : option ComponentRuntime.t) (c : t) : t :=
  mkContext (closed c) v (baseId c) (trace c).
Definition set_baseId (v : option string) (c : t) : t :=
  mkContext (closed c) (_componentRuntime c) v (trace c).
Definition log (e : effect) (c : t) : t :=
  mkContext (closed c) (_componentRuntime c) (baseId c) (trace c ++ [e]).

(** A method of the context: an outcome and the state left behind. *)
Definition M (A : Type) : Type := t -> result A * t.

(** [JSON.stringify({ pkg })], for a package name that needs no escaping. *)
Definition stringifyComponent (pkg : string) : string :=
  "{" ++ ComponentRuntime.quote ++ "pkg" ++ ComponentRuntime.quote ++ ":"
  ++ ComponentRuntime.quote ++ pkg ++ ComponentRuntime.quote ++ "}".

Section Methods.

(** The constructor's [pkg] and [id], and the host runtime's members the
    context reads or calls. *)
Variable pkg : string.
Variable id : string.
Variable registry : string -> option ComponentRuntime.ISharedObjectExtension.
Variable hostConnectionState : ComponentRuntime.ConnectionState.
Variable hostId : string.
Variable hostRequest : string -> ComponentRuntime.IResponse.
Variable hostSubmitFn :
  MessageType -> IEnvelope MessageType ComponentRuntime.content -> result Z.
Variable connectionPrepare :
  string -> ISequencedDocumentMessage jsval -> bool -> result ComponentRuntime.context.
Variable connectionProcess :
  string -> ISequencedDocumentMessage jsval -> bool -> ComponentRuntime.context -> result unit.

(** [new ComponentContext(...)]: [baseSnapshot ? baseSnapshot.id : null]. *)
Definition create (baseSnapshot : option (option string)) : t :=
  {| closed := false; _componentRuntime := None;
     baseId := match baseSnapshot with Some i => i | None => None end;
     trace := [] |}.

(** [start], once the package's factory has instantiated the component. *)
Definition start (runtime : ComponentRuntime.t) : M unit :=
  fun c => (Ok tt, set_componentRuntime (Some runtime) c).

Definition verifyNotClosed : M unit :=
  fun c => if closed c then (Throw "Runtime is closed", c) else (Ok tt, c).

(** What [componentContext.submitMessage] answers the component runtime:
    [submitMessage] calls [submitOp], which checks [closed] and hands the
    host an Operation whose envelope carries the type and the content. *)
Definition submitOp (ty : MessageType) (content : ComponentRuntime.content) : M Z :=
  fun c =>
    if closed c then (Throw "Runtime is closed", c)
    else
      let envelope := {| env_address := id; env_content := content; env_type := ty |} in
      (hostSubmitFn Operation envelope, log (HostSubmitFn Operation envelope) c).

Definition submitMessage (ty : MessageType) (content : ComponentRuntime.content) : M Z :=
  submitOp ty content.

(** The calls to [hostRuntime.submitFn] behind the messages a component
    runtime handed to [componentContext.submitMessage]. *)
Definition hostSubmits (es : list ComponentRuntime.effect) : list effect :=
  omap (fun e =>
          match e with
          | ComponentRuntime.ContextSubmitMessage ty content =>
              Some (HostSubmitFn Operation
                      {| env_address := id; env_content := content; env_type := ty |})
          | _ => None
          end) es.

(** [this._componentRuntime.<method>(...)]: a [TypeError] before [start];
    afterwards the method of the component runtime, which finds this
    context's [submitMessage] behind [componentContext.submitMessage].  The
    messages the runtime submitted during the call are, on an open context,
    the calls the host received. *)
Definition onRuntime {A : Type}
    (method : (MessageType -> ComponentRuntime.content -> result Z) -> ComponentRuntime.M A)
    : M A :=
  fun c =>
    match _componentRuntime c with
    | None => (Throw "TypeError", c)
    | Some runtime =>
        let '(r, runtime') := method (fun ty content => (submitMessage ty content c).1) runtime in
        let submitted :=
          drop (length (ComponentRuntime.trace runtime)) (ComponentRuntime.trace runtime') in
        (r,
         set_componentRuntime (Some runtime')
           (mkContext (closed c) (_componentRuntime c) (baseId c)
              (trace c ++ if closed c then [] else hostSubmits submitted)))
    end.

Definition createComponent (id' pkg' : string) : M unit :=
  fun c => (Ok tt, log (HostCreateComponent id' pkg') c).

Definition getComponentRuntime (id' : string) (wait : bool) : M unit :=
  fun c => (Ok tt, log (HostGetComponentRuntime id' wait) c).

Definition changeConnectionState (value : ComponentRuntime.ConnectionState) (clientId : string)
    : M unit :=
  fun c =>
    match verifyNotClosed c with
    | (Throw e, c1) => (Throw e, c1)
    | (Ok _, c1) =>
        match onRuntime (fun submit =>
                ComponentRuntime.changeConnectionState submit value clientId) c1 with
        | (Throw e, c2) => (Throw e, c2)
        | (Ok _, c2) => (Ok tt, log (RaiseConnectedEvent value clientId) c2)
        end
    end.


Definition prepare (message : ISequencedDocumentMessage ComponentRuntime.content) (local : bool)
    : M ComponentRuntime.context :=
  fun c =>
    match verifyNotClosed c with
    | (Throw e, c1) => (Throw e, c1)
    | (Ok _, c1) =>
        onRuntime (fun _ =>
          ComponentRuntime.prepare registry hostConnectionState hostId connectionPrepare
            message local) c1
    end.

Definition process (message : ISequencedDocumentMessage ComponentRuntime.content) (local : bool)
    (context : ComponentRuntime.context) : M unit :=
  fun c =>
    match verifyNotClosed c with
    | (Throw e, c1) => (Throw e, c1)
    | (Ok _, c1) =>
        (* component has been modified and will need to regenerate its snapshot *)
        onRuntime (fun _ => ComponentRuntime.process connectionProcess message local context)
          (set_baseId None c1)
    end.

Definition processSignal (ty : string) (local : bool) : M unit :=
  fun c =>
    match verifyNotClosed c with
    | (Throw e, c1) => (Throw e, c1)
    | (Ok _, c1) => onRuntime (fun _ => ComponentRuntime.processSignal ty local) c1
    end.

Definition getQuorum : M unit :=
  fun c =>
    match verifyNotClosed c with
    | (Throw e, c1) => (Throw e, c1)
    | (Ok _, c1) => (Ok tt, log HostGetQuorum c1)
    end.

Definition getBlobMetadata : M unit :=
  fun c => (Ok tt, log BlobManagerGetBlobMetadata c).

(** [snapshot]: the runtime's entries, then the [".component"] blob; the id
    is [baseId] when that is set (and not the empty string). *)
Definition snapshot : M ComponentRuntime.ITree :=
  fun c =>
    match onRuntime (fun _ => ComponentRuntime.snapshotInternal) c with
    | (Throw e, c1) => (Throw e, c1)
    | (Ok entries, c1) =>
        (Ok {| ComponentRuntime.entries :=
                 (entries ++ [ComponentRuntime.Blob ".component" (stringifyComponent pkg)])%list;
               ComponentRuntime.tree_id :=
                 match baseId c1 with
                 | Some b => if bool_decide (b = EmptyString) then None else Some b
                 | None => None
                 end |}, c1)
    end.

Definition stop : M ComponentRuntime.ITree :=
  fun c =>
    match verifyNotClosed c with
    | (Throw e, c1) => (Throw e, c1)
    | (Ok _, c1) => snapshot (set_closed true c1)
    end.

Definition close : M unit :=
  fun c => (Ok tt, log HostCloseFn c).

Definition request (url : string) : M ComponentRuntime.IResponse :=
  onRuntime (fun _ => ComponentRuntime.request hostRequest url).

Definition submitSignal (ty : string) (content : jsval) : M unit :=
  fun c =>
    match verifyNotClosed c with
    | (Throw e, c1) => (Throw e, c1)
    | (Ok _, c1) =>
        (Ok tt,
         log (HostSubmitSignalFn {| env_address := id; env_content := content; env_type := ty |})
           c1)
    end.

Definition error (err : string) : M unit :=
  fun c => (Ok tt, log (HostError err) c).

Definition updateLeader (clientId : string) : M unit :=
  fun c => (Ok tt, log (EmitLeader clientId) c).

End Methods.

End ComponentContext.

(* --------------------------------------------------------------------- *)
(** ** JavaScript strings and arrays, as far as the components use them *)
(* --------------------------------------------------------------------- *)

Module Js.

(** [Array.prototype.indexOf] on an array of strings: the first index at
    which [x] is found, or -1. *)
Fixpoint indexOf (x : string) (l : list string) : Z :=
  match l with
  | [] => -1
  | y :: l' =>
      if bool_decide (y = x) then 0
      else let i := indexOf x l' in if bool_decide (i = -1) then -1 else i + 1
  end.

(** [String.prototype.indexOf(search, position)] for a non-empty [search]:
    the first index at or after [position] where [search] occurs, or -1. *)
Definition stringIndexOf (search : string) (position : nat) (s : string) : Z :=
  match String.index position search s with
  | Some i => Z.of_nat i
  | None => -1
  end.

(** [String.prototype.substr(start, length)]; [length] may be left out. *)
Definition substr (s : string) (start : Z) (len : option Z) : string :=
  let size := Z.of_nat (String.length s) in
  let intStart := if (start <? 0)%Z then Z.max (size + start) 0 else Z.min start size in
  let intLength :=
    match len with
    | None => size
    | Some l => Z.min (Z.max l 0) size
    end in
  let intEnd := Z.min (intStart + intLength) size in
  String.substring (Z.to_nat intStart) (Z.to_nat (intEnd - intStart)) s.

End Js.

(* --------------------------------------------------------------------- *)
(** ** packages/components/progress-bars/src/progressBars.ts *)
(* --------------------------------------------------------------------- *)

Module ProgressBars.

(** [supportedInterfaces.indexOf(id) !== -1 ? this : undefined], the body of
    every [query]; [list] returns [supportedInterfaces]. *)
Definition query {A : Type} (supportedInterfaces : list string) (this : A) (id : string)
    : option A :=
  if negb (bool_decide (Js.indexOf id supportedInterfaces = -1)) then Some this else None.

(** [list] (the name is taken by the type of lists). *)
Definition list_ (supportedInterfaces : list string) : list string := supportedInterfaces.

(** [ProgressBar.supportedInterfaces] and [ProgressCollection.supportedInterfaces]. *)
Definition barInterfaces : list string :=
  ["IComponentLoadable"; "IComponentHTMLViewable"; "IComponentRouter"].
Definition collectionInterfaces : list string := ["IComponentLoadable"; "IComponentRouter"].

(** The model side of a progress bar; a view is known by its number. *)
Record ProgressBar : Type := mkBar {
  value : jsval;
  url : string;
  keyId : string;
  views : list nat
}.

Inductive effect : Type :=
| Render (view : nat) (value : jsval)
| RootSet (key : string) (value : jsval)
| EmitProgressAdded (path : string).

(** [ProgressBar.update]: the new value, then every view rendered. *)
Definition update (v : jsval) (bar : ProgressBar) : ProgressBar * list effect :=
  (mkBar v (url bar) (keyId bar) (views bar), (fun view => Render view v) <$> views bar).

(** [ProgressBar.addView] and [detach]. *)
Definition addView (view : nat) (bar : ProgressBar) : ProgressBar :=
  mkBar (value bar) (url bar) (keyId bar)
    (if bool_decide (view ∈ views bar) then views bar else (views bar ++ [view])%list).
Definition detach (view : nat) (bar : ProgressBar) : ProgressBar :=
  mkBar (value bar) (url bar) (keyId bar) (filter (fun v => v <> view) (views bar)).

Module Collection.

Record t : Type := mkCollection {
  c_url : string;
  progressBars : JsMap.t ProgressBar;
  trace : list effect
}.

(** A response: the component that answers, or a promise that is never
    resolved (the key never arrives in the root map). *)
Inductive target : Type :=
| TargetCollection
| TargetBar (bar : ProgressBar).

Inductive response : Type :=
| Response (status : Z) (mimeType : string) (value : target)
| Pending.

(** The path segment [request] routes on. *)
Definition trimmed (url : string) : string :=
  Js.substr (Js.substr url 1 None) 0
    (Some (if bool_decide (Js.stringIndexOf "/" 1 url = -1)
           then Z.of_nat (String.length url)
           else Js.stringIndexOf "/" 0 url)).

(** [ProgressBar.request]. *)
Definition barRequest (bar : ProgressBar) (url : string) : response :=
  Response 200 "prague/component" (TargetBar bar).

(** [request]; [rootHas] tells whether [this.root.wait(key)] resolves. *)
Definition request (rootHas : string -> bool) (url : string) (c : t) : result response :=
  let trimmed := trimmed url in
  if bool_decide (trimmed = EmptyString) then
    Ok (Response 200 "prague/component" TargetCollection)
  else if rootHas trimmed then
    match JsMap.get trimmed (progressBars c) with
    | Some bar =>
        Ok (barRequest bar (Js.substr trimmed (1 + Z.of_nat (String.length trimmed)) None))
    | None => Throw "TypeError"
    end
  else Ok Pending.

(** [changeValue]: [this.root.set(key, newValue)]. *)
Definition changeValue (key : string) (newValue : jsval) (c : t) : t :=
  mkCollection (c_url c) (progressBars c) (trace c ++ [RootSet key newValue]).

(** The listener [initialize] puts on the root map's "valueChanged";
    [rootGet] is [this.root.get]. *)
Definition onValueChanged (rootGet : string -> jsval) (key : string) (c : t) : t :=
  match JsMap.get key (progressBars c) with
  | Some bar =>
      let '(bar', renders) := update (rootGet key) bar in
      mkCollection (c_url c) (JsMap.set key bar' (progressBars c)) (trace c ++ renders)
  | None =>
      mkCollection (c_url c)
        (JsMap.set key (mkBar (rootGet key) (c_url c ++ "/" ++ key) key []) (progressBars c))
        (trace c ++ [EmitProgressAdded ("/" ++ key)])
  end.

(** The loop of [initialize] over [this.root.keys()]. *)
Definition initialize (rootGet : string -> jsval) (rootKeys : list string) (c : t) : t :=
  foldl (fun c' key =>
           mkCollection (c_url c')
             (JsMap.set key (mkBar (rootGet key) (c_url c' ++ "/" ++ key) key [])
                (progressBars c'))
             (trace c'))
    c rootKeys.

(** Every bar sits under its own key and carries the url built from it. *)
Definition wellKeyed (c : t) : Prop :=
  forall key bar,
    JsMap.get key (progressBars c) = Some bar ->
    keyId bar = key /\ url bar = c_url c ++ "/" ++ key.

(** [getProgress]. *)
Definition getProgress (rootKeys : list string) : list string :=
  (fun key => "/" ++ key) <$> rootKeys.

End Collection.

End ProgressBars.

(* --------------------------------------------------------------------- *)
(** ** packages/loader/container-loader/src/nullRuntime.ts *)
(* --------------------------------------------------------------------- *)

Module NullChaincode.

Definition supportedInterfaces : list string := ["IRuntimeFactory"].

Definition query {A : Type} (this : A) (id : string) : option A :=
  ProgressBars.query supportedInterfaces this id.

Definition list_ : list string := supportedInterfaces.

End NullChaincode.

(* --------------------------------------------------------------------- *)
(** ** packages/server/test-utils/src/testDocument.ts *)
(* --------------------------------------------------------------------- *)

Module TestDeltaQueue.

(** The fields of the class.  [paused] has no initialiser and starts
    [undefined]; the deferreds made so far are kept with their state
    (resolved or not), and [resumeDeferred] names one of them. *)
Record t : Type := mkQueue {
  paused : option bool;
  resumeDeferred : option nat;
  deferreds : list bool
}.

Definition create : t := {| paused := None; resumeDeferred := None; deferreds := [] |}.

(** [!this.paused]. *)
Definition isPaused (q : t) : bool := default false (paused q).

Definition pause (q : t) : t :=
  if negb (isPaused q) then
    {| paused := Some true;
       resumeDeferred := Some (length (deferreds q));
       deferreds := (deferreds q ++ [false])%list |}
  else q.

(** [resume]: [paused] is written before [resumeDeferred.resolve()], which
    is a [TypeError] when no deferred was ever made. *)
Definition resume (q : t) : result unit * t :=
  match resumeDeferred q with
  | Some d =>
      (Ok tt,
       {| paused := Some false; resumeDeferred := Some d;
          deferreds := <[d := true]> (deferreds q) |})
  | None =>
      (Throw "TypeError",
       {| paused := Some false; resumeDeferred := None; deferreds := deferreds q |})
  end.

Definition systemPause (q : t) : t := pause q.
Definition systemResume (q : t) : result unit * t := resume q.

(** [waitForResume]: the promise of the current deferred. *)
Definition waitForResume (q : t) : result nat :=
  if isPaused q then
    match resumeDeferred q with
    | Some d => Ok d
    | None => Throw "TypeError"
    end
  else Throw "AssertionError".

Definition take (count : Z) (q : t) : result unit := Throw "Method not implemented.".
Definition peek (q : t) : result unit := Throw "Method not implemented.".

Inductive call : Type := Pause | Resume.

Definition exec (c : call) (q : t) : t :=
  match c with
  | Pause => pause q
  | Resume => (resume q).2
  end.

Definition run (cs : list call) (q : t) : t := foldl (fun q' c => exec c q') q cs.

(** While paused the newest deferred is the current one and the only one
    unresolved; otherwise all are resolved. *)
Definition settled (q : t) : Prop :=
  if isPaused q then
    exists rest,
      deferreds q = (rest ++ [false])%list
      /\ resumeDeferred q = Some (length rest)
      /\ Forall (fun resolved => resolved = true) rest
  else
    Forall (fun resolved => resolved = true) (deferreds q)
    /\ match resumeDeferred q with
       | Some d => (d < length (deferreds q))%nat
       | None => deferreds q = []
       end.

End TestDeltaQueue.

(* --------------------------------------------------------------------- *)
(** ** Scenarios *)
(* --------------------------------------------------------------------- *)

(** Concrete runtimes, contexts and messages on which the statements about
    channels, attachment and the component context are evaluated. *)
Module Scenario.

Import ComponentRuntime.

(** A runtime loaded for an existing component (attached), and one made for
    a new component (local). *)
Definition attached : t := create true.
Definition fresh : t := create false.

Definition root : IChannel := Sample.textChannel "root".
Definition notes : IChannel := Sample.textChannel "notes".

(** The attached runtime after [createChannel("root", "text")]. *)
Definition withRoot : t := (createChannel Sample.registry "root" "text" attached).2.

(** A second channel type, and a registry that knows both. *)
Definition inkChannel (id : string) : IChannel :=
  {| ch_id := id; ch_type := "ink"; ch_snapshotFormatVersion := "0.1";
     ch_isRegistered := false; ch_snapshot := mkTree [] None |}.

Definition inkExtension : ISharedObjectExtension :=
  {| ext_snapshotFormatVersion := "0.1";
     ext_create := inkChannel;
     ext_load := fun id _ _ _ => Ok (inkChannel id) |}.

Definition registry (ty : string) : option ISharedObjectExtension :=
  if bool_decide (ty = "ink") then Some inkExtension else Sample.registry ty.

(** The attached runtime after [createChannel("root", "ink")]: "root" has
    been handed out as an ink channel. *)
Definition withInk : t := (createChannel registry "root" "ink" attached).2.

(** A new component where "root" and "notes" were created and registered. *)
Definition queued : t :=
  Sample.run [CallCreateChannel "root" "text"; CallRegisterChannel root;
              CallCreateChannel "notes" "text"; CallRegisterChannel notes] fresh.

(** The attached runtime after "root" was registered: its attach message is
    pending. *)
Definition registered : t := Sample.run [CallRegisterChannel root] withRoot.

Definition attachRoot : ISequencedDocumentMessage content :=
  Sample.runtimeMessage Attach (AttachContent (RuntimeView.attachMessage root)).

Definition attachNotes : IAttachMessage :=
  {| am_id := "notes"; am_snapshot := mkTree [Blob "header" "abc"] None; am_type := "text" |}.

Definition opOnRoot : ISequencedDocumentMessage content :=
  Sample.runtimeMessage Operation (Envelope "root" (Num 1)).

Definition notesState : IChannelState :=
  {| object := notes;
     storage := Some (LocalChannelStorageService (mkTree [Blob "header" "abc"] None));
     connection := Some {| conn_objectId := "notes"; conn_state := Connected |};
     baseId := None |}.

(** Calls that are not [stop]. *)
Definition harmless : list call :=
  [CallClose; CallSnapshotInternal; CallProcess opOnRoot false CtxUndefined].

Definition hostSubmitFn (ty : MessageType)
    (envelope : ComponentContext.IEnvelope MessageType content) : result Z := Ok 1.

(** A started context around the runtime whose attach message is pending,
    loaded from a snapshot with id "base". *)
Definition context : ComponentContext.t :=
  (ComponentContext.start registered (ComponentContext.create (Some (Some "base")))).2.

(** [runtime.getChannel] as a cell sees it when the runtime is open and
    knows the channel "root" only: every other id stays pending. *)
Definition cellGetChannel (id : jsval) : Cell.awaited jsval :=
  if bool_decide (id = Str "root") then Ok (Some (SharedObject "root")) else Ok None.

(** The message a replica receives when another sets its cell to the shared
    object "root". *)
Definition setShared : ISequencedDocumentMessage Cell.ICellOperation :=
  Sample.cellMessage Operation 1
    (Cell.mkCellOp "setCell" (Some (Cell.mkCellValue Cell.Shared (Str "root")))).

Definition rootValues (key : string) : jsval :=
  if bool_decide (key = "progress-1") then Num 75 else Undefined.

(** A collection at url "bars" that has seen the key "progress-1". *)
Definition bars : ProgressBars.Collection.t :=
  ProgressBars.Collection.onValueChanged (fun _ => Num 50) "progress-1"
    (ProgressBars.Collection.mkCollection "bars" [] []).

End Scenario.

(* ===================================================================== *)
(** * Part II. Theorems *)
(* ===================================================================== *)

(** ** Cell and Counter *)

Section CellFacts.

Import Cell.

Implicit Types (c : Cell.t) (m : ISequencedDocumentMessage ICellOperation).

Lemma processCore_pending c m local ctx :
  pendingClientSequenceNumber c ≠ -1 ->
  processCore m local ctx c =
    if local && bool_decide (clientSequenceNumber m = pendingClientSequenceNumber c)
    then Ok (acked c) else Ok c.
Proof.
  intros Hp. unfold processCore.
  rewrite bool_decide_eq_false_2 by exact Hp. reflexivity.
Qed.

Lemma processCore_local c m ctx :
  processCore m true ctx c =
    if negb (bool_decide (pendingClientSequenceNumber c = -1))
       && bool_decide (clientSequenceNumber m = pendingClientSequenceNumber c)
    then Ok (acked c) else Ok c.
Proof.
  unfold processCore.
  destruct (bool_decide (pendingClientSequenceNumber c = -1)); simpl.
  - rewrite andb_false_r. reflexivity.
  - reflexivity.
Qed.

Lemma processCore_idle_remote c m ctx :
  pendingClientSequenceNumber c = -1 ->
  type m = Operation ->
  processCore m false ctx c =
    if bool_decide (op_type (contents m) = "setCell") then Ok (setCore ctx c)
    else if bool_decide (op_type (contents m) = "deleteCell") then Ok (deleteCore c)
    else Throw "Unknown operation".
Proof.
  intros Hp Ht. unfold processCore.
  rewrite (bool_decide_eq_true_2 _ Hp), (bool_decide_eq_true_2 _ Ht). reflexivity.
Qed.

Lemma processCore_not_operation c m local ctx :
  pendingClientSequenceNumber c = -1 ->
  type m ≠ Operation ->
  processCore m local ctx c = Ok c.
Proof.
  intros Hp Ht. unfold processCore.
  rewrite (bool_decide_eq_true_2 _ Hp), (bool_decide_eq_false_2 _ Ht). reflexivity.
Qed.

End CellFacts.

Section CellClaims.

Import Cell.

Implicit Types (c : Cell.t) (m : ISequencedDocumentMessage ICellOperation).

(** C10.  While a local operation is pending ([pendingClientSequenceNumber]
    is not -1), [processCore] accepts every message without error and leaves
    the data and the emitted events as they were, remote [setCell] and
    [deleteCell] included; the cell changes only on the local echo whose
    [clientSequenceNumber] is the pending one, and then only the pending
    marker is reset to -1.  A second submission overwrites the pending
    number, so the echo of the first leaves the cell pending and the echo of
    the second clears it. *)
Theorem cell_pending_ignores_messages c m local ctx :
  pendingClientSequenceNumber c ≠ -1 ->
  (exists c',
      processCore m local ctx c = Ok c'
      /\ data c' = data c
      /\ trace c' = trace c
      /\ (local = true /\ clientSequenceNumber m = pendingClientSequenceNumber c ->
          c' = acked c /\ pendingClientSequenceNumber c' = -1)
      /\ (~ (local = true /\ clientSequenceNumber m = pendingClientSequenceNumber c) ->
          c' = c))
  /\ (forall op1 op2 csn1 csn2,
        csn2 ≠ -1 -> csn1 ≠ csn2 ->
        let c2 := submitCellMessage op2 csn2 (submitCellMessage op1 csn1 c) in
        pendingClientSequenceNumber c2 = csn2
        /\ (clientSequenceNumber m = csn1 -> processCore m true ctx c2 = Ok c2)
        /\ (clientSequenceNumber m = csn2 -> processCore m true ctx c2 = Ok (acked c2))).
Proof.
  intros Hp. split.
  - rewrite (processCore_pending _ _ _ _ Hp).
    destruct local; simpl.
    + case_bool_decide as Hc.
      * exists (acked c). do 3 (split; [reflexivity|]). split; [|tauto].
        intros _. split; reflexivity.
      * exists c. do 3 (split; [reflexivity|]). split; [|reflexivity].
        intros [_ Heq]. contradiction.
    + exists c. do 3 (split; [reflexivity|]). split; [|reflexivity].
      intros [Hl _]. discriminate.
  - intros op1 op2 csn1 csn2 H2 Hne c2.
    assert (Hp2 : pendingClientSequenceNumber c2 ≠ -1) by exact H2.
    split; [reflexivity|]. split; intros Hm.
    + rewrite (processCore_pending _ _ _ _ Hp2). simpl.
      rewrite bool_decide_eq_false_2; [reflexivity|]. rewrite Hm. exact Hne.
    + rewrite (processCore_pending _ _ _ _ Hp2). simpl.
      rewrite bool_decide_eq_true_2; [reflexivity|]. exact Hm.
Qed.

(** C5.  The echo of a local operation only clears the pending marker.
    When [processCore] receives the local message whose
    [clientSequenceNumber] is the pending one, the cell it leaves has the
    marker back at -1 and the data and the emitted events as they were; any
    other local message leaves the cell as it is, all of it.  So after a
    [set] or [delete] the echo of its message (numbered [csn], not -1) finds
    the value already in place and leaves it there, emitting nothing more.
    The value was written when the operation was made: [set] and [delete]
    run [setCore]/[deleteCore] first and hand the message to
    [submitLocalMessage] after it.  Likewise the counter's [process] leaves
    the counter alone for a local message, [increment] having added the
    amount before it emitted the operation. *)
Theorem local_echo_only_clears_pending :
  (forall c m ctx,
      pendingClientSequenceNumber c ≠ -1 ->
      clientSequenceNumber m = pendingClientSequenceNumber c ->
      exists c',
        processCore m true ctx c = Ok c'
        /\ pendingClientSequenceNumber c' = -1
        /\ data c' = data c
        /\ trace c' = trace c)
  /\ (forall c m ctx,
        pendingClientSequenceNumber c = -1
        \/ clientSequenceNumber m ≠ pendingClientSequenceNumber c ->
        processCore m true ctx c = Ok c)
  /\ (forall value isLocal csn c m ctx,
        csn ≠ -1 -> clientSequenceNumber m = csn ->
        exists c',
          processCore m true ctx (set value isLocal csn c) = Ok c'
          /\ pendingClientSequenceNumber c' = -1
          /\ data c' = value
          /\ trace c' = trace (set value isLocal csn c))
  /\ (forall csn c m ctx,
        csn ≠ -1 -> clientSequenceNumber m = csn ->
        exists c',
          processCore m true ctx (delete csn c) = Ok c'
          /\ pendingClientSequenceNumber c' = -1
          /\ data c' = Undefined
          /\ trace c' = trace (delete csn c))
  /\ (forall value isLocal csn c,
        data (set value isLocal csn c) = value
        /\ pendingClientSequenceNumber (set value isLocal csn c) = csn
        /\ exists before op,
            trace (set value isLocal csn c)
            = (trace c ++ before ++ [EmitValueChanged value; SubmitLocalMessage op])%list
            /\ op_type op = "setCell")
  /\ (forall csn c,
        data (delete csn c) = Undefined
        /\ pendingClientSequenceNumber (delete csn c) = csn
        /\ trace (delete csn c)
           = (trace c ++ [EmitDelete; SubmitLocalMessage (mkCellOp "deleteCell" None)])%list)
  /\ (forall (value : Counter.t) params, Counter.process value params true = value)
  /\ (forall (value : Counter.t) n,
        Counter._value (Counter.increment n true value) = (Counter._value value + n)%float
        /\ Counter.trace (Counter.increment n true value)
           = (Counter.trace value
              ++ [Counter.EmitterEmit "increment" (Counter._value value) n;
                  Counter.EmitIncremented n (Counter._value value + n)%float])%list).
Proof.
  assert (Hecho : forall c m ctx,
             pendingClientSequenceNumber c ≠ -1 ->
             clientSequenceNumber m = pendingClientSequenceNumber c ->
             processCore m true ctx c = Ok (acked c)).
  { intros c m ctx Hp Hc. rewrite processCore_local, (bool_decide_eq_false_2 _ Hp),
      (bool_decide_eq_true_2 _ Hc). reflexivity. }
  assert (Hset : forall value isLocal csn c,
             data (set value isLocal csn c) = value
             /\ pendingClientSequenceNumber (set value isLocal csn c) = csn).
  { intros value isLocal csn c. unfold set. destruct value; simpl; auto. }
  split; [|split; [|split; [|split; [|split; [|split; [|split]]]]]].
  - intros c m ctx Hp Hc. exists (acked c). rewrite (Hecho c m ctx Hp Hc). auto.
  - intros c m ctx Hno. rewrite processCore_local.
    destruct Hno as [Hp|Hc].
    + rewrite (bool_decide_eq_true_2 _ Hp). reflexivity.
    + rewrite (bool_decide_eq_false_2 _ Hc), andb_false_r. reflexivity.
  - intros value isLocal csn c m ctx Hcsn Hm.
    destruct (Hset value isLocal csn c) as [Hd Hp].
    exists (acked (set value isLocal csn c)).
    rewrite Hecho by (rewrite Hp; assumption). simpl. auto.
  - intros csn c m ctx Hcsn Hm. exists (acked (delete csn c)).
    rewrite Hecho by (simpl; assumption). auto.
  - intros value isLocal csn c. unfold set.
    destruct value; simpl; repeat split; try reflexivity.
    1-3: eexists [], _; rewrite <- !app_assoc; simpl; split; reflexivity.
    destruct isLocal; simpl.
    + eexists [], _. rewrite <- !app_assoc. simpl. split; reflexivity.
    + eexists [AttachValue id], _. rewrite <- !app_assoc. simpl. split; reflexivity.
  - intros csn c. unfold delete. simpl. rewrite <- app_assoc. auto.
  - reflexivity.
  - intros value n. unfold Counter.increment. simpl. split; reflexivity.
Qed.

End CellClaims.

(** ** Component runtime *)

Section RuntimeFacts.

Import ComponentRuntime.
Local Open Scope rt_scope.

Variable registry : string -> option ISharedObjectExtension.
Variable connectionState : ConnectionState.
Variable documentId : string.
Variable hostRequest : string -> IResponse.
Variable contextSubmitMessage : MessageType -> content -> result Z.
Variable connectionPrepare :
  string -> ISequencedDocumentMessage jsval -> bool -> result context.
Variable connectionProcess :
  string -> ISequencedDocumentMessage jsval -> bool -> context -> result unit.

Lemma keeps_ret {A} (a : A) : keeps_closed (ret a).
Proof. intros s H. exact H. Qed.

Lemma keeps_throw {A} e : keeps_closed (@throw A e).
Proof. intros s H. exact H. Qed.

Lemma keeps_gets {A} (f : t -> A) : keeps_closed (gets f).
Proof. intros s H. exact H. Qed.

Lemma keeps_lift {A} (r : result A) : keeps_closed (lift r).
Proof. destruct r; [apply keeps_ret | apply keeps_throw]. Qed.

Lemma keeps_assert b : keeps_closed (assert b).
Proof. destruct b; [apply keeps_ret | apply keeps_throw]. Qed.

Lemma keeps_modify (f : t -> t) :
  (forall s, closed (f s) = closed s) -> keeps_closed (modify f).
Proof. intros Hf s H. simpl. rewrite Hf. exact H. Qed.

Lemma keeps_set_closed : keeps_closed (modify (set_closed true)).
Proof. intros s _. reflexivity. Qed.

Lemma keeps_log e : keeps_closed (log e).
Proof. apply keeps_modify. reflexivity. Qed.

Lemma keeps_bind {A B} (m : M A) (k : A -> M B) :
  keeps_closed m -> (forall a, keeps_closed (k a)) -> keeps_closed (bindM m k).
Proof.
  intros Hm Hk s H. unfold bindM.
  specialize (Hm s H). destruct (m s) as [[a|e] s']; simpl in *.
  - apply Hk, Hm.
  - exact Hm.
Qed.

Lemma keeps_forEach {A} (f : A -> M unit) l :
  (forall a, keeps_closed (f a)) -> keeps_closed (forEach f l).
Proof.
  intros Hf. induction l as [|a l IH]; simpl.
  - apply keeps_ret.
  - apply keeps_bind; [apply Hf | intros _; exact IH].
Qed.

Lemma keeps_verifyNotClosed : keeps_closed verifyNotClosed.
Proof.
  apply keeps_bind; [apply keeps_gets|].
  intros []; [apply keeps_throw | apply keeps_ret].
Qed.

End RuntimeFacts.

Ltac keeps_step :=
  first
    [ apply keeps_ret | apply keeps_throw | apply keeps_gets | apply keeps_lift
    | apply keeps_assert | apply keeps_log | apply keeps_verifyNotClosed
    | apply keeps_set_closed
    | apply keeps_modify; intros; reflexivity
    | apply keeps_forEach; intros
    | apply keeps_bind; [|intros]
    | match goal with
      | |- ComponentRuntime.keeps_closed (match ?x with _ => _ end) => destruct x
      end ].

Ltac keeps := repeat keeps_step.

Create HintDb rt discriminated.
#[local] Hint Unfold ComponentRuntime.exec ComponentRuntime.void
  ComponentRuntime.createAndAttachComponent ComponentRuntime.request
  ComponentRuntime.registerRequestHandler ComponentRuntime.getChannel
  ComponentRuntime.createChannel ComponentRuntime.registerChannel
  ComponentRuntime.attach ComponentRuntime.changeConnectionState
  ComponentRuntime.getQuorum ComponentRuntime.snapshot ComponentRuntime.save
  ComponentRuntime.uploadBlob ComponentRuntime.getBlob
  ComponentRuntime.getBlobMetadata ComponentRuntime.stop ComponentRuntime.close
  ComponentRuntime.prepare ComponentRuntime.process ComponentRuntime.processSignal
  ComponentRuntime.snapshotInternal ComponentRuntime.submitMessage
  ComponentRuntime.submitSignal ComponentRuntime.notifyPendingMessages
  ComponentRuntime.waitAttached ComponentRuntime.error ComponentRuntime.submit
  ComponentRuntime.reserve ComponentRuntime.resolveDeferred
  ComponentRuntime.attachChannel ComponentRuntime.getAndAttachChannelServices
  ComponentRuntime.prepareOp ComponentRuntime.processOp
  ComponentRuntime.prepareAttach ComponentRuntime.processAttach
  ComponentRuntime.loadChannel : rt.

Section RuntimeClaims.

Import ComponentRuntime.
Local Open Scope rt_scope.

Variable registry : string -> option ISharedObjectExtension.
Variable connectionState : ConnectionState.
Variable documentId : string.
Variable hostRequest : string -> IResponse.
Variable contextSubmitMessage : MessageType -> content -> result Z.
Variable connectionPrepare :
  string -> ISequencedDocumentMessage jsval -> bool -> result context.
Variable connectionProcess :
  string -> ISequencedDocumentMessage jsval -> bool -> context -> result unit.

Local Abbreviation exec :=
  (ComponentRuntime.exec registry connectionState documentId hostRequest
     contextSubmitMessage connectionPrepare connectionProcess).
Local Abbreviation run :=
  (ComponentRuntime.run registry connectionState documentId hostRequest
     contextSubmitMessage connectionPrepare connectionProcess).

Lemma exec_keeps_closed c : keeps_closed (exec c).
Proof.
  destruct c; autounfold with rt; keeps.
Qed.

Lemma run_keeps_closed cs s : closed s = true -> closed (run cs s) = true.
Proof.
  revert s. induction cs as [|c cs IH]; intros s H; simpl.
  - exact H.
  - apply IH, exec_keeps_closed, H.
Qed.

Lemma verifyNotClosed_closed s :
  closed s = true -> verifyNotClosed s = (Throw "Runtime is closed", s).
Proof. intros H. unfold verifyNotClosed, bindM, gets. rewrite H. reflexivity. Qed.

Lemma bindM_throw {A B} (m : M A) (k : A -> M B) s e s' :
  m s = (Throw e, s') -> bindM m k s = (Throw e, s').
Proof. intros H. unfold bindM. rewrite H. reflexivity. Qed.

Lemma exec_guarded_closed c s :
  closed s = true -> guarded c = true -> exec c s = (Throw "Runtime is closed", s).
Proof.
  intros H Hg.
  destruct c; simpl in Hg; try discriminate;
    try match goal with
        | m : ISequencedDocumentMessage content |- _ =>
            destruct (type m) eqn:Hty; simpl in Hg; try discriminate
        end;
    autounfold with rt; try rewrite Hty;
    repeat first [ apply verifyNotClosed_closed; exact H | apply bindM_throw ].
Qed.

(** C6 (amended).  A closed runtime stays closed whatever is called on it
    afterwards, and every call that passes through [verifyNotClosed] --
    [getChannel], [createChannel], [changeConnectionState], [getQuorum],
    [snapshot], [save], [uploadBlob], [getBlob], [stop], [submitMessage],
    [submitSignal], and [prepare]/[process] of an Attach or Operation
    message -- is rejected with "Runtime is closed" and leaves every field
    as it was.  [stop] is what closes an open runtime. *)
Theorem closed_runtime_rejects_guarded_calls s cs c :
  closed s = true ->
  closed (run cs s) = true
  /\ (guarded c = true ->
      exec c (run cs s) = (Throw "Runtime is closed", run cs s))
  /\ (forall s0, closed s0 = false ->
        (exec CallStop s0).1 = Ok tt /\ closed (exec CallStop s0).2 = true).
Proof.
  intros H. split; [|split].
  - apply run_keeps_closed, H.
  - intros Hg. apply exec_guarded_closed; [|exact Hg]. apply run_keeps_closed, H.
  - intros s0 H0.
    cbv beta iota delta
      [ComponentRuntime.exec void stop snapshotInternal bindM verifyNotClosed gets modify ret].
    rewrite H0. simpl. auto.
Qed.

(** C7 (amended).  For a message whose operation type is neither "setCell"
    nor "deleteCell", [Cell.processCore] throws "Unknown operation" when no
    local operation is pending and the message is a remote Operation; when
    a local operation is pending, or the message is local, or it is not an
    Operation, the message is passed over without error, data and events
    unchanged.  [ComponentRuntime.process] passes over a message whose type
    is neither Attach nor Operation: it returns normally, having only
    emitted "op" with a null target. *)
Theorem unknown_operation_outcome
    (c : Cell.t) (m : ISequencedDocumentMessage Cell.ICellOperation) (local : bool)
    (ctx : jsval) (rm : ISequencedDocumentMessage content) (rlocal : bool)
    (rctx : context) (s : t) :
  Cell.op_type (contents m) <> "setCell" ->
  Cell.op_type (contents m) <> "deleteCell" ->
  type rm <> Attach ->
  type rm <> Operation ->
  (Cell.pendingClientSequenceNumber c = -1 -> type m = Operation -> local = false ->
   Cell.processCore m local ctx c = Throw "Unknown operation")
  /\ (Cell.pendingClientSequenceNumber c <> -1 \/ type m <> Operation \/ local = true ->
      exists c', Cell.processCore m local ctx c = Ok c'
                 /\ Cell.data c' = Cell.data c /\ Cell.trace c' = Cell.trace c)
  /\ process connectionProcess rm rlocal rctx s = log (EmitOp rm None) s.
Proof.
  intros Hset Hdel Hatt Hop. split; [|split].
  - intros Hp Hty ->. rewrite (processCore_idle_remote _ _ _ Hp Hty).
    rewrite !bool_decide_eq_false_2 by assumption. reflexivity.
  - intros Hcase.
    destruct (decide (Cell.pendingClientSequenceNumber c = -1)) as [Hp|Hp].
    + destruct (decide (type m = Operation)) as [Hty|Hty].
      * destruct Hcase as [Hc|[Hc|Hc]]; try contradiction. subst local.
        rewrite processCore_local, (bool_decide_eq_true_2 _ Hp). simpl. eauto.
      * rewrite (processCore_not_operation _ _ _ _ Hp Hty). eauto.
    + rewrite (processCore_pending _ _ _ _ Hp).
      destruct (_ && _); eauto.
  - unfold process. destruct (type rm); try contradiction; reflexivity.
Qed.

(** C8.  [loadChannel] compares the declared snapshot format version with
    the extension's.  For a registered type the outcome is that of the
    extension's [load], whatever the declared version: a version that
    differs only adds one "Snapshot version mismatch" debug line before the
    load, and a matching or undefined version adds none. *)
Theorem loadChannel_version_mismatch_only_warns
    (id ty : string) (declared : option string) (minSequenceNumber : Z)
    (services : IObjectServices) (originBranch : string) (extension : ISharedObjectExtension)
    (s : t) :
  registry ty = Some extension ->
  let warning :=
    match declared with
    | Some v =>
        if bool_decide (v = ext_snapshotFormatVersion extension) then []
        else [Debug (versionMismatch ty v (ext_snapshotFormatVersion extension))]
    | None => []
    end in
  let after := loadChannel registry id ty declared minSequenceNumber services originBranch s in
  after.1 = (loadChannel registry id ty None minSequenceNumber services originBranch s).1
  /\ after.1 =
       match ext_load extension id minSequenceNumber services originBranch with
       | Ok value =>
           Ok {| object := value; storage := Some (objectStorage services);
                 connection := Some (deltaConnection services);
                 baseId := svc_baseId services |}
       | Throw e => Throw e
       end
  /\ trace after.2 = (trace s ++ warning ++ [ExtensionLoad id ty])%list
  /\ channels after.2 = channels s /\ closed after.2 = closed s.
Proof.
  intros Hreg. unfold loadChannel. rewrite Hreg.
  destruct (ext_load extension id minSequenceNumber services originBranch) as [value|e] eqn:Hl;
    destruct declared as [v|]; simpl;
    try (destruct (bool_decide (v = ext_snapshotFormatVersion extension)); simpl);
    unfold bindM, log, modify, ret, lift; simpl; rewrite ?Hl; simpl;
    rewrite <- ?app_assoc; repeat split; reflexivity.
Qed.

End RuntimeClaims.

(** ** Outcomes of one processed message *)

Section MessageOutcomes.

Import ComponentRuntime RuntimeView.

Variable connectionProcess :
  string -> ISequencedDocumentMessage jsval -> bool -> context -> result unit.

Local Abbreviation process := (ComponentRuntime.process connectionProcess).


Local Ltac emitted :=
  unfold emittedOps; simpl; rewrite ?omap_app; simpl; rewrite ?app_nil_r;
  first [reflexivity | eexists; reflexivity].



End MessageOutcomes.


(** C7, the claim as written: an operation of unknown type that arrives
    while a local operation is pending raises nothing, and the runtime
    processes a message of a type it does not know without raising. *)
Lemma unknown_operation_passed_over :
  Cell.processCore (Sample.cellMessage Operation 3 Sample.renameCell) false Undefined
    Sample.pendingCell = Ok Sample.pendingCell
  /\ (Sample.exec
        (ComponentRuntime.CallProcess
           (Sample.runtimeMessage (OtherMessage "mystery") (ComponentRuntime.PlainContent Undefined))
           false ComponentRuntime.CtxUndefined)
        (ComponentRuntime.create true)).1 = Ok tt.
Proof. split; reflexivity. Qed.

(** C6, the claim as written: on a runtime closed by [stop], [request] is
    answered (404) instead of rejected, and [registerRequestHandler] returns
    normally and writes the [requestHandler] field. *)
Lemma closed_runtime_still_serves :
  ComponentRuntime.closed Sample.stopped = true
  /\ ComponentRuntime.request Sample.hostRequest "/root" Sample.stopped
     = (Ok (ComponentRuntime.Response 404 "text/plain" None "/root not found"), Sample.stopped)
  /\ (Sample.exec (ComponentRuntime.CallRegisterRequestHandler Sample.handler) Sample.stopped).1
     = Ok tt
  /\ ComponentRuntime.requestHandler Sample.stopped = None
  /\ ComponentRuntime.requestHandler
       (Sample.exec (ComponentRuntime.CallRegisterRequestHandler Sample.handler) Sample.stopped).2
     = Some Sample.handler.
Proof. repeat split; reflexivity. Qed.

(** *** Instances at the sample inputs *)

Lemma cell_pending_ignores_messages_witness :
  Cell.pendingClientSequenceNumber Sample.pendingCell <> -1
  /\ exists c',
      Cell.processCore (Sample.cellMessage Operation 3 Sample.setTheirs) false (Str "theirs")
        Sample.pendingCell = Ok c'
      /\ Cell.data c' = Str "mine".
Proof.
  assert (Hp : Cell.pendingClientSequenceNumber Sample.pendingCell <> -1) by discriminate.
  split; [exact Hp|].
  destruct (cell_pending_ignores_messages Sample.pendingCell
              (Sample.cellMessage Operation 3 Sample.setTheirs) false (Str "theirs") Hp)
    as [[c' (Hr & Hd & _)] _].
  exists c'. split; [exact Hr | exact Hd].
Defined.

Lemma closed_runtime_rejects_guarded_calls_witness :
  ComponentRuntime.closed Sample.stopped = true
  /\ ComponentRuntime.guarded (ComponentRuntime.CallGetChannel "root") = true
  /\ Sample.exec (ComponentRuntime.CallGetChannel "root")
       (Sample.run [ComponentRuntime.CallClose] Sample.stopped)
     = (Throw "Runtime is closed", Sample.run [ComponentRuntime.CallClose] Sample.stopped).
Proof.
  split; [reflexivity|]. split; [reflexivity|].
  apply (closed_runtime_rejects_guarded_calls Sample.registry ComponentRuntime.Connected "doc"
           Sample.hostRequest Sample.contextSubmitMessage Sample.connectionPrepare
           Sample.connectionProcess Sample.stopped [ComponentRuntime.CallClose]
           (ComponentRuntime.CallGetChannel "root")); reflexivity.
Defined.

Lemma unknown_operation_outcome_witness :
  Cell.op_type Sample.renameCell <> "setCell"
  /\ Cell.op_type Sample.renameCell <> "deleteCell"
  /\ OtherMessage "mystery" <> Attach
  /\ OtherMessage "mystery" <> Operation
  /\ Cell.processCore (Sample.cellMessage Operation 3 Sample.renameCell) false Undefined
       Sample.idleCell = Throw "Unknown operation".
Proof.
  assert (H1 : Cell.op_type Sample.renameCell <> "setCell") by discriminate.
  assert (H2 : Cell.op_type Sample.renameCell <> "deleteCell") by discriminate.
  assert (H3 : OtherMessage "mystery" <> Attach) by discriminate.
  assert (H4 : OtherMessage "mystery" <> Operation) by discriminate.
  repeat (split; [assumption|]).
  apply (unknown_operation_outcome Sample.connectionProcess Sample.idleCell
           (Sample.cellMessage Operation 3 Sample.renameCell) false Undefined
           (Sample.runtimeMessage (OtherMessage "mystery") (ComponentRuntime.PlainContent Undefined))
           false ComponentRuntime.CtxUndefined (ComponentRuntime.create true) H1 H2 H3 H4);
    reflexivity.
Defined.

Lemma loadChannel_version_mismatch_only_warns_witness :
  Sample.registry "text" = Some Sample.textExtension
  /\ ComponentRuntime.trace
       (ComponentRuntime.loadChannel Sample.registry "root" "text" (Some "0.1") 0
          Sample.services "doc" (ComponentRuntime.create true)).2
     = [ComponentRuntime.Debug
          "Snapshot version mismatch. Type: text, Snapshot format version: 0.1, client format version: 0.2";
        ComponentRuntime.ExtensionLoad "root" "text"]
  /\ is_ok (ComponentRuntime.loadChannel Sample.registry "root" "text" (Some "0.1") 0
              Sample.services "doc" (ComponentRuntime.create true)).1 = true.
Proof.
  assert (Hreg : Sample.registry "text" = Some Sample.textExtension) by reflexivity.
  split; [exact Hreg|].
  destruct (loadChannel_version_mismatch_only_warns Sample.registry "root" "text" (Some "0.1") 0
              Sample.services "doc" Sample.textExtension (ComponentRuntime.create true) Hreg)
    as (_ & Hres & Htr & _).
  split.
  - rewrite Htr. reflexivity.
  - rewrite Hres. reflexivity.
Defined.

(** ** Quorum *)

Section QuorumFacts.

Import Quorum.

Implicit Types (q : Quorum.t) (acks : gmap string Z).








End QuorumFacts.

Section QuorumClaims.

Import Quorum.


End QuorumClaims.




(** ** Snapshot *)

Section TextFacts.

Lemma list_ascii_of_string_app (a b : string) :
  list_ascii_of_string (a ++ b) = (list_ascii_of_string a ++ list_ascii_of_string b)%list.
Proof. induction a as [|c a IH]; simpl; [reflexivity | by rewrite IH]. Qed.

Lemma length_list_ascii_of_string (a : string) :
  length (list_ascii_of_string a) = String.length a.
Proof. induction a as [|c a IH]; simpl; [reflexivity | by rewrite IH]. Qed.


Lemma string_of_list_ascii_app (l k : list ascii) :
  string_of_list_ascii (l ++ k) = string_of_list_ascii l ++ string_of_list_ascii k.
Proof. induction l as [|c l IH]; simpl; [reflexivity | by rewrite IH]. Qed.


End TextFacts.

Section SnapshotFacts.

Import MergeTree Snapshot.

Implicit Types (T : MergeTree.t) (specs : list SegmentSpec).

Lemma unitChars_app us vs : unitChars (us ++ vs) = (unitChars us ++ unitChars vs)%list.
Proof. unfold unitChars. apply omap_app. Qed.

Lemma unitChars_run c props :
  unitChars (runUnits c props) = list_ascii_of_string (runText c).
Proof.
  destruct c as [text|]; simpl; [|reflexivity].
  unfold unitChars.
  induction (list_ascii_of_string text) as [|ch l IH]; simpl; [reflexivity|].
  f_equal. exact IH.
Qed.

Lemma length_unitChars_run c props : length (unitChars (runUnits c props)) = runLength c.
Proof.
  rewrite unitChars_run. destruct c; simpl; [apply length_list_ascii_of_string | reflexivity].
Qed.

(** Text and length read off the linearized content. *)
Lemma getText_linearize T : getText T = string_of_list_ascii (unitChars (linearize T)).
Proof.
  unfold getText, linearize.
  induction (filter (fun s => live s = true) (segments T)) as [|s l IH]; csimpl; [reflexivity|].
  rewrite unitChars_app, string_of_list_ascii_app, unitChars_run, <- IH.
  by rewrite string_of_list_ascii_of_string.
Qed.

Lemma getLength_linearize T : getLength T = length (unitChars (linearize T)).
Proof.
  unfold getLength, linearize.
  induction (filter (fun s => live s = true) (segments T)) as [|s l IH]; csimpl; [reflexivity|].
  rewrite unitChars_app, length_app, length_unitChars_run, <- IH. reflexivity.
Qed.


(** A tree reloaded from descriptors linearizes to the descriptors' units. *)
Lemma filter_live_specToSegment specs :
  filter (fun s => live s = true) (specToSegment <$> specs) = specToSegment <$> specs.
Proof.
  induction specs as [|sp specs IH]; csimpl; [reflexivity|].
  rewrite filter_cons_True by reflexivity. by rewrite IH.
Qed.

Lemma linearize_reloaded specs seq cur :
  linearize (mkMergeTree (specToSegment <$> specs) seq cur) = specUnits specs.
Proof.
  unfold linearize, specUnits. simpl. rewrite filter_live_specToSegment.
  induction specs as [|sp specs IH]; csimpl; [reflexivity | by rewrite IH].
Qed.

Lemma specUnits_app specs specs' :
  specUnits (specs ++ specs') = (specUnits specs ++ specUnits specs')%list.
Proof. unfold specUnits. apply bind_app. Qed.

Lemma specUnits_cons sp specs :
  specUnits (sp :: specs)
  = (runUnits (spec_content sp) (spec_properties sp) ++ specUnits specs)%list.
Proof. reflexivity. Qed.

Lemma runUnits_split n text props :
  (runUnits (TextRun (textTake n text)) props ++ runUnits (TextRun (textDrop n text)) props)%list
  = runUnits (TextRun text) props.
Proof.
  unfold textTake, textDrop. simpl.
  rewrite !list_ascii_of_string_of_list_ascii, <- fmap_app, take_drop. reflexivity.
Qed.

(** What [fill] puts in header and rest is, together, what it was given. *)
Lemma fill_units specs : forall capacity h b,
  fill capacity specs = (h, b) -> (specUnits h ++ specUnits b)%list = specUnits specs.
Proof.
  induction specs as [|sp specs IH]; intros capacity h b Hf; simpl in Hf.
  - inversion Hf; subst. reflexivity.
  - destruct sp as [[text|] props]; simpl in Hf.
    + case_bool_decide as Hfit.
      * destruct (fill (capacity - String.length text) specs) as [h' b'] eqn:Hrec.
        inversion Hf; subst. rewrite !specUnits_cons, <- app_assoc. f_equal.
        apply (IH _ _ _ Hrec).
      * destruct capacity as [|k]; inversion Hf; subst; [reflexivity|].
        rewrite !specUnits_cons. simpl spec_content. simpl spec_properties.
        change (specUnits []) with (@nil (Unit * gmap string jsval)).
        rewrite app_nil_r, app_assoc, runUnits_split. reflexivity.
    + destruct (fill capacity specs) as [h' b'] eqn:Hrec.
      inversion Hf; subst. rewrite !specUnits_cons, <- app_assoc. f_equal.
      apply (IH _ _ _ Hrec).
Qed.

(** The header holds exactly the first [capacity] characters. *)
Lemma fill_chars specs : forall capacity h b,
  fill capacity specs = (h, b) ->
  unitChars (specUnits h) = take capacity (unitChars (specUnits specs)).
Proof.
  induction specs as [|sp specs IH]; intros capacity h b Hf; simpl in Hf.
  - inversion Hf; subst. by destruct capacity.
  - destruct sp as [[text|] props]; simpl in Hf.
    + case_bool_decide as Hfit.
      * destruct (fill (capacity - String.length text) specs) as [h' b'] eqn:Hrec.
        inversion Hf; subst.
        rewrite !specUnits_cons, !unitChars_app, (IH _ _ _ Hrec), unitChars_run.
        simpl spec_content. simpl runText.
        rewrite take_app, length_list_ascii_of_string.
        rewrite (take_ge (list_ascii_of_string text))
          by (rewrite length_list_ascii_of_string; lia).
        reflexivity.
      * destruct capacity as [|k]; inversion Hf; subst; [reflexivity|].
        rewrite !specUnits_cons, !unitChars_app, !unitChars_run. simpl.
        unfold textTake. rewrite list_ascii_of_string_of_list_ascii, app_nil_r.
        rewrite take_app_le by (rewrite length_list_ascii_of_string; lia). reflexivity.
    + destruct (fill capacity specs) as [h' b'] eqn:Hrec.
      inversion Hf; subst.
      rewrite !specUnits_cons, !unitChars_app, (IH _ _ _ Hrec). reflexivity.
Qed.

(** The positions of descriptors are the characters among their units. *)
Lemma contentLength_units specs : contentLength specs = length (unitChars (specUnits specs)).
Proof.
  unfold contentLength. induction specs as [|sp specs IH]; csimpl; [reflexivity|].
  rewrite unitChars_app, length_app, length_unitChars_run, <- IH. reflexivity.
Qed.

(** [fill] leaves a rest only when the content exceeds the capacity. *)
Lemma fill_rest specs : forall capacity h b,
  fill capacity specs = (h, b) -> b <> [] -> (capacity < contentLength specs)%nat.
Proof.
  induction specs as [|sp specs IH]; intros capacity h b Hf Hb; simpl in Hf.
  - inversion Hf; subst. contradiction.
  - destruct sp as [[text|] props]; simpl in Hf; unfold contentLength; csimpl;
      fold (contentLength specs).
    + case_bool_decide as Hfit.
      * destruct (fill (capacity - String.length text) specs) as [h' b'] eqn:Hrec.
        inversion Hf; subst. pose proof (IH _ _ _ Hrec Hb). lia.
      * lia.
    + destruct (fill capacity specs) as [h' b'] eqn:Hrec.
      inversion Hf; subst. apply (IH _ _ _ Hrec Hb).
Qed.

(** On a quiescent tree the minSeq view is the current view. *)
Lemma quiescent_visible T :
  quiescent T = true ->
  filter (fun s => visibleAt (minSeq T) s = true) (segments T)
  = filter (fun s => live s = true) (segments T).
Proof.
  unfold quiescent. generalize (minSeq T) as m. intros m.
  induction (segments T) as [|s l IH]; simpl; intros Hq; [reflexivity|].
  apply andb_prop in Hq as [Hs Hl]. apply andb_prop in Hs as [Hins Hrem].
  assert (Heq : visibleAt m s = live s).
  { unfold visibleAt, live. rewrite Hins.
    destruct (removedSequenceNumber s) as [q|]; simpl in *; [by rewrite Hrem | reflexivity]. }
  rewrite !filter_cons, Heq, (IH Hl). reflexivity.
Qed.

Lemma specUnits_toSpec (l : list Segment) :
  specUnits (toSpec <$> l) = l ≫= (fun s => runUnits (content s) (properties s)).
Proof.
  unfold specUnits. induction l as [|s l IH]; csimpl; [reflexivity | by rewrite IH].
Qed.

Lemma quiescent_linearize T : quiescent T = true -> specUnits (visibleSpecs T) = linearize T.
Proof.
  intros Hq. unfold visibleSpecs. rewrite (quiescent_visible T Hq), specUnits_toSpec. reflexivity.
Qed.

(** A tree with body chunks applied linearizes to its own units followed by
    those of the chunks' descriptors. *)
Lemma linearize_applyBody T b :
  linearize (applyBody T b) = (linearize T ++ specUnits (segmentTexts b))%list.
Proof.
  unfold applyBody, insertSegmentsAtEnd, linearize. simpl.
  rewrite filter_app, filter_live_specToSegment, bind_app. f_equal.
  unfold specUnits. induction (segmentTexts b) as [|sp l IH]; csimpl; [reflexivity | by rewrite IH].
Qed.

Lemma linearize_bodies bs : forall T,
  linearize (foldl applyBody T bs) = (linearize T ++ specUnits (bs ≫= segmentTexts))%list.
Proof.
  induction bs as [|b bs IH]; intros T; csimpl.
  - change (specUnits []) with (@nil (Unit * gmap string jsval)). by rewrite app_nil_r.
  - rewrite IH, linearize_applyBody, specUnits_app, app_assoc. reflexivity.
Qed.

Lemma linearize_loadHeader h : linearize (loadHeader h) = specUnits (segmentTexts h).
Proof. unfold loadHeader, reloadFromSegments. apply linearize_reloaded. Qed.

(** The tree rebuilt from header and body linearizes to the chunks'
    descriptors, in order. *)
Lemma linearize_load (s : Snapshot.t) :
  linearize (load s) = specUnits (segmentTexts (header s) ++ (body s ≫= segmentTexts)).
Proof. unfold load. rewrite linearize_bodies, linearize_loadHeader, specUnits_app. reflexivity. Qed.

(** The snapshot that [extract] makes is one the section admits. *)
Lemma extract_admitted N T : admits N T (extract N T).
Proof.
  unfold admits, extract. fold (visibleSpecs T).
  destruct (fill N (visibleSpecs T)) as [h rest] eqn:Hf.
  pose proof (fill_units _ _ _ _ Hf) as Hu.
  pose proof (fill_chars _ _ _ _ Hf) as Hc.
  pose proof (fill_rest _ _ _ _ Hf) as Hr.
  simpl. split; [|split; [|split]].
  - rewrite specUnits_app, <- Hu. f_equal.
    destruct rest; csimpl; [reflexivity | by rewrite app_nil_r].
  - rewrite contentLength_units, Hc, length_take. lia.
  - intros Hb. apply Hr. destruct rest; [contradiction | discriminate].
  - destruct rest; repeat constructor.
Qed.

(** The tree rebuilt from what [extract] made linearizes to what was
    serialized. *)
Lemma linearize_load_extract N T :
  linearize (load (extract N T)) = specUnits (visibleSpecs T).
Proof. rewrite linearize_load. apply (extract_admitted N T). Qed.

End SnapshotFacts.

Section SnapshotClaims.

Import MergeTree Snapshot.

Variable sizeOfFirstChunk : nat.

Lemma linearize_round_trip T :
  quiescent T = true -> linearize (load (extract sizeOfFirstChunk T)) = linearize T.
Proof. intros Hq. rewrite linearize_load_extract. apply (quiescent_linearize T Hq). Qed.

(** C2 (amended).  For every quiescent tree T -- every insertion and
    removal sequenced at or below [minSeq], nothing pending -- the tree
    loaded from the snapshot extracted from T has T's length, T's text and
    T's linearized content with its properties, whatever the capacity of
    the first chunk and however the segments were cut. *)
Theorem snapshot_round_trip_quiescent (T : MergeTree.t) :
  quiescent T = true ->
  getLength (load (extract sizeOfFirstChunk T)) = getLength T
  /\ getText (load (extract sizeOfFirstChunk T)) = getText T
  /\ linearize (load (extract sizeOfFirstChunk T)) = linearize T.
Proof.
  intros Hq. pose proof (linearize_round_trip T Hq) as Hl.
  rewrite !getLength_linearize, !getText_linearize, Hl. auto.
Qed.


End SnapshotClaims.

(** C2, the claim as written: the snapshot is taken as of [minSeq], so a
    local insertion that still awaits its echo is in the tree but not in the
    snapshot. *)
Lemma pending_insertion_lost_by_round_trip :
  MergeTree.getLength Sample.editedTree = 4%nat
  /\ MergeTree.getText Sample.editedTree = "abcd"
  /\ MergeTree.getLength (Snapshot.load (Snapshot.extract 10 Sample.editedTree)) = 3%nat
  /\ MergeTree.getText (Snapshot.load (Snapshot.extract 10 Sample.editedTree)) = "abc".
Proof. repeat split; vm_compute; reflexivity. Qed.


Lemma snapshot_round_trip_quiescent_witness :
  MergeTree.quiescent Sample.settledTree = true
  /\ MergeTree.getLength (Snapshot.load (Snapshot.extract 5 Sample.settledTree)) = 11%nat
  /\ MergeTree.getText (Snapshot.load (Snapshot.extract 5 Sample.settledTree)) = "hello world".
Proof.
  assert (Hq : MergeTree.quiescent Sample.settledTree = true) by (vm_compute; reflexivity).
  split; [exact Hq|].
  destruct (snapshot_round_trip_quiescent 5 Sample.settledTree Hq) as (Hlen & Htext & _).
  rewrite Hlen, Htext. split; vm_compute; reflexivity.
Defined.



(** ** Cell and Counter between replicas *)

Section WireFacts.

Import Cell CellWire.

Lemma submitted_set value isLocal csn c :
  submitted (set value isLocal csn c)
  = Some {| op_type := "setCell";
            op_value := Some match value with
                             | SharedObject id => {| cv_type := Shared; cv_value := Str id |}
                             | _ => {| cv_type := Plain; cv_value := value |}
                             end |}.
Proof.
  unfold submitted, set. destruct value; simpl; rewrite last_snoc; reflexivity.
Qed.

Lemma submitted_delete csn c :
  submitted (delete csn c) = Some {| op_type := "deleteCell"; op_value := None |}.
Proof. unfold submitted, delete. simpl. rewrite last_snoc. reflexivity. Qed.

End WireFacts.

Section CellExtras.

Import Cell CellWire.

(** X1.  What one replica writes, an idle replica ends up holding.  The
    operation that [set] or [delete] hands to [submitLocalMessage] is
    delivered as a remote Operation to a cell with nothing pending.  After a
    [set] of a plain value, [prepareCore] resolves with that value.  After a
    [set] of a shared object, which travels as its id, [prepareCore] ends as
    [getChannel] does for that id: it throws when [getChannel] throws (the
    runtime is closed), stays pending while [getChannel] does (no channel is
    known under the id), and resolves with the channel found.  Whatever
    [prepareCore] resolved with, [processCore] stores it and emits
    "valueChanged" with it.  After a [delete], [prepareCore] resolves at
    once and [processCore] leaves the cell holding [undefined], having
    emitted "delete".  Nothing becomes pending at the receiver. *)
Theorem cell_local_change_reaches_idle_replica
    (getChannel : jsval -> awaited jsval) (a b : t)
    (m : ISequencedDocumentMessage ICellOperation) :
  pendingClientSequenceNumber b = -1 ->
  type m = Operation ->
  (forall value isLocal csn,
      submitted (set value isLocal csn a) = Some (contents m) ->
      ((forall id, value <> SharedObject id) ->
       prepareCore getChannel m false = Ok (Some value))
      /\ (forall id, value = SharedObject id ->
            prepareCore getChannel m false = getChannel (Str id))
      /\ (forall arrived,
            prepareCore getChannel m false = Ok (Some arrived) ->
            exists b',
              processCore m false arrived b = Ok b'
              /\ data b' = arrived
              /\ trace b' = (trace b ++ [EmitValueChanged arrived])%list
              /\ pendingClientSequenceNumber b' = -1))
  /\ (forall csn,
      submitted (delete csn a) = Some (contents m) ->
      exists b',
        prepareCore getChannel m false = Ok (Some Undefined)
        /\ processCore m false Undefined b = Ok b'
        /\ data b' = Undefined
        /\ trace b' = (trace b ++ [EmitDelete])%list
        /\ pendingClientSequenceNumber b' = -1).
Proof.
  intros Hp Hty. split.
  - intros value isLocal csn Hs. rewrite submitted_set in Hs.
    injection Hs as Hc. split; [|split].
    + intros Hplain. unfold prepareCore.
      rewrite (bool_decide_eq_true_2 _ Hty), <- Hc. simpl.
      destruct value as [| | |id]; try reflexivity. by destruct (Hplain id).
    + intros id ->. unfold prepareCore.
      rewrite (bool_decide_eq_true_2 _ Hty), <- Hc. reflexivity.
    + intros arrived _. exists (setCore arrived b).
      unfold processCore.
      rewrite (bool_decide_eq_true_2 _ Hp), (bool_decide_eq_true_2 _ Hty), <- Hc. simpl.
      repeat split; assumption.
  - intros csn Hs. rewrite submitted_delete in Hs. injection Hs as Hc.
    exists (deleteCore b).
    unfold prepareCore, processCore.
    rewrite (bool_decide_eq_true_2 _ Hp), (bool_decide_eq_true_2 _ Hty), <- Hc. simpl.
    repeat split; assumption.
Qed.

End CellExtras.

Section CounterExtras.

Import Counter CounterWire.

Lemma remote_cons (p : float) (l : bool) (ms : list (float * bool)) :
  remote ((p, l) :: ms) = if l then remote ms else p :: remote ms.
Proof. unfold remote. rewrite filter_cons. destruct l; reflexivity. Qed.

Lemma processAll_value c ms :
  _value (processAll c ms) = foldl PrimFloat.add (_value c) (remote ms).
Proof.
  unfold processAll. revert c. induction ms as [|[p l] ms IH]; intros c; [reflexivity|].
  rewrite remote_cons. simpl foldl. rewrite IH. destruct l; reflexivity.
Qed.

Lemma emitted_increment value submit c :
  emitted (increment value submit c)
  = (emitted c ++ if submit then [EmitterEmit "increment" (_value c) value] else [])%list.
Proof.
  unfold emitted, increment. simpl. rewrite !filter_app.
  destruct submit; simpl; rewrite ?app_nil_r; reflexivity.
Qed.

Lemma emitted_process c p l : emitted (process c p l) = emitted c.
Proof.
  unfold process. destruct l; [reflexivity|].
  rewrite emitted_increment. apply app_nil_r.
Qed.

(** Two doubles that [==] tells apart are different. *)
Lemma float_neq (x y : float) : (x =? y)%float = false -> (x =? x)%float = true -> x <> y.
Proof. intros Hxy Hxx Heq. rewrite <- Heq, Hxx in Hxy. discriminate. Qed.

(** X2.  The counter's value follows the order of arrival.  Running the
    ["increment"] operation's [process] over a stream of messages leaves the
    value at what JavaScript's [+] makes of the start value and the amounts
    of the remote messages, added one after the other in their order of
    arrival; local messages add nothing wherever they fall (their amount was
    added by [increment] when they were made).  Streams with the same remote
    amounts in the same order therefore end at the same value.  The order
    matters, the additions being those of doubles: two replicas that start
    from the same value, each make one increment of their own and then
    process the same two sequenced messages can end with different
    values. *)
Theorem counter_value_follows_arrival_order (c : t) (ms ms' : list (float * bool)) :
  remote ms = remote ms' ->
  _value (processAll c ms) = foldl PrimFloat.add (_value c) (remote ms)
  /\ _value (processAll c ms) = _value (processAll c ms')
  /\ exists start x y,
       _value (processAll (increment x true (load start)) [(x, true); (y, false)])
       <> _value (processAll (increment y true (load start)) [(x, false); (y, true)]).
Proof.
  intros Hsame. split; [apply processAll_value|]. split.
  - rewrite !processAll_value, Hsame. reflexivity.
  - exists (Some 9007199254740992%float), 1%float, (-9007199254740992)%float.
    apply float_neq; vm_compute; reflexivity.
Qed.

(** X3.  Processing never sends.  [process] hands nothing to the operation
    emitter, whatever the message, so a stream of processed messages leaves
    the emitted operations as they were: an increment received is not sent
    out again.  A local [increment] (with [submit] left at its default)
    emits exactly one "increment" operation, carrying the value before the
    increment and the amount. *)
Theorem counter_process_never_submits (c : t) (ms : list (float * bool)) (n : float) :
  emitted (processAll c ms) = emitted c
  /\ emitted (increment n true c)
     = (emitted c ++ [EmitterEmit "increment" (_value c) n])%list
  /\ emitted (increment n false c) = emitted c.
Proof.
  split; [|split].
  - unfold processAll. revert c. induction ms as [|[p l] ms IH]; intros c; simpl.
    + reflexivity.
    + rewrite IH. apply emitted_process.
  - apply emitted_increment.
  - rewrite emitted_increment. apply app_nil_r.
Qed.

End CounterExtras.

Lemma counter_value_follows_arrival_order_witness :
  CounterWire.remote [(2%float, false); (5%float, true); (3%float, false)]
  = CounterWire.remote [(5%float, true); (2%float, false); (3%float, false)]
  /\ Counter._value
       (CounterWire.processAll (Counter.load (Some 10%float))
          [(2%float, false); (5%float, true); (3%float, false)]) = 15%float
  /\ Counter._value
       (CounterWire.processAll (Counter.load (Some 10%float))
          [(5%float, true); (2%float, false); (3%float, false)]) = 15%float.
Proof.
  assert (Hsame : CounterWire.remote [(2%float, false); (5%float, true); (3%float, false)]
                  = CounterWire.remote [(5%float, true); (2%float, false); (3%float, false)])
    by reflexivity.
  split; [exact Hsame|].
  destruct (counter_value_follows_arrival_order (Counter.load (Some 10%float)) _ _ Hsame)
    as (Hv & He & _).
  split; [rewrite Hv; reflexivity|]. rewrite <- He, Hv. reflexivity.
Defined.

(** ** The runtime's maps *)

Section JsMapFacts.

Context {V : Type}.
Implicit Types (m : JsMap.t V) (k : string) (v : V).

Lemma JsMap_get_set_eq k v m : JsMap.get k (JsMap.set k v m) = Some v.
Proof.
  induction m as [|[k' v'] m IH]; simpl.
  - by rewrite bool_decide_eq_true_2.
  - case_bool_decide as Hk; simpl.
    + by rewrite bool_decide_eq_true_2.
    + by rewrite bool_decide_eq_false_2.
Qed.

Lemma JsMap_get_set_ne k k' v m : k <> k' -> JsMap.get k' (JsMap.set k v m) = JsMap.get k' m.
Proof.
  intros Hne. induction m as [|[k0 v0] m IH]; simpl.
  - by rewrite bool_decide_eq_false_2.
  - destruct (decide (k0 = k)) as [->|Hk].
    + rewrite bool_decide_eq_true_2 by reflexivity. simpl.
      by rewrite !bool_decide_eq_false_2.
    + rewrite (bool_decide_eq_false_2 (k0 = k)) by exact Hk. simpl.
      case_bool_decide; [reflexivity | exact IH].
Qed.

Lemma JsMap_has_get k m : JsMap.has k m = bool_decide (is_Some (JsMap.get k m)).
Proof.
  unfold JsMap.has. destruct (JsMap.get k m).
  - symmetry. apply bool_decide_eq_true_2. eauto.
  - symmetry. apply bool_decide_eq_false_2. intros [? ?]. discriminate.
Qed.

Lemma JsMap_set_absent k v m : JsMap.get k m = None -> JsMap.set k v m = (m ++ [(k, v)])%list.
Proof.
  induction m as [|[k0 v0] m IH]; simpl; [reflexivity|].
  case_bool_decide as Hk; [discriminate|]. intros Hg. by rewrite IH.
Qed.

Lemma JsMap_delete_set_absent k v m :
  JsMap.get k m = None -> JsMap.delete k (JsMap.set k v m) = m.
Proof.
  induction m as [|[k0 v0] m IH]; simpl.
  - by rewrite bool_decide_eq_true_2.
  - case_bool_decide as Hk; [discriminate|]. intros Hg. simpl.
    rewrite bool_decide_eq_false_2 by exact Hk. by rewrite IH.
Qed.

Lemma JsMap_get_delete_ne k k' m : k <> k' -> JsMap.get k' (JsMap.delete k m) = JsMap.get k' m.
Proof.
  intros Hne. induction m as [|[k0 v0] m IH]; simpl; [reflexivity|].
  destruct (decide (k0 = k)) as [->|Hk].
  - rewrite bool_decide_eq_true_2 by reflexivity.
    by rewrite bool_decide_eq_false_2.
  - rewrite (bool_decide_eq_false_2 (k0 = k)) by exact Hk. simpl.
    case_bool_decide; [reflexivity | exact IH].
Qed.

Lemma JsMap_keys_set k v m :
  (JsMap.set k v m).*1 = if JsMap.has k m then m.*1 else (m.*1 ++ [k])%list.
Proof.
  unfold JsMap.has. induction m as [|[k0 v0] m IH]; csimpl; [reflexivity|].
  case_bool_decide as Hk; csimpl.
  - by subst.
  - rewrite IH. by destruct (JsMap.get k m).
Qed.

End JsMapFacts.

(** ** Channels of the component runtime *)

Section ChannelExtras.

Import ComponentRuntime RuntimeView.
Local Open Scope rt_scope.

Variable registry : string -> option ISharedObjectExtension.
Variable connectionState : ConnectionState.
Variable documentId : string.
Variable hostRequest : string -> IResponse.
Variable contextSubmitMessage : MessageType -> content -> result Z.
Variable connectionPrepare :
  string -> ISequencedDocumentMessage jsval -> bool -> result context.
Variable connectionProcess :
  string -> ISequencedDocumentMessage jsval -> bool -> context -> result unit.

Lemma verifyNotClosed_open s : closed s = false -> verifyNotClosed s = (Ok tt, s).
Proof. intros H. unfold verifyNotClosed, bindM, gets, ret. rewrite H. reflexivity. Qed.

Lemma bindM_ok {A B} (m : M A) (k : A -> M B) s a s' :
  m s = (Ok a, s') -> bindM m k s = k a s'.
Proof. intros H. unfold bindM. rewrite H. reflexivity. Qed.

Lemma request_resolved url id channel s :
  url <> "/_scheduler" -> substr1 url = id ->
  JsMap.get id (channelsDeferred s) = Some (Some channel) ->
  request hostRequest url s = (Ok (Response 200 "prague/dataType" (Some channel) EmptyString), s).
Proof.
  intros Hurl Hid Hget. unfold request.
  rewrite bool_decide_eq_false_2 by exact Hurl.
  unfold bindM, gets. rewrite Hid, Hget. reflexivity.
Qed.

Lemma getChannel_known id d s :
  closed s = false -> JsMap.get id (channelsDeferred s) = Some d ->
  getChannel id s = (Ok d, s).
Proof.
  intros Hc Hget. unfold getChannel.
  rewrite (bindM_ok _ _ _ _ _ (verifyNotClosed_open _ Hc)).
  unfold reserve, bindM, gets, ret, JsMap.has. rewrite Hget. simpl. rewrite Hget. reflexivity.
Qed.

(** X4.  A channel that was created is the one handed out.  On an open
    runtime whose registry knows the type, and where no channel was handed
    out under the id before, [createChannel] returns the extension's new
    channel, records it (not yet connected, no base id) and sends nothing;
    from then on [getChannel] answers that channel without changing the
    state, and so does the request for "/id" (status 200, mime type
    "prague/dataType"). *)
Theorem created_channel_is_served (s : t) (id ty : string) (extension : ISharedObjectExtension) :
  closed s = false ->
  registry ty = Some extension ->
  (forall channel, JsMap.get id (channelsDeferred s) <> Some (Some channel)) ->
  let channel := ext_create extension id in
  let after := createChannel registry id ty s in
  after.1 = Ok channel
  /\ JsMap.get id (channels after.2)
     = Some {| object := channel; storage := None; connection := None; baseId := None |}
  /\ trace after.2 = trace s
  /\ getChannel id after.2 = (Ok (Some channel), after.2)
  /\ (id <> "_scheduler" ->
      request hostRequest (String "/" id) after.2
      = (Ok (Response 200 "prague/dataType" (Some channel) EmptyString), after.2)).
Proof.
  intros Hc Hreg Hfresh channel after.
  assert (Hafter : exists d,
             after = (Ok channel,
                      set_channelsDeferred d
                        (set_channels
                           (JsMap.set id {| object := channel; storage := None;
                                            connection := None; baseId := None |}
                              (channels s)) s))
             /\ JsMap.get id d = Some (Some channel)).
  { subst after. unfold createChannel.
    rewrite (bindM_ok _ _ _ _ _ (verifyNotClosed_open _ Hc)), Hreg.
    cbv beta iota delta [bindM modify resolveDeferred gets ret]. simpl.
    destruct (JsMap.get id (channelsDeferred s)) as [[old|]|] eqn:Hd; simpl.
    - destruct (Hfresh old eq_refl).
    - eexists. split; [reflexivity|]. apply JsMap_get_set_eq.
    - eexists. split; [reflexivity|]. apply JsMap_get_set_eq. }
  destruct Hafter as (d & -> & Hd). simpl.
  split; [reflexivity|]. split; [apply JsMap_get_set_eq|]. split; [reflexivity|].
  split.
  - apply getChannel_known; [exact Hc | exact Hd].
  - intros Hid. apply (request_resolved _ id); [|reflexivity|exact Hd].
    intros Heq. injection Heq as Heq. contradiction.
Qed.

(** X5.  A promise is kept once.  When a channel was already handed out
    under an id, creating another channel under the same id stores the new
    channel in [channels] -- it is the one messages are routed to and the one
    snapshotted -- but the deferred was resolved before and stays so:
    [getChannel] still answers the first channel. *)
Theorem recreated_channel_keeps_first_promise
    (s : t) (id ty : string) (extension : ISharedObjectExtension) (first : IChannel) :
  closed s = false ->
  registry ty = Some extension ->
  JsMap.get id (channelsDeferred s) = Some (Some first) ->
  let after := createChannel registry id ty s in
  after.1 = Ok (ext_create extension id)
  /\ (object <$> JsMap.get id (channels after.2)) = Some (ext_create extension id)
  /\ getChannel id after.2 = (Ok (Some first), after.2).
Proof.
  intros Hc Hreg Hd after. subst after. unfold createChannel.
  rewrite (bindM_ok _ _ _ _ _ (verifyNotClosed_open _ Hc)), Hreg.
  cbv beta iota delta [bindM modify resolveDeferred gets ret]. simpl. rewrite Hd. simpl.
  split; [reflexivity|]. split.
  - by rewrite JsMap_get_set_eq.
  - apply getChannel_known; [exact Hc|]. simpl. apply JsMap_get_set_eq.
Qed.

(** X6.  A channel asked for before it exists is delivered when its attach
    message arrives.  On an open runtime that has never heard of the id,
    [getChannel] reserves a deferred and answers with it unresolved;
    processing the remote Attach message for that id, with the channel state
    [prepare] loaded, stores the channel, resolves that same deferred and
    emits "op" with the channel as target. *)
Theorem requested_channel_arrives_with_attach
    (s : t) (id : string) (m : ISequencedDocumentMessage content) (channelState : IChannelState) :
  closed s = false ->
  JsMap.get id (channelsDeferred s) = None ->
  type m = Attach ->
  attachId (contents m) = Some id ->
  ch_id (object channelState) = id ->
  let asked := getChannel id s in
  let done := process connectionProcess m false (CtxChannelState channelState) asked.2 in
  asked.1 = Ok None
  /\ done.1 = Ok tt
  /\ JsMap.get id (channels done.2) = Some channelState
  /\ getChannel id done.2 = (Ok (Some (object channelState)), done.2)
  /\ trace done.2 = (trace s ++ [EmitOp m (Some (object channelState))])%list.
Proof.
  intros Hc Hd Hty Hid Hch asked done.
  assert (Hasked : asked = (Ok None, set_channelsDeferred (JsMap.set id None (channelsDeferred s)) s)).
  { subst asked. unfold getChannel.
    rewrite (bindM_ok _ _ _ _ _ (verifyNotClosed_open _ Hc)).
    cbv beta iota delta [bindM reserve gets modify ret JsMap.has]. rewrite Hd. simpl.
    by rewrite JsMap_get_set_eq. }
  subst done. rewrite Hasked. simpl. split; [reflexivity|].
  unfold process. rewrite Hty. unfold processAttach.
  cbv beta iota delta [bindM verifyNotClosed gets modify ret throw resolveDeferred log]. simpl.
  rewrite Hc, Hid, Hch. repeat (progress (simpl; rewrite ?JsMap_get_set_eq)).
  split; [reflexivity|]. split; [reflexivity|]. split; [|reflexivity].
  apply getChannel_known; [exact Hc|]. simpl. apply JsMap_get_set_eq.
Qed.

(** X7.  An attach message stays pending until its echo.  On an open,
    attached runtime, registering a created channel records its attach
    message (id, snapshot, type) in [pendingAttach], submits it as an Attach
    message and connects the channel; processing the local echo of that
    message removes it from [pendingAttach] again and emits "op" with the
    channel as target. *)
Theorem attach_message_pending_until_echo
    (s : t) (channel : IChannel) (m : ISequencedDocumentMessage content) :
  closed s = false ->
  isLocal s = false ->
  is_ok (contextSubmitMessage Attach (AttachContent (attachMessage channel))) = true ->
  (object <$> JsMap.get (ch_id channel) (channels s)) = Some channel ->
  JsMap.get (ch_id channel) (pendingAttach s) = None ->
  type m = Attach ->
  contents m = AttachContent (attachMessage channel) ->
  let registered := registerChannel connectionState contextSubmitMessage channel s in
  let echoed := process connectionProcess m true CtxUndefined registered.2 in
  registered.1 = Ok tt
  /\ JsMap.get (ch_id channel) (pendingAttach registered.2) = Some (attachMessage channel)
  /\ trace registered.2
     = (trace s ++ [ContextSubmitMessage Attach (AttachContent (attachMessage channel));
                    ChannelConnect (ch_id channel)])%list
  /\ echoed.1 = Ok tt
  /\ pendingAttach echoed.2 = pendingAttach s
  /\ trace echoed.2 = (trace registered.2 ++ [EmitOp m (Some channel)])%list.
Proof.
  intros Hc Hl Hsub Hch Hp Hty Hm registered echoed.
  destruct (contextSubmitMessage Attach (AttachContent (attachMessage channel)))
    as [csn|] eqn:Hs; [clear Hsub|discriminate].
  destruct (JsMap.get (ch_id channel) (channels s)) as [entry|] eqn:Hentry; [|discriminate].
  injection Hch as Hobj.
  assert (Hreg : exists s1,
             registerChannel connectionState contextSubmitMessage channel s = (Ok tt, s1)
             /\ pendingAttach s1 = JsMap.set (ch_id channel) (attachMessage channel) (pendingAttach s)
             /\ trace s1
                = (trace s ++ [ContextSubmitMessage Attach (AttachContent (attachMessage channel));
                               ChannelConnect (ch_id channel)])%list
             /\ closed s1 = false
             /\ (object <$> JsMap.get (ch_id channel) (channels s1)) = Some channel).
  { unfold registerChannel, attachChannel, submit, getAndAttachChannelServices.
    fold (attachMessage channel).
    cbv beta iota delta [bindM verifyNotClosed gets modify ret throw log lift assert].
    repeat (progress (simpl; rewrite ?Hl, ?Hc, ?Hs, ?Hentry, ?(bool_decide_eq_true_2 _ Hobj))).
    eexists. split; [reflexivity|]. simpl.
    split; [reflexivity|]. split; [by rewrite <- app_assoc|]. split; [reflexivity|].
    rewrite JsMap_get_set_eq. simpl. by rewrite Hobj. }
  destruct Hreg as (s1 & Hreg & Hp1 & Ht1 & Hc1 & Hch1).
  subst echoed registered. rewrite Hreg. simpl.
  split; [reflexivity|]. split; [rewrite Hp1; apply JsMap_get_set_eq|].
  split; [exact Ht1|].
  destruct (JsMap.get (ch_id channel) (channels s1)) as [entry1|] eqn:Hentry1; [|discriminate].
  injection Hch1 as Hobj1.
  unfold process. rewrite Hty. unfold processAttach. rewrite Hm.
  cbv beta iota delta [bindM verifyNotClosed gets modify ret throw log assert attachId].
  assert (Hhas : JsMap.has (ch_id channel) (pendingAttach s1) = true).
  { rewrite JsMap_has_get, Hp1, JsMap_get_set_eq. apply bool_decide_eq_true_2. eauto. }
  repeat (progress (simpl; rewrite ?Hc1, ?Hhas, ?Hentry1)).
  split; [reflexivity|]. split; [rewrite Hp1; by apply JsMap_delete_set_absent|].
  by rewrite Hobj1.
Qed.

End ChannelExtras.

(** ** Connection, messages and snapshots of the component runtime *)

Section TraceFacts.

Import ComponentRuntime RuntimeView.
Local Open Scope rt_scope.

Lemma log_logged e s : log e s = (Ok tt, logged [e] s).
Proof. reflexivity. Qed.

Lemma logged_nil s : logged [] s = s.
Proof. destruct s. unfold logged. simpl. by rewrite app_nil_r. Qed.

Lemma logged_logged es es' s : logged es' (logged es s) = logged (es ++ es') s.
Proof. unfold logged. simpl. by rewrite app_assoc. Qed.

Lemma submittedMessages_logged es s :
  submittedMessages (logged es s)
  = (submittedMessages s
     ++ omap (fun e => match e with
                       | ContextSubmitMessage ty c => Some (ty, c)
                       | _ => None
                       end) es)%list.
Proof. unfold submittedMessages, logged. simpl. apply omap_app. Qed.


End TraceFacts.

Section ConnectionExtras.

Import ComponentRuntime RuntimeView.
Local Open Scope rt_scope.

Variable registry : string -> option ISharedObjectExtension.
Variable connectionState : ConnectionState.
Variable documentId : string.
Variable hostRequest : string -> IResponse.
Variable contextSubmitMessage : MessageType -> content -> result Z.
Variable connectionPrepare :
  string -> ISequencedDocumentMessage jsval -> bool -> result context.
Variable connectionProcess :
  string -> ISequencedDocumentMessage jsval -> bool -> context -> result unit.

Lemma submit_ok ty c s :
  closed s = false -> is_ok (contextSubmitMessage ty c) = true ->
  exists csn, submit contextSubmitMessage ty c s = (Ok csn, logged [ContextSubmitMessage ty c] s).
Proof.
  intros Hc Hok. destruct (contextSubmitMessage ty c) as [csn|] eqn:Hs; [|discriminate].
  exists csn. unfold submit.
  rewrite (bindM_ok _ _ _ _ _ (verifyNotClosed_open _ Hc)).
  cbv beta iota delta [bindM log modify lift ret]. rewrite Hs. reflexivity.
Qed.

Lemma resend_all (ms : list IAttachMessage) : forall s,
  closed s = false ->
  (forall m, is_ok (contextSubmitMessage Attach (AttachContent m)) = true) ->
  forEach (fun message => submit contextSubmitMessage Attach (AttachContent message) ;; ret tt) ms s
  = (Ok tt, logged ((fun m => ContextSubmitMessage Attach (AttachContent m)) <$> ms) s).
Proof.
  induction ms as [|m ms IH]; intros s Hc Hok; simpl.
  - by rewrite logged_nil.
  - destruct (submit_ok Attach (AttachContent m) s Hc (Hok m)) as [csn Hs].
    unfold bindM at 1. unfold bindM at 1. rewrite Hs. unfold ret at 1.
    rewrite IH by (assumption || reflexivity).
    by rewrite logged_logged.
Qed.

Lemma changeConnectionState_open (s : t) (value : ConnectionState) (clientId : string) :
  closed s = false ->
  (forall m, is_ok (contextSubmitMessage Attach (AttachContent m)) = true) ->
  changeConnectionState contextSubmitMessage value clientId s
  = (Ok tt,
     logged [RaiseConnectedEvent value clientId]
       (set_channels (prod_map id (setConnectionState value) <$> channels s)
          (logged
             (if bool_decide (value = Connected)
              then (fun m => ContextSubmitMessage Attach (AttachContent m))
                     <$> JsMap.values (pendingAttach s)
              else []) s))).
Proof.
  intros Hc Hok. unfold changeConnectionState.
  rewrite (bindM_ok _ _ _ _ _ (verifyNotClosed_open _ Hc)).
  case_bool_decide as Hv.
  - unfold bindM at 1. unfold bindM at 1. unfold gets at 1.
    rewrite (resend_all _ _ Hc Hok). reflexivity.
  - unfold bindM at 1. unfold ret at 1. rewrite logged_nil. reflexivity.
Qed.


Lemma snapshotChannel_member (chs : JsMap.t IChannelState) k entry x :
  JsMap.get k chs = Some entry -> x ∈ snapshotChannel k entry ->
  x ∈ concat (map (fun '(objectId, e) => snapshotChannel objectId e) chs).
Proof.
  induction chs as [|[k0 e0] chs IH]; simpl; [discriminate|].
  case_bool_decide as Hk.
  - intros Hg Hx. injection Hg as ->. subst k0. apply elem_of_app. by left.
  - intros Hg Hx. apply elem_of_app. right. by apply IH.
Qed.

(** X9.  A processed operation makes its channel dirty.  On an open runtime,
    [processOp] for an operation addressed to a known channel clears that
    channel's base id and touches no other channel -- before it hands the
    message to the channel, so also when the channel's handler throws.  The
    next snapshot of a registered channel therefore carries the id of the
    channel's own snapshot, not the base id of the snapshot it was loaded
    from. *)
Theorem processed_channel_is_dirty
    (s : t) (m : ISequencedDocumentMessage content) (local : bool) (ctx : context)
    (address : string) (inner : jsval) (details : IChannelState) :
  closed s = false ->
  contents m = Envelope address inner ->
  JsMap.get address (channels s) = Some details ->
  let after := processOp connectionProcess m local ctx s in
  let dirty := {| object := object details; storage := storage details;
                  connection := connection details; baseId := None |} in
  JsMap.get address (channels after.2) = Some dirty
  /\ (forall a, a <> address -> JsMap.get a (channels after.2) = JsMap.get a (channels s))
  /\ (ch_isRegistered (object details) = true ->
      exists es,
        snapshotInternal after.2 = (Ok es, after.2)
        /\ Tree address
             (entries (ch_snapshot (object details)) ++ [attributesBlob (object details)])
             (tree_id (ch_snapshot (object details))) ∈ es).
Proof.
  intros Hc Hm Hd after dirty.
  assert (Hch : channels after.2 = JsMap.set address dirty (channels s)).
  { subst after. unfold processOp.
    rewrite (bindM_ok _ _ _ _ _ (verifyNotClosed_open _ Hc)).
    cbv beta iota delta [bindM gets modify log lift ret throw envelopeTarget].
    rewrite Hm, Hd. simpl.
    destruct (connection details); simpl; [|reflexivity].
    destruct (connectionProcess _ _ _ _); reflexivity. }
  assert (Hget : JsMap.get address (channels after.2) = Some dirty).
  { rewrite Hch. apply JsMap_get_set_eq. }
  split; [exact Hget|]. split.
  - intros a Ha. rewrite Hch. apply JsMap_get_set_ne. congruence.
  - intros Hreg. eexists. split; [reflexivity|].
    apply (snapshotChannel_member _ _ _ _ Hget).
    unfold snapshotChannel, dirty. simpl. rewrite Hreg. simpl. by left.
Qed.

(** X10.  What cannot be routed is refused and leaves no mark.  On an open
    runtime: creating a channel of a type the registry does not know throws
    "Channel Extension <type> not registered"; preparing or processing an
    Operation whose envelope names no known channel fails the assertion;
    and so does processing the local echo of an Attach message that is not
    pending.  In each case every field of the runtime is as before, and no
    "op" event is emitted. *)
Theorem unroutable_is_refused
    (s : t) (m : ISequencedDocumentMessage content) (local : bool) (ctx : context) :
  closed s = false ->
  (forall id ty, registry ty = None ->
     createChannel registry id ty s
     = (Throw ("Channel Extension " ++ ty ++ " not registered"), s))
  /\ (type m = Operation -> envelopeTarget (contents m) (channels s) = None ->
      prepare registry connectionState documentId connectionPrepare m local s
      = (Throw "AssertionError", s)
      /\ process connectionProcess m local ctx s = (Throw "AssertionError", s))
  /\ (type m = Attach ->
      forall i, attachId (contents m) = Some i -> JsMap.has i (pendingAttach s) = false ->
      process connectionProcess m true ctx s = (Throw "AssertionError", s)).
Proof.
  intros Hc. split; [|split].
  - intros id ty Hreg. unfold createChannel.
    rewrite (bindM_ok _ _ _ _ _ (verifyNotClosed_open _ Hc)), Hreg. reflexivity.
  - intros Hty Hnone. split.
    + unfold prepare. rewrite Hty. unfold prepareOp.
      rewrite (bindM_ok _ _ _ _ _ (verifyNotClosed_open _ Hc)).
      cbv beta iota delta [bindM gets]. rewrite Hnone. reflexivity.
    + unfold process. rewrite Hty. unfold processOp.
      apply bindM_throw. apply bindM_throw.
      rewrite (bindM_ok _ _ _ _ _ (verifyNotClosed_open _ Hc)).
      cbv beta iota delta [bindM gets]. rewrite Hnone. reflexivity.
  - intros Hty i Hi Hhas. unfold process. rewrite Hty. unfold processAttach.
    apply bindM_throw. apply bindM_throw.
    rewrite (bindM_ok _ _ _ _ _ (verifyNotClosed_open _ Hc)).
    apply bindM_throw. rewrite Hi.
    cbv beta iota delta [bindM gets assert]. rewrite Hhas. reflexivity.
Qed.

End ConnectionExtras.

(** ** Attaching the component runtime *)

Section AttachExtras.

Import ComponentRuntime RuntimeView.
Local Open Scope rt_scope.

Variable registry : string -> option ISharedObjectExtension.
Variable connectionState : ConnectionState.
Variable documentId : string.
Variable hostRequest : string -> IResponse.
Variable contextSubmitMessage : MessageType -> content -> result Z.
Variable connectionPrepare :
  string -> ISequencedDocumentMessage jsval -> bool -> result context.
Variable connectionProcess :
  string -> ISequencedDocumentMessage jsval -> bool -> context -> result unit.

Local Abbreviation connectOne := (RuntimeView.connectOne connectionState).
Local Abbreviation connectedAt := (RuntimeView.connectedAt connectionState).

Lemma attach_local s :
  isLocal s = true ->
  attach connectionState s
  = (log ContextAttach ;;
     do q <- gets attachChannelQueue;
     forEach connectOne (JsMap.values q) ;;
     modify (set_isLocal false) ;;
     modify (set_deferredAttached true) ;;
     modify (set_attachChannelQueue [])) s.
Proof. intros H. unfold attach. unfold bindM at 1. unfold gets at 1. rewrite H. reflexivity. Qed.

Lemma submitted_connects (l : list IChannel) :
  omap (fun e => match e with
                 | ContextSubmitMessage ty c => Some (ty, c)
                 | _ => None
                 end) (ChannelConnect ∘ ch_id <$> l) = [].
Proof. induction l as [|c l IH]; [reflexivity | exact IH]. Qed.

Lemma connectOne_ok channel entry s :
  JsMap.get (ch_id channel) (channels s) = Some entry -> object entry = channel ->
  connectOne channel s
  = (Ok tt,
     logged [ChannelConnect (ch_id channel)]
       (set_channels
          (JsMap.set (ch_id channel)
             {| object := object entry; storage := Some (ChannelStorageService None);
                connection := Some {| conn_objectId := ch_id channel;
                                      conn_state := connectionState |};
                baseId := baseId entry |} (channels s)) s)).
Proof.
  intros Hg Ho. unfold RuntimeView.connectOne, getAndAttachChannelServices.
  cbv beta iota delta [bindM gets modify ret assert log].
  rewrite Hg. rewrite (bool_decide_eq_true_2 _ Ho). reflexivity.
Qed.

Lemma connect_queue (l : list IChannel) : forall s,
  Forall (fun ch => (object <$> JsMap.get (ch_id ch) (channels s)) = Some ch) l ->
  exists chs,
    forEach connectOne l s
    = (Ok tt, logged (ChannelConnect ∘ ch_id <$> l) (set_channels chs s))
    /\ (forall k, (object <$> JsMap.get k chs) = (object <$> JsMap.get k (channels s)))
    /\ (forall k, connectedAt k (channels s) -> connectedAt k chs)
    /\ Forall (fun ch => connectedAt (ch_id ch) chs) l.
Proof.
  induction l as [|ch l IH]; intros s Hall.
  - exists (channels s). simpl. split.
    + rewrite logged_nil. by destruct s.
    + split; [reflexivity|]. split; [auto|constructor].
  - apply Forall_cons in Hall as [Hch Hall].
    destruct (JsMap.get (ch_id ch) (channels s)) as [entry|] eqn:Hentry; [|discriminate].
    injection Hch as Hobj.
    pose (e' := {| object := object entry; storage := Some (ChannelStorageService None);
                   connection := Some {| conn_objectId := ch_id ch;
                                         conn_state := connectionState |};
                   baseId := baseId entry |}).
    pose (s1 := logged [ChannelConnect (ch_id ch)]
                  (set_channels (JsMap.set (ch_id ch) e' (channels s)) s)).
    assert (Hobjs : forall k, (object <$> JsMap.get k (channels s1))
                              = (object <$> JsMap.get k (channels s))).
    { intros k. simpl. destruct (decide (ch_id ch = k)) as [<-|Hk].
      - by rewrite JsMap_get_set_eq, Hentry.
      - by rewrite JsMap_get_set_ne. }
    assert (Hconn : forall k, connectedAt k (channels s) -> connectedAt k (channels s1)).
    { intros k (e & Hg & Hcn & Hst). simpl. destruct (decide (ch_id ch = k)) as [<-|Hk].
      - exists e'. by rewrite JsMap_get_set_eq.
      - exists e. by rewrite JsMap_get_set_ne. }
    assert (Hhead : connectedAt (ch_id ch) (channels s1)).
    { exists e'. simpl. by rewrite JsMap_get_set_eq. }
    destruct (IH s1) as (chs & Hrun & Hobjs' & Hconn' & Hall').
    { eapply Forall_impl; [exact Hall|]. intros c Hc. simpl in Hc. by rewrite Hobjs. }
    exists chs. split; [|split; [|split]].
    + simpl. unfold bindM at 1. rewrite (connectOne_ok _ _ _ Hentry Hobj). cbv iota.
      fold e'. fold s1. rewrite Hrun. f_equal.
      unfold s1, logged, set_channels. simpl. by rewrite <- app_assoc.
    + intros k. by rewrite Hobjs', Hobjs.
    + intros k Hk. apply Hconn', Hconn, Hk.
    + constructor; [apply Hconn', Hhead | exact Hall'].
Qed.

(** X11.  Attaching flushes the queue without sending.  While the component
    is local, [attach] (given that every queued channel is the one stored
    under its id) tells the context to attach the component, connects every
    queued channel to the op stream in the order they were registered, and
    ends with the runtime no longer local, [waitAttached] resolved and the
    queue empty.  No message is submitted for the channels: they travel in
    the component's own attach snapshot. *)
Theorem attach_connects_queued_channels (s : t) :
  isLocal s = true ->
  Forall (fun ch => (object <$> JsMap.get (ch_id ch) (channels s)) = Some ch)
    (JsMap.values (attachChannelQueue s)) ->
  let after := attach connectionState s in
  after.1 = Ok tt
  /\ isLocal after.2 = false
  /\ deferredAttached after.2 = true
  /\ attachChannelQueue after.2 = []
  /\ trace after.2
     = (trace s ++ ContextAttach
                   :: (ChannelConnect ∘ ch_id <$> JsMap.values (attachChannelQueue s)))%list
  /\ submittedMessages after.2 = submittedMessages s
  /\ Forall (fun ch =>
               exists e, JsMap.get (ch_id ch) (channels after.2) = Some e
                         /\ object e = ch
                         /\ connection e
                            = Some {| conn_objectId := ch_id ch; conn_state := connectionState |})
       (JsMap.values (attachChannelQueue s)).
Proof.
  intros Hl Hall after.
  destruct (connect_queue (JsMap.values (attachChannelQueue s)) (logged [ContextAttach] s))
    as (chs & Hrun & Hobjs & _ & Hconn); [exact Hall|].
  assert (Hafter : after
            = (Ok tt,
               set_attachChannelQueue []
                 (set_deferredAttached true
                    (set_isLocal false
                       (logged (ChannelConnect ∘ ch_id <$> JsMap.values (attachChannelQueue s))
                          (set_channels chs (logged [ContextAttach] s))))))).
  { subst after. rewrite (attach_local _ Hl).
    rewrite (bindM_ok _ _ _ _ _ (log_logged _ _)).
    rewrite (bindM_ok (gets attachChannelQueue) _ _ _ _ eq_refl).
    rewrite (bindM_ok _ _ _ _ _ Hrun). reflexivity. }
  rewrite Hafter. simpl.
  split; [reflexivity|]. split; [reflexivity|]. split; [reflexivity|]. split; [reflexivity|].
  split; [by rewrite <- app_assoc|]. split.
  - unfold submittedMessages. simpl. rewrite !omap_app. simpl. rewrite app_nil_r.
    by rewrite submitted_connects, app_nil_r.
  - rewrite Forall_forall in Hall, Hconn. apply Forall_forall. intros ch Hch.
    destruct (Hconn ch Hch) as (e & Hg & Hcn & _). exists e.
    split; [exact Hg|]. split; [|exact Hcn].
    specialize (Hall ch Hch). simpl in Hall. rewrite <- Hobjs, Hg in Hall.
    by injection Hall.
Qed.

(** X12.  Attaching twice is attaching once.  When [attach] has returned
    normally the runtime is no longer local, and a further [attach] returns
    at once: nothing is told to the context and no field changes. *)
Theorem attach_is_idempotent (s : t) :
  (attach connectionState s).1 = Ok tt ->
  isLocal (attach connectionState s).2 = false
  /\ attach connectionState (attach connectionState s).2
     = (Ok tt, (attach connectionState s).2).
Proof.
  intros Hok.
  assert (Hstay : forall s0, isLocal s0 = false -> attach connectionState s0 = (Ok tt, s0)).
  { intros s0 H0. unfold attach, bindM, gets, ret. rewrite H0. reflexivity. }
  assert (Hl : isLocal (attach connectionState s).2 = false).
  { destruct (isLocal s) eqn:Hloc; [|by rewrite (Hstay s Hloc)].
    revert Hok. rewrite (attach_local _ Hloc).
    rewrite (bindM_ok _ _ _ _ _ (log_logged _ _)).
    rewrite (bindM_ok (gets attachChannelQueue) _ _ _ _ eq_refl).
    cbv beta delta [bindM].
    destruct (forEach _ _ _) as [[[]|e] s']; simpl; [reflexivity | discriminate]. }
  split; [exact Hl | apply Hstay, Hl].
Qed.

End AttachExtras.

(** ** What the runtime's calls leave standing *)

Section StableFacts.

Import ComponentRuntime RuntimeView.
Local Open Scope rt_scope.

Variable P : t -> Prop.

Lemma stable_ret {A} (a : A) : stable P (ret a).
Proof. intros s H. exact H. Qed.

Lemma stable_throw {A} e : stable P (@throw A e).
Proof. intros s H. exact H. Qed.

Lemma stable_gets {A} (f : t -> A) : stable P (gets f).
Proof. intros s H. exact H. Qed.

Lemma stable_lift {A} (r : result A) : stable P (lift r).
Proof. destruct r; [apply stable_ret | apply stable_throw]. Qed.

Lemma stable_assert b : stable P (assert b).
Proof. destruct b; [apply stable_ret | apply stable_throw]. Qed.

Lemma stable_modify (f : t -> t) : (forall s, P s -> P (f s)) -> stable P (modify f).
Proof. intros Hf s H. simpl. auto. Qed.

Lemma stable_log e : (forall s, P s -> P (logged [e] s)) -> stable P (log e).
Proof. intros Hf. apply stable_modify. exact Hf. Qed.

Lemma stable_bind {A B} (m : M A) (k : A -> M B) :
  stable P m -> (forall a, stable P (k a)) -> stable P (bindM m k).
Proof.
  intros Hm Hk s H. unfold bindM.
  specialize (Hm s H). destruct (m s) as [[a|e] s']; simpl in *.
  - apply Hk, Hm.
  - exact Hm.
Qed.

(** A method that ends by establishing [P] whatever it finds. *)
Lemma stable_establish {A B} (m : M A) (k : A -> M B) :
  stable P m -> (forall a s, P (k a s).2) -> stable P (bindM m k).
Proof.
  intros Hm Hk s H. unfold bindM.
  specialize (Hm s H). destruct (m s) as [[a|e] s']; simpl in *.
  - apply Hk.
  - exact Hm.
Qed.

Lemma stable_forEach {A} (f : A -> M unit) l :
  (forall a, stable P (f a)) -> stable P (forEach f l).
Proof.
  intros Hf. induction l as [|a l IH]; simpl.
  - apply stable_ret.
  - apply stable_bind; [apply Hf | intros _; exact IH].
Qed.

Lemma stable_verifyNotClosed : stable P verifyNotClosed.
Proof.
  apply stable_bind; [apply stable_gets|].
  intros []; [apply stable_throw | apply stable_ret].
Qed.

End StableFacts.

Ltac stable_step :=
  first
    [ apply stable_ret | apply stable_throw | apply stable_gets | apply stable_lift
    | apply stable_assert | apply stable_verifyNotClosed
    | apply stable_log; intros ? ?; first [assumption | reflexivity]
    | apply stable_modify; intros ? ?; first [assumption | reflexivity]
    | apply stable_forEach; intros
    | apply stable_bind; [|intros]
    | match goal with
      | |- RuntimeView.stable _ (match ?x with _ => _ end) => destruct x
      end ].

Ltac stable_all := repeat stable_step.

Section LifecycleExtras.

Import ComponentRuntime RuntimeView.
Local Open Scope rt_scope.

Variable registry : string -> option ISharedObjectExtension.
Variable connectionState : ConnectionState.
Variable documentId : string.
Variable hostRequest : string -> IResponse.
Variable contextSubmitMessage : MessageType -> content -> result Z.
Variable connectionPrepare :
  string -> ISequencedDocumentMessage jsval -> bool -> result context.
Variable connectionProcess :
  string -> ISequencedDocumentMessage jsval -> bool -> context -> result unit.

Local Abbreviation exec :=
  (ComponentRuntime.exec registry connectionState documentId hostRequest
     contextSubmitMessage connectionPrepare connectionProcess).
Local Abbreviation run :=
  (ComponentRuntime.run registry connectionState documentId hostRequest
     contextSubmitMessage connectionPrepare connectionProcess).

Lemma exec_stays_open c :
  c <> CallStop -> stable (fun s => closed s = false) (exec c).
Proof.
  intros Hc. destruct c; try (destruct (Hc eq_refl)); autounfold with rt; stable_all.
Qed.

Lemma exec_stays_attached c : stable (fun s => isLocal s = false) (exec c).
Proof. destruct c; autounfold with rt; stable_all. Qed.

Lemma exec_keeps_attached_resolved c :
  stable (fun s => deferredAttached s = negb (isLocal s)) (exec c).
Proof.
  destruct c; autounfold with rt;
    try (apply stable_bind; [apply stable_gets|]; intros []; simpl;
         [|apply stable_ret];
         apply stable_bind; [stable_step|]; intros ?;
         apply stable_bind; [stable_step|]; intros ?;
         apply stable_establish; [stable_all | reflexivity]);
    stable_all.
Qed.

(** X13.  Only [stop] closes the runtime.  Whatever else is called on an
    open runtime, in whatever order and whether the calls return or throw,
    it stays open. *)
Theorem only_stop_closes (cs : list call) (s : t) :
  closed s = false -> CallStop ∉ cs -> closed (run cs s) = false.
Proof.
  revert s. induction cs as [|c cs IH]; intros s H Hno; simpl; [exact H|].
  apply IH.
  - apply exec_stays_open; [|exact H]. intros ->. apply Hno. by left.
  - intros Hin. apply Hno. by right.
Qed.

(** X14.  Attachment is permanent and [waitAttached] tells it.  A runtime
    that is no longer local never becomes local again, whatever is called
    on it; and on every runtime reached from the constructor, the deferred
    behind [waitAttached] is resolved exactly when the runtime is not
    local -- also after an [attach] that threw half-way. *)
Theorem attachment_is_permanent (cs : list call) :
  (forall s, isLocal s = false -> isLocal (run cs s) = false)
  /\ (forall existing,
        deferredAttached (run cs (create existing))
        = negb (isLocal (run cs (create existing)))).
Proof.
  split.
  - induction cs as [|c cs IH]; intros s H; simpl; [exact H|].
    apply IH, exec_stays_attached, H.
  - intros existing.
    assert (Hinit : deferredAttached (create existing) = negb (isLocal (create existing))).
    { simpl. by rewrite negb_involutive. }
    revert Hinit. generalize (create existing).
    induction cs as [|c cs IH]; intros s H; simpl; [exact H|].
    apply IH, exec_keeps_attached_resolved, H.
Qed.

End LifecycleExtras.

(** ** Snapshots of the component runtime *)

Section SnapshotExtras.

Import ComponentRuntime RuntimeView.
Local Open Scope rt_scope.

Lemma snapshot_entries (chs : list (string * IChannelState)) :
  Forall2
    (fun e (kv : string * IChannelState) =>
       exists treeId,
         e = Tree kv.1
               (entries (ch_snapshot (object kv.2)) ++ [attributesBlob (object kv.2)]) treeId
         /\ (forall b, baseId kv.2 = Some b -> b <> EmptyString -> treeId = Some b)
         /\ (baseId kv.2 = None \/ baseId kv.2 = Some EmptyString ->
             treeId = tree_id (ch_snapshot (object kv.2))))
    (concat (map (fun '(objectId, entry) => snapshotChannel objectId entry) chs))
    (filter (fun kv : string * IChannelState => ch_isRegistered (object kv.2) = true) chs).
Proof.
  induction chs as [|[k entry] chs IH]; [constructor|].
  rewrite filter_cons. simpl. unfold snapshotChannel at 1.
  destruct (ch_isRegistered (object entry)) eqn:Hreg; simpl.
  - constructor; [|exact IH].
    eexists. split; [reflexivity|]. simpl.
    destruct (baseId entry) as [b|]; [|split; [discriminate | reflexivity]].
    case_bool_decide as Hb.
    + split; [intros b' [= <-] Hne; contradiction | reflexivity].
    + split; [by intros b' [= <-] _|].
      intros [Hn|Hn]; [discriminate | injection Hn as ->; contradiction].
  - exact IH.
Qed.

Lemma snapshot_paths (es : list ITreeEntry) (kvs : list (string * IChannelState)) :
  Forall2 (fun e (kv : string * IChannelState) =>
             exists treeId,
               e = Tree kv.1
                     (entries (ch_snapshot (object kv.2)) ++ [attributesBlob (object kv.2)])
                     treeId
               /\ (forall b, baseId kv.2 = Some b -> b <> EmptyString -> treeId = Some b)
               /\ (baseId kv.2 = None \/ baseId kv.2 = Some EmptyString ->
                   treeId = tree_id (ch_snapshot (object kv.2))))
    es kvs ->
  entryPath <$> es = kvs.*1.
Proof.
  induction 1 as [|e kv es kvs (treeId & -> & _) _ IH]; [reflexivity|].
  csimpl. by rewrite IH.
Qed.

(** X15.  A snapshot lists the registered channels, each with its
    attributes.  [snapshotInternal] changes no field, also on a closed
    runtime.  Its entries are one directory per registered channel, in the
    order the channels were added and under the channel's id; a channel that
    is not registered is left out.  Each directory holds the channel's own
    snapshot entries followed by the ".attributes" blob with the channel's
    snapshot format version and type.  It carries the channel's base id
    when one is set (a string that is not empty), and only else the id of
    the channel's own snapshot.  [stop] on an open runtime returns the same
    entries and closes it. *)
Theorem snapshot_lists_registered_channels (s : t) :
  exists es,
    snapshotInternal s = (Ok es, s)
    /\ Forall2
         (fun e (kv : string * IChannelState) =>
            exists treeId,
              e = Tree kv.1
                    (entries (ch_snapshot (object kv.2)) ++ [attributesBlob (object kv.2)])
                    treeId
              /\ (forall b, baseId kv.2 = Some b -> b <> EmptyString -> treeId = Some b)
              /\ (baseId kv.2 = None \/ baseId kv.2 = Some EmptyString ->
                  treeId = tree_id (ch_snapshot (object kv.2))))
         es
         (filter (fun kv : string * IChannelState => ch_isRegistered (object kv.2) = true)
            (channels s))
    /\ entryPath <$> es
       = (filter (fun kv : string * IChannelState => ch_isRegistered (object kv.2) = true)
            (channels s)).*1
    /\ (closed s = false -> stop s = (Ok es, set_closed true s)).
Proof.
  exists (concat (map (fun '(objectId, entry) => snapshotChannel objectId entry) (channels s))).
  split; [reflexivity|].
  pose proof (snapshot_entries (channels s)) as H.
  split; [exact H|]. split.
  - apply snapshot_paths, H.
  - intros Hc. unfold stop.
    rewrite (bindM_ok _ _ _ _ _ (verifyNotClosed_open _ Hc)). reflexivity.
Qed.

End SnapshotExtras.

(** ** The component context around the component runtime *)

Section ContextExtras.

Import ComponentContext.

Variable pkg : string.
Variable id : string.
Variable registry : string -> option ComponentRuntime.ISharedObjectExtension.
Variable hostConnectionState : ComponentRuntime.ConnectionState.
Variable hostId : string.
Variable hostRequest : string -> ComponentRuntime.IResponse.
Variable hostSubmitFn :
  MessageType -> IEnvelope MessageType ComponentRuntime.content -> result Z.
Variable connectionPrepare :
  string -> ISequencedDocumentMessage jsval -> bool -> result ComponentRuntime.context.
Variable connectionProcess :
  string -> ISequencedDocumentMessage jsval -> bool -> ComponentRuntime.context -> result unit.

Local Abbreviation snapshot := (ComponentContext.snapshot pkg id hostSubmitFn).
Local Abbreviation stop := (ComponentContext.stop pkg id hostSubmitFn).
Local Abbreviation process :=
  (ComponentContext.process id hostSubmitFn connectionProcess).
Local Abbreviation prepare :=
  (ComponentContext.prepare id registry hostConnectionState hostId hostSubmitFn
     connectionPrepare).
Local Abbreviation changeConnectionState :=
  (ComponentContext.changeConnectionState id hostSubmitFn).
Local Abbreviation processSignal := (ComponentContext.processSignal id hostSubmitFn).
Local Abbreviation submitMessage := (ComponentContext.submitMessage id hostSubmitFn).
Local Abbreviation submitSignal := (ComponentContext.submitSignal id).

Lemma context_eta c runtime r :
  _componentRuntime c = Some runtime ->
  set_componentRuntime (Some runtime)
    (mkContext (closed c) r (baseId c) (trace c ++ [])) = c.
Proof.
  intros H. destruct c. simpl in *. subst. unfold set_componentRuntime. simpl.
  by rewrite app_nil_r.
Qed.

(** The tree [snapshot] builds around the runtime's entries. *)
Local Abbreviation componentTree c runtime :=
  {| ComponentRuntime.entries :=
       (RuntimeView.snapshotEntries runtime
          ++ [ComponentRuntime.Blob ".component" (stringifyComponent pkg)])%list;
     ComponentRuntime.tree_id :=
       match baseId c with
       | Some b => if bool_decide (b = EmptyString) then None else Some b
       | None => None
       end |}.

Lemma snapshot_started c runtime :
  _componentRuntime c = Some runtime ->
  snapshot c = (Ok (componentTree c runtime), c).
Proof.
  intros H. unfold ComponentContext.snapshot, onRuntime. rewrite H. simpl.
  rewrite drop_all.
  replace (if closed c then [] else hostSubmits id []) with (@nil effect)
    by (by destruct (closed c)).
  by rewrite (context_eta _ _ _ H).
Qed.

Lemma verifyNotClosed_stopped c :
  closed c = true -> verifyNotClosed c = (Throw "Runtime is closed", c).
Proof. intros H. unfold verifyNotClosed. by rewrite H. Qed.

(** X16.  Stopping the context shields the component runtime.  [stop] on an
    open, started context returns the component's snapshot and closes the
    context -- not the component runtime, which it leaves as it was.  From
    then on [changeConnectionState], [prepare], [process], [processSignal],
    [getQuorum], [stop], [submitMessage] and [submitSignal] throw "Runtime
    is closed" before they reach the runtime or the host, and change
    nothing; [snapshot] has no such guard and still answers the same
    tree. *)
Theorem stop_shields_component_runtime (c : t) (runtime : ComponentRuntime.t) :
  closed c = false ->
  _componentRuntime c = Some runtime ->
  let stopped := set_closed true c in
  stop c = (Ok (componentTree c runtime), stopped)
  /\ _componentRuntime stopped = Some runtime
  /\ snapshot stopped = (Ok (componentTree c runtime), stopped)
  /\ (forall value clientId,
        changeConnectionState value clientId stopped = (Throw "Runtime is closed", stopped))
  /\ (forall m local, prepare m local stopped = (Throw "Runtime is closed", stopped))
  /\ (forall m local ctx, process m local ctx stopped = (Throw "Runtime is closed", stopped))
  /\ (forall ty local, processSignal ty local stopped = (Throw "Runtime is closed", stopped))
  /\ getQuorum stopped = (Throw "Runtime is closed", stopped)
  /\ stop stopped = (Throw "Runtime is closed", stopped)
  /\ (forall ty content, submitMessage ty content stopped = (Throw "Runtime is closed", stopped))
  /\ (forall ty content, submitSignal ty content stopped = (Throw "Runtime is closed", stopped)).
Proof.
  intros Hc Hrt stopped.
  assert (Hs : snapshot stopped = (Ok (componentTree c runtime), stopped)).
  { apply (snapshot_started stopped runtime). exact Hrt. }
  split.
  - unfold ComponentContext.stop, verifyNotClosed. rewrite Hc. exact Hs.
  - split; [exact Hrt|]. split; [exact Hs|].
    repeat split; intros; reflexivity.
Qed.


Lemma hostSubmits_attaches (ms : list ComponentRuntime.IAttachMessage) :
  hostSubmits id
    ((fun m => ComponentRuntime.ContextSubmitMessage Attach (ComponentRuntime.AttachContent m))
       <$> ms)
  = (fun m => HostSubmitFn Operation
                {| env_address := id; env_content := ComponentRuntime.AttachContent m;
                   env_type := Attach |}) <$> ms.
Proof. induction ms as [|m ms IH]; [reflexivity|]. csimpl. by rewrite <- IH. Qed.

(** X18.  A reconnect reaches the host as operations of the component.  On
    an open context whose component runtime is open, and with a host that
    accepts messages, [changeConnectionState] with Connected hands the host
    one message for every attach message still pending in the runtime, in
    order: always of type Operation, in an envelope addressed to the
    component's id that carries the Attach type and the attach message
    inside.  It then raises the connection event on the context.  For any
    other state the host receives nothing. *)
Theorem reconnect_reaches_host_as_operations
    (c : t) (runtime : ComponentRuntime.t) (value : ComponentRuntime.ConnectionState)
    (clientId : string) :
  closed c = false ->
  _componentRuntime c = Some runtime ->
  ComponentRuntime.closed runtime = false ->
  (forall envelope, is_ok (hostSubmitFn Operation envelope) = true) ->
  let after := changeConnectionState value clientId c in
  after.1 = Ok tt
  /\ closed after.2 = false
  /\ trace after.2
     = (trace c
        ++ (if bool_decide (value = ComponentRuntime.Connected)
            then (fun m => HostSubmitFn Operation
                             {| env_address := id;
                                env_content := ComponentRuntime.AttachContent m;
                                env_type := Attach |})
                   <$> JsMap.values (ComponentRuntime.pendingAttach runtime)
            else [])
        ++ [RaiseConnectedEvent value clientId])%list.
Proof.
  intros Hc Hrt Hopen Hhost after. subst after.
  unfold ComponentContext.changeConnectionState, verifyNotClosed, onRuntime.
  rewrite Hc, Hrt.
  rewrite changeConnectionState_open; [|exact Hopen|].
  - simpl. split; [reflexivity|]. split; [exact Hc|].
    rewrite Hc. rewrite <- !app_assoc. f_equal.
    rewrite drop_app_length.
    unfold hostSubmits. rewrite omap_app. simpl. rewrite app_nil_r.
    fold (hostSubmits id). f_equal.
    case_bool_decide; [apply hostSubmits_attaches | reflexivity].
  - intros m. unfold ComponentContext.submitMessage, submitOp. rewrite Hc. simpl.
    apply Hhost.
Qed.

End ContextExtras.

(** ** A channel attached by another client *)

Section RemoteAttachExtras.

Import ComponentRuntime RuntimeView.
Local Open Scope rt_scope.

Variable registry : string -> option ISharedObjectExtension.
Variable connectionState : ConnectionState.
Variable documentId : string.
Variable hostRequest : string -> IResponse.
Variable contextSubmitMessage : MessageType -> content -> result Z.
Variable connectionPrepare :
  string -> ISequencedDocumentMessage jsval -> bool -> result context.
Variable connectionProcess :
  string -> ISequencedDocumentMessage jsval -> bool -> context -> result unit.

(** X19.  A remote attach creates the channel from its snapshot.  On an open
    runtime, preparing a remote Attach message of a registered type loads
    the channel through the extension -- from the snapshot in the message,
    at the message's minimum sequence number, with the message's origin or
    else the document id as branch -- and sends nothing; processing the
    message with what [prepare] returned stores the channel under its id,
    connected and without base id, resolves [getChannel] for that id and
    emits "op" with the channel as target. *)
Theorem remote_attach_creates_channel
    (s : t) (m : ISequencedDocumentMessage content) (attachMessage : IAttachMessage)
    (extension : ISharedObjectExtension) (value : IChannel) :
  closed s = false ->
  type m = Attach ->
  contents m = AttachContent attachMessage ->
  registry (am_type attachMessage) = Some extension ->
  let services :=
    {| deltaConnection := {| conn_objectId := am_id attachMessage;
                             conn_state := connectionState |};
       objectStorage := LocalChannelStorageService (am_snapshot attachMessage);
       svc_baseId := None |} in
  ext_load extension (am_id attachMessage) (minimumSequenceNumber m) services
    (default documentId (origin m)) = Ok value ->
  ch_id value = am_id attachMessage ->
  (forall channel,
     JsMap.get (am_id attachMessage) (channelsDeferred s) <> Some (Some channel)) ->
  let channelState :=
    {| object := value; storage := Some (objectStorage services);
       connection := Some (deltaConnection services); baseId := None |} in
  let prepared := prepare registry connectionState documentId connectionPrepare m false s in
  let processed := process connectionProcess m false (CtxChannelState channelState) prepared.2 in
  prepared.1 = Ok (CtxChannelState channelState)
  /\ channels prepared.2 = channels s
  /\ submittedMessages prepared.2 = submittedMessages s
  /\ processed.1 = Ok tt
  /\ JsMap.get (am_id attachMessage) (channels processed.2) = Some channelState
  /\ getChannel (am_id attachMessage) processed.2 = (Ok (Some value), processed.2)
  /\ last (trace processed.2) = Some (EmitOp m (Some value)).
Proof.
  intros Hc Hty Hm Hreg services Hload Hid Hfresh channelState prepared processed.
  assert (Hprep : prepared
                  = (Ok (CtxChannelState channelState),
                     logged [ExtensionLoad (am_id attachMessage) (am_type attachMessage)] s)).
  { subst prepared. unfold prepare. rewrite Hty. unfold prepareAttach.
    rewrite (bindM_ok _ _ _ _ _ (verifyNotClosed_open _ Hc)). rewrite Hm.
    unfold loadChannel. rewrite Hreg.
    cbv beta iota delta [bindM ret log modify lift]. fold services. rewrite Hload.
    reflexivity. }
  subst processed. rewrite Hprep. simpl.
  split; [reflexivity|]. split; [reflexivity|].
  split; [by rewrite submittedMessages_logged, app_nil_r|].
  unfold process. rewrite Hty. unfold processAttach. rewrite Hm.
  cbv beta iota delta [bindM verifyNotClosed gets modify ret throw resolveDeferred log attachId].
  repeat (progress (simpl; rewrite ?Hc, ?Hid, ?JsMap_get_set_eq)).
  destruct (JsMap.get (am_id attachMessage) (channelsDeferred s)) as [[old|]|] eqn:Hd.
  - destruct (Hfresh old eq_refl).
  - repeat (progress (simpl; rewrite ?Hc, ?Hid, ?JsMap_get_set_eq)).
    split; [reflexivity|]. split; [reflexivity|]. split; [|apply last_snoc].
    apply getChannel_known; [reflexivity|]. simpl. apply JsMap_get_set_eq.
  - repeat (progress (simpl; rewrite ?Hc, ?Hid, ?JsMap_get_set_eq)).
    split; [reflexivity|]. split; [reflexivity|]. split; [|apply last_snoc].
    apply getChannel_known; [reflexivity|]. simpl. apply JsMap_get_set_eq.
Qed.

End RemoteAttachExtras.

(** ** Progress bars *)

Section JsFacts.

Lemma indexOf_range x (l : list string) : -1 <= Js.indexOf x l < Z.of_nat (length l).
Proof.
  induction l as [|y l IH]; simpl; [lia|].
  case_bool_decide; [lia|]. case_bool_decide; lia.
Qed.

Lemma indexOf_absent x (l : list string) : Js.indexOf x l = -1 <-> x ∉ l.
Proof.
  induction l as [|y l IH]; simpl.
  - split; [intros _; apply not_elem_of_nil | reflexivity].
  - case_bool_decide as Hy.
    + subst. split; [discriminate | intros H; destruct H; by left].
    + case_bool_decide as Hi.
      * split; [|reflexivity]. intros _ Hin.
        apply elem_of_cons in Hin as [->|Hin]; [contradiction|]. by apply IH in Hin.
      * split; [pose proof (indexOf_range x l); lia|]. intros Hn. destruct Hi. apply IH. intros Hin. apply Hn. by right.
Qed.

Lemma substring_all (s : string) : String.substring 0 (String.length s) s = s.
Proof. induction s as [|c s IH]; simpl; [reflexivity | by rewrite IH]. Qed.

Lemma substring_none (s : string) : String.substring 0 0 s = EmptyString.
Proof. by destruct s. Qed.

Lemma substr_from_one c (s : string) : Js.substr (String c s) 1 None = s.
Proof.
  unfold Js.substr. simpl String.length.
  replace (1 <? 0)%Z with false by reflexivity.
  replace (Z.to_nat (Z.min 1 (Z.of_nat (S (String.length s))))) with 1%nat by lia.
  replace (Z.to_nat _) with (String.length s) by lia.
  simpl. apply substring_all.
Qed.

Lemma substr_prefix_all (s : string) (n : Z) :
  Z.of_nat (String.length s) <= n -> Js.substr s 0 (Some n) = s.
Proof.
  intros Hn. unfold Js.substr. replace (0 <? 0)%Z with false by reflexivity.
  replace (Z.to_nat (Z.min 0 _)) with 0%nat by lia.
  replace (Z.to_nat _) with (String.length s) by lia.
  apply substring_all.
Qed.

Lemma substr_prefix_none (s : string) : Js.substr s 0 (Some 0) = EmptyString.
Proof.
  unfold Js.substr. replace (0 <? 0)%Z with false by reflexivity.
  replace (Z.to_nat (Z.min 0 _)) with 0%nat by lia.
  replace (Z.to_nat _) with 0%nat by lia.
  apply substring_none.
Qed.

Lemma stringIndexOf_after_first c (s : string) :
  Js.stringIndexOf "/" 1 (String c s)
  = if bool_decide (Js.stringIndexOf "/" 0 s = -1) then -1 else Js.stringIndexOf "/" 0 s + 1.
Proof.
  unfold Js.stringIndexOf. simpl. destruct (String.index 0 "/" s) as [i|].
  - rewrite bool_decide_eq_false_2 by lia. lia.
  - by rewrite bool_decide_eq_true_2.
Qed.

Lemma stringIndexOf_leading_slash (s : string) : Js.stringIndexOf "/" 0 (String "/" s) = 0.
Proof. unfold Js.stringIndexOf. simpl. by destruct s. Qed.

Lemma stringIndexOf_range search n (s : string) : -1 <= Js.stringIndexOf search n s.
Proof. unfold Js.stringIndexOf. destruct (String.index n search s); lia. Qed.

End JsFacts.

Section ProgressExtras.

Import ProgressBars ProgressBars.Collection.

Lemma trimmed_leading_slash (s : string) :
  trimmed (String "/" s)
  = if bool_decide (Js.stringIndexOf "/" 0 s = -1) then s else EmptyString.
Proof.
  unfold trimmed. rewrite substr_from_one, stringIndexOf_after_first.
  pose proof (stringIndexOf_range "/" 0 s) as Hr.
  destruct (decide (Js.stringIndexOf "/" 0 s = -1)) as [Hs|Hs].
  - rewrite !(bool_decide_eq_true_2 _ Hs). rewrite bool_decide_eq_true_2 by reflexivity.
    apply substr_prefix_all. simpl. lia.
  - rewrite !(bool_decide_eq_false_2 _ Hs). rewrite bool_decide_eq_false_2 by lia.
    rewrite stringIndexOf_leading_slash. apply substr_prefix_none.
Qed.

(** X20.  A request is routed on what follows the leading slash -- unless
    more follows.  For a url "/key" whose key holds no further slash, the
    collection waits for the key in the root map and answers with the
    progress bar stored under it (status 200, "prague/component"); it fails
    with a [TypeError] if the key is in the root map but no bar is, and
    stays pending while the key is not in the root map.  For "/" and for
    every url that holds a second slash, such as "/key/more", the segment
    comes out empty and the collection answers with itself: the request
    never reaches a bar. *)
Theorem collection_request_routes_on_first_segment
    (rootHas : string -> bool) (s : string) (c : t) :
  (Js.stringIndexOf "/" 0 s = -1 -> s <> EmptyString ->
   request rootHas (String "/" s) c
   = if rootHas s then
       match JsMap.get s (progressBars c) with
       | Some bar => Ok (Response 200 "prague/component" (TargetBar bar))
       | None => Throw "TypeError"
       end
     else Ok Pending)
  /\ (Js.stringIndexOf "/" 0 s <> -1 ->
      request rootHas (String "/" s) c = Ok (Response 200 "prague/component" TargetCollection))
  /\ request rootHas "/" c = Ok (Response 200 "prague/component" TargetCollection).
Proof.
  split; [|split].
  - intros Hs Hne. unfold request. rewrite trimmed_leading_slash.
    rewrite (bool_decide_eq_true_2 _ Hs), (bool_decide_eq_false_2 _ Hne).
    destruct (rootHas s); [|reflexivity]. by destruct (JsMap.get s (progressBars c)).
  - intros Hs. unfold request. rewrite trimmed_leading_slash.
    rewrite (bool_decide_eq_false_2 _ Hs). reflexivity.
  - reflexivity.
Qed.

(** X21.  [query] answers exactly the interfaces that [list] names.  For
    every component built on [supportedInterfaces] -- the progress bar, the
    progress collection, the null chaincode -- [query(id)] returns the
    component itself when [id] is one of the names [list()] returns, and
    [undefined] otherwise. *)
Theorem query_answers_listed_interfaces {A : Type} (this : A) (id : string) :
  (forall supportedInterfaces,
     query supportedInterfaces this id
     = if bool_decide (id ∈ list_ supportedInterfaces) then Some this else None)
  /\ (query barInterfaces this id = Some this <-> id ∈ list_ barInterfaces)
  /\ (query collectionInterfaces this id = Some this <-> id ∈ list_ collectionInterfaces)
  /\ (NullChaincode.query this id = Some this <-> id = "IRuntimeFactory").
Proof.
  assert (Hq : forall supportedInterfaces,
             query supportedInterfaces this id
             = if bool_decide (id ∈ list_ supportedInterfaces) then Some this else None).
  { intros l. unfold query, list_. case_bool_decide as Hi; simpl.
    - apply indexOf_absent in Hi. by rewrite bool_decide_eq_false_2.
    - rewrite bool_decide_eq_true_2; [reflexivity|].
      destruct (decide (id ∈ l)) as [Hin|Hin]; [exact Hin|].
      by apply indexOf_absent in Hin. }
  split; [exact Hq|].
  assert (Hiff : forall l, query l this id = Some this <-> id ∈ list_ l).
  { intros l. rewrite Hq. case_bool_decide as Hin; split; intros H;
      [exact Hin | reflexivity | discriminate | contradiction]. }
  split; [apply Hiff|]. split; [apply Hiff|].
  unfold NullChaincode.query. rewrite Hiff. unfold list_, NullChaincode.supportedInterfaces.
  rewrite list_elem_of_singleton. reflexivity.
Qed.

Lemma wellKeyed_set key bar c tr :
  wellKeyed c -> keyId bar = key -> url bar = c_url c ++ "/" ++ key ->
  wellKeyed (mkCollection (c_url c) (JsMap.set key bar (progressBars c)) tr).
Proof.
  intros Hw Hk Hu k b. simpl. destruct (decide (key = k)) as [<-|Hne].
  - rewrite JsMap_get_set_eq. intros H. injection H as <-. auto.
  - rewrite JsMap_get_set_ne by exact Hne. apply Hw.
Qed.

(** X22.  A changed value reaches its bar, and only its bar.  When the
    root map reports a change under a key, the collection afterwards holds
    a bar under that key with the root map's value for it, the key as its
    [keyId] and the url "<collection url>/<key>"; every other bar is as
    before.  A bar that existed keeps its views and renders each of them
    with the new value; a key seen for the first time gets a new bar and
    "progressAdded" is emitted with "/<key>".  Bars stay filed under their
    own key. *)
Theorem value_change_reaches_its_bar (rootGet : string -> jsval) (key : string) (c : t) :
  wellKeyed c ->
  let c' := onValueChanged rootGet key c in
  wellKeyed c'
  /\ (exists bar,
        JsMap.get key (progressBars c') = Some bar
        /\ value bar = rootGet key /\ keyId bar = key /\ url bar = c_url c ++ "/" ++ key)
  /\ (forall k, k <> key -> JsMap.get k (progressBars c') = JsMap.get k (progressBars c))
  /\ (forall bar,
        JsMap.get key (progressBars c) = Some bar ->
        (views <$> JsMap.get key (progressBars c')) = Some (views bar)
        /\ trace c' = (trace c ++ ((fun view => Render view (rootGet key)) <$> views bar))%list)
  /\ (JsMap.get key (progressBars c) = None ->
      trace c' = (trace c ++ [EmitProgressAdded ("/" ++ key)])%list).
Proof.
  intros Hw c'. subst c'. unfold onValueChanged.
  destruct (JsMap.get key (progressBars c)) as [bar|] eqn:Hget; simpl.
  - destruct (Hw key bar Hget) as [Hk Hu].
    split; [by apply wellKeyed_set|]. split.
    + eexists. rewrite JsMap_get_set_eq. split; [reflexivity|]. simpl. auto.
    + split; [intros k Hk'; by apply JsMap_get_set_ne|]. split; [|discriminate].
      intros b Hb. injection Hb as <-. rewrite JsMap_get_set_eq. auto.
  - split; [by apply wellKeyed_set|]. split.
    + eexists. rewrite JsMap_get_set_eq. split; [reflexivity|]. simpl. auto.
    + split; [intros k Hk'; by apply JsMap_get_set_ne|]. split; [discriminate|]. auto.
Qed.

End ProgressExtras.

(** ** The test delta queue *)

Section QueueExtras.

Import TestDeltaQueue.

Lemma settled_create : settled create.
Proof. unfold settled. simpl. split; [constructor | reflexivity]. Qed.

Lemma settled_pause q : settled q -> settled (pause q).
Proof.
  unfold settled, pause. destruct (isPaused q) eqn:Hp; simpl.
  - by rewrite Hp.
  - intros [Hall _]. unfold isPaused. simpl. exists (deferreds q). auto.
Qed.

Lemma settled_resume q : settled q -> settled (resume q).2.
Proof.
  unfold settled, resume. destruct (isPaused q) eqn:Hp.
  - intros (rest & Hd & Hr & Hall). rewrite Hr. unfold isPaused. simpl. rewrite Hd.
    rewrite insert_app_r_alt by lia. rewrite Nat.sub_diag. simpl. split.
    + apply Forall_app. split; [exact Hall | by constructor].
    + rewrite length_app. simpl. lia.
  - intros [Hall Hr]. destruct (resumeDeferred q) as [d|]; unfold isPaused; simpl.
    + split; [|by rewrite length_insert].
      apply Forall_insert; [exact Hall | reflexivity].
    + auto.
Qed.

Lemma settled_run cs : forall q, settled q -> settled (run cs q).
Proof.
  induction cs as [|c cs IH]; intros q H; [exact H|]. simpl. apply IH.
  destruct c; [by apply settled_pause | by apply settled_resume].
Qed.

(** X23.  No waiter is left behind.  After any sequence of [pause] and
    [resume] calls on a new queue: while the queue is paused,
    [waitForResume] answers the promise of the newest deferred, which is
    the only one not yet resolved -- a second [pause] makes no new one --
    and every promise handed out before has been resolved; while it is not
    paused, every deferred ever made is resolved and [waitForResume] fails
    its assertion.  A [resume] before the first [pause] is a [TypeError]
    that still leaves the queue marked as running. *)
Theorem queue_leaves_no_waiter_behind (cs : list call) :
  let q := run cs create in
  (isPaused q = true ->
   exists d,
     waitForResume q = Ok d
     /\ deferreds q !! d = Some false
     /\ (forall d', d' <> d -> (d' < length (deferreds q))%nat -> deferreds q !! d' = Some true)
     /\ deferreds (pause q) = deferreds q
     /\ Forall (fun resolved => resolved = true) (deferreds (resume q).2))
  /\ (isPaused q = false ->
      waitForResume q = Throw "AssertionError"
      /\ Forall (fun resolved => resolved = true) (deferreds q))
  /\ resume create
     = (Throw "TypeError",
        {| paused := Some false; resumeDeferred := None; deferreds := [] |}).
Proof.
  intros q. pose proof (settled_run cs create settled_create) as H. fold q in H.
  pose proof (settled_resume q H) as Hres.
  split; [|split; [|reflexivity]].
  - intros Hp. unfold settled in H. rewrite Hp in H. destruct H as (rest & Hd & Hr & Hall).
    exists (length rest). unfold waitForResume. rewrite Hp, Hr, Hd.
    split; [reflexivity|]. split.
    + rewrite lookup_app_r by lia. by rewrite Nat.sub_diag.
    + split.
      * intros d' Hne Hlt. rewrite length_app in Hlt. simpl in Hlt.
        rewrite lookup_app_l by lia.
        destruct (lookup_lt_is_Some_2 rest d') as [b Hb]; [lia|].
        rewrite Hb. f_equal. rewrite Forall_forall in Hall. apply Hall.
        by apply list_elem_of_lookup_2 in Hb.
      * split; [unfold pause; by rewrite Hp, Hd|].
        unfold settled in Hres.
        assert (Hnp : isPaused (resume q).2 = false).
        { unfold resume. by destruct (resumeDeferred q). }
        rewrite Hnp in Hres. apply Hres.
  - intros Hp. unfold waitForResume. rewrite Hp. split; [reflexivity|].
    unfold settled in H. rewrite Hp in H. apply H.
Qed.

End QueueExtras.

(** ** What the runtime holds, it keeps *)

Section KeepFacts.

Import ComponentRuntime RuntimeView.
Local Open Scope rt_scope.

Variable registry : string -> option ISharedObjectExtension.
Variable connectionState : ConnectionState.
Variable documentId : string.
Variable hostRequest : string -> IResponse.
Variable contextSubmitMessage : MessageType -> content -> result Z.
Variable connectionPrepare :
  string -> ISequencedDocumentMessage jsval -> bool -> result context.
Variable connectionProcess :
  string -> ISequencedDocumentMessage jsval -> bool -> context -> result unit.

Variable id : string.
Variable channel : IChannel.

(** The deferred of [id] is resolved with [channel]; a channel is stored
    under [id]. *)
Local Abbreviation promised :=
  (fun s : t => JsMap.get id (channelsDeferred s) = Some (Some channel)).
Local Abbreviation stored := (fun s : t => is_Some (JsMap.get id (channels s))).

Lemma promised_reserve id' : stable promised (reserve id').
Proof.
  intros s H. unfold reserve, bindM, gets, modify, ret, JsMap.has.
  destruct (JsMap.get id' (channelsDeferred s)) as [d|] eqn:Hd; simpl; [exact H|].
  rewrite JsMap_get_set_ne; [exact H|].
  intros ->. simpl in H. congruence.
Qed.

Lemma promised_resolveDeferred id' channel' : stable promised (resolveDeferred id' channel').
Proof.
  intros s H. unfold resolveDeferred, bindM, gets, modify.
  simpl in H.
  destruct (JsMap.get id' (channelsDeferred s)) as [d|] eqn:Hd; simpl.
  - destruct (decide (id' = id)) as [->|Hne].
    + rewrite JsMap_get_set_eq. rewrite H in Hd. injection Hd as <-.
      reflexivity.
    + rewrite JsMap_get_set_ne by exact Hne. exact H.
  - rewrite JsMap_get_set_ne; [exact H|]. intros ->. congruence.
Qed.

Lemma stored_set (chs : JsMap.t IChannelState) k v :
  is_Some (JsMap.get id chs) -> is_Some (JsMap.get id (JsMap.set k v chs)).
Proof.
  intros H. destruct (decide (k = id)) as [->|Hne].
  - rewrite JsMap_get_set_eq. eauto.
  - by rewrite JsMap_get_set_ne.
Qed.

Lemma stored_fmap (chs : JsMap.t IChannelState) (f : IChannelState -> IChannelState) :
  is_Some (JsMap.get id chs) -> is_Some (JsMap.get id (prod_map (fun k => k) f <$> chs)).
Proof.
  induction chs as [|[k v] chs IH]; csimpl; [auto|].
  case_bool_decide; [eauto | exact IH].
Qed.

Lemma stored_getAndAttachChannelServices channel' :
  stable stored (getAndAttachChannelServices connectionState channel').
Proof.
  intros s H. unfold getAndAttachChannelServices, bindM, gets, modify, ret, throw, assert.
  destruct (JsMap.get (ch_id channel') (channels s)) as [entry|]; [|exact H].
  case_bool_decide; simpl; [|exact H]. by apply stored_set.
Qed.

Lemma stored_processOp m local ctx : stable stored (processOp connectionProcess m local ctx).
Proof.
  intros s H. unfold processOp. unfold bindM at 1. unfold verifyNotClosed, bindM at 1, gets.
  destruct (closed s); simpl; [exact H|].
  unfold bindM, gets, modify, throw, log, lift, ret.
  destruct (envelopeTarget (contents m) (channels s)) as [[[address inner] details]|]; [|exact H].
  simpl. destruct (connection details); simpl; [|by apply stored_set].
  destruct (connectionProcess _ _ _ _); simpl; by apply stored_set.
Qed.

End KeepFacts.

Ltac keep_step :=
  first
    [ apply promised_reserve | apply promised_resolveDeferred
    | apply stored_getAndAttachChannelServices | apply stored_processOp
    | apply stable_ret | apply stable_throw | apply stable_gets | apply stable_lift
    | apply stable_assert | apply stable_verifyNotClosed
    | apply stable_log; intros ? ?; assumption
    | apply stable_modify; intros ? ?;
      first [ assumption | apply stored_set; assumption | apply stored_fmap; assumption ]
    | apply stable_forEach; intros
    | apply stable_bind; [|intros]
    | match goal with
      | |- RuntimeView.stable _ (match ?x with _ => _ end) => destruct x
      end ].

Ltac keep_all := repeat keep_step.

Create HintDb rtcalls discriminated.
#[local] Hint Unfold ComponentRuntime.exec ComponentRuntime.void
  ComponentRuntime.createAndAttachComponent ComponentRuntime.request
  ComponentRuntime.registerRequestHandler ComponentRuntime.getChannel
  ComponentRuntime.createChannel ComponentRuntime.registerChannel
  ComponentRuntime.attach ComponentRuntime.changeConnectionState
  ComponentRuntime.getQuorum ComponentRuntime.snapshot ComponentRuntime.save
  ComponentRuntime.uploadBlob ComponentRuntime.getBlob
  ComponentRuntime.getBlobMetadata ComponentRuntime.stop ComponentRuntime.close
  ComponentRuntime.prepare ComponentRuntime.process ComponentRuntime.processSignal
  ComponentRuntime.snapshotInternal ComponentRuntime.submitMessage
  ComponentRuntime.submitSignal ComponentRuntime.notifyPendingMessages
  ComponentRuntime.waitAttached ComponentRuntime.error ComponentRuntime.submit
  ComponentRuntime.attachChannel
  ComponentRuntime.prepareOp
  ComponentRuntime.prepareAttach ComponentRuntime.processAttach
  ComponentRuntime.loadChannel : rtcalls.

Section KeepExtras.

Import ComponentRuntime RuntimeView.
Local Open Scope rt_scope.

Variable registry : string -> option ISharedObjectExtension.
Variable connectionState : ConnectionState.
Variable documentId : string.
Variable hostRequest : string -> IResponse.
Variable contextSubmitMessage : MessageType -> content -> result Z.
Variable connectionPrepare :
  string -> ISequencedDocumentMessage jsval -> bool -> result context.
Variable connectionProcess :
  string -> ISequencedDocumentMessage jsval -> bool -> context -> result unit.

Local Abbreviation exec :=
  (ComponentRuntime.exec registry connectionState documentId hostRequest
     contextSubmitMessage connectionPrepare connectionProcess).
Local Abbreviation run :=
  (ComponentRuntime.run registry connectionState documentId hostRequest
     contextSubmitMessage connectionPrepare connectionProcess).

Lemma exec_keeps_promise id channel c :
  stable (fun s => JsMap.get id (channelsDeferred s) = Some (Some channel)) (exec c).
Proof. destruct c; autounfold with rtcalls; keep_all. Qed.

Lemma exec_keeps_channel id c :
  stable (fun s => is_Some (JsMap.get id (channels s))) (exec c).
Proof. destruct c; autounfold with rtcalls; keep_all. Qed.

(** X25.  What the runtime holds, it keeps.  Whatever is called on a
    runtime afterwards, in whatever order and whether the calls return or
    throw: a channel handed out under an id stays the channel [getChannel]
    answers for that id -- creating or attaching another channel under the
    same id does not replace it -- and an id under which a channel is stored
    never loses its channel.  No call removes a channel. *)
Theorem runtime_keeps_what_it_holds (cs : list call) (s : t) (id : string) :
  (forall channel,
     JsMap.get id (channelsDeferred s) = Some (Some channel) ->
     JsMap.get id (channelsDeferred (run cs s)) = Some (Some channel))
  /\ (is_Some (JsMap.get id (channels s)) -> is_Some (JsMap.get id (channels (run cs s)))).
Proof.
  split.
  - intros channel. revert s. induction cs as [|c cs IH]; intros s H; simpl; [exact H|].
    apply IH. by apply exec_keeps_promise.
  - revert s. induction cs as [|c cs IH]; intros s H; simpl; [exact H|].
    apply IH. by apply exec_keeps_channel.
Qed.

End KeepExtras.

(** ** Instances at the scenarios *)

Lemma cell_local_change_reaches_idle_replica_witness :
  Cell.pendingClientSequenceNumber Cell.create = -1
  /\ type Scenario.setShared = Operation
  /\ CellWire.submitted (Cell.set (SharedObject "root") false 1 Cell.create)
     = Some (contents Scenario.setShared)
  /\ Cell.prepareCore Scenario.cellGetChannel Scenario.setShared false
     = Ok (Some (SharedObject "root"))
  /\ exists b',
      Cell.processCore Scenario.setShared false (SharedObject "root") Cell.create = Ok b'
      /\ Cell.data b' = SharedObject "root".
Proof.
  assert (H1 : Cell.pendingClientSequenceNumber Cell.create = -1) by reflexivity.
  assert (H2 : type Scenario.setShared = Operation) by reflexivity.
  assert (H3 : CellWire.submitted (Cell.set (SharedObject "root") false 1 Cell.create)
               = Some (contents Scenario.setShared)) by reflexivity.
  split; [exact H1|]. split; [exact H2|]. split; [exact H3|].
  destruct (cell_local_change_reaches_idle_replica Scenario.cellGetChannel Cell.create
              Cell.create Scenario.setShared H1 H2) as [Hset _].
  destruct (Hset (SharedObject "root") false 1 H3) as (_ & Hprep & Hproc).
  assert (H4 : Cell.prepareCore Scenario.cellGetChannel Scenario.setShared false
               = Ok (Some (SharedObject "root"))).
  { rewrite (Hprep "root" eq_refl). reflexivity. }
  split; [exact H4|].
  destruct (Hproc (SharedObject "root") H4) as (b' & Hb & Hd & _).
  exists b'. split; [exact Hb | exact Hd].
Defined.

Lemma created_channel_is_served_witness :
  ComponentRuntime.closed Scenario.attached = false
  /\ Sample.registry "text" = Some Sample.textExtension
  /\ ComponentRuntime.getChannel "root" Scenario.withRoot
     = (Ok (Some Scenario.root), Scenario.withRoot).
Proof.
  assert (H1 : ComponentRuntime.closed Scenario.attached = false) by reflexivity.
  assert (H2 : Sample.registry "text" = Some Sample.textExtension) by reflexivity.
  assert (H3 : forall channel,
             JsMap.get "root" (ComponentRuntime.channelsDeferred Scenario.attached)
             <> Some (Some channel)) by (intros channel; discriminate).
  split; [exact H1|]. split; [exact H2|].
  destruct (created_channel_is_served Sample.registry Sample.hostRequest Scenario.attached
              "root" "text" Sample.textExtension H1 H2 H3) as (_ & _ & _ & Hget & _).
  exact Hget.
Defined.

Lemma recreated_channel_keeps_first_promise_witness :
  ComponentRuntime.closed Scenario.withInk = false
  /\ JsMap.get "root" (ComponentRuntime.channelsDeferred Scenario.withInk)
     = Some (Some (Scenario.inkChannel "root"))
  /\ Scenario.inkChannel "root" <> ComponentRuntime.ext_create Sample.textExtension "root"
  /\ (ComponentRuntime.object
        <$> JsMap.get "root"
              (ComponentRuntime.channels
                 (ComponentRuntime.createChannel Scenario.registry "root" "text"
                    Scenario.withInk).2))
     = Some (Sample.textChannel "root")
  /\ (ComponentRuntime.getChannel "root"
        (ComponentRuntime.createChannel Scenario.registry "root" "text" Scenario.withInk).2).1
     = Ok (Some (Scenario.inkChannel "root")).
Proof.
  assert (H1 : ComponentRuntime.closed Scenario.withInk = false) by reflexivity.
  assert (H2 : Scenario.registry "text" = Some Sample.textExtension) by reflexivity.
  assert (H3 : JsMap.get "root" (ComponentRuntime.channelsDeferred Scenario.withInk)
               = Some (Some (Scenario.inkChannel "root"))) by reflexivity.
  split; [exact H1|]. split; [exact H3|]. split; [discriminate|].
  destruct (recreated_channel_keeps_first_promise Scenario.registry Scenario.withInk
              "root" "text" Sample.textExtension (Scenario.inkChannel "root") H1 H2 H3)
    as (_ & Hnew & Hget).
  split; [rewrite Hnew; reflexivity|]. rewrite Hget. reflexivity.
Defined.

Lemma requested_channel_arrives_with_attach_witness :
  ComponentRuntime.closed Scenario.attached = false
  /\ JsMap.get "notes" (ComponentRuntime.channelsDeferred Scenario.attached) = None
  /\ (ComponentRuntime.getChannel "notes" Scenario.attached).1 = Ok None
  /\ (ComponentRuntime.process Sample.connectionProcess
        (Sample.runtimeMessage Attach (ComponentRuntime.AttachContent Scenario.attachNotes))
        false (ComponentRuntime.CtxChannelState Scenario.notesState)
        (ComponentRuntime.getChannel "notes" Scenario.attached).2).1 = Ok tt.
Proof.
  assert (H1 : ComponentRuntime.closed Scenario.attached = false) by reflexivity.
  assert (H2 : JsMap.get "notes" (ComponentRuntime.channelsDeferred Scenario.attached) = None)
    by reflexivity.
  split; [exact H1|]. split; [exact H2|].
  destruct (requested_channel_arrives_with_attach Sample.connectionProcess Scenario.attached
              "notes"
              (Sample.runtimeMessage Attach (ComponentRuntime.AttachContent Scenario.attachNotes))
              Scenario.notesState H1 H2 eq_refl eq_refl eq_refl) as (Ha & Hd & _).
  split; [exact Ha | exact Hd].
Defined.

Lemma attach_message_pending_until_echo_witness :
  ComponentRuntime.closed Scenario.withRoot = false
  /\ ComponentRuntime.isLocal Scenario.withRoot = false
  /\ JsMap.get "root" (ComponentRuntime.pendingAttach Scenario.registered)
     = Some (RuntimeView.attachMessage Scenario.root)
  /\ ComponentRuntime.pendingAttach
       (ComponentRuntime.process Sample.connectionProcess Scenario.attachRoot true
          ComponentRuntime.CtxUndefined Scenario.registered).2 = [].
Proof.
  assert (H1 : ComponentRuntime.closed Scenario.withRoot = false) by reflexivity.
  assert (H2 : ComponentRuntime.isLocal Scenario.withRoot = false) by reflexivity.
  split; [exact H1|]. split; [exact H2|].
  destruct (attach_message_pending_until_echo ComponentRuntime.Connected
              Sample.contextSubmitMessage Sample.connectionProcess Scenario.withRoot
              Scenario.root Scenario.attachRoot H1 H2 eq_refl eq_refl eq_refl eq_refl eq_refl)
    as (_ & Hp & _ & _ & He & _).
  split; [exact Hp | exact He].
Defined.


Lemma processed_channel_is_dirty_witness :
  ComponentRuntime.closed Sample.loaded = false
  /\ (ComponentRuntime.baseId <$> JsMap.get "root" (ComponentRuntime.channels Sample.loaded))
     = Some (Some "base")
  /\ (ComponentRuntime.processOp Sample.connectionProcess Sample.opOnRoot false
        ComponentRuntime.CtxUndefined Sample.loaded).1 = Ok (Sample.textChannel "root")
  /\ (ComponentRuntime.baseId
        <$> JsMap.get "root"
              (ComponentRuntime.channels
                 (ComponentRuntime.processOp Sample.connectionProcess Sample.opOnRoot false
                    ComponentRuntime.CtxUndefined Sample.loaded).2)) = Some None
  /\ RuntimeView.snapshotEntries Sample.loaded
     = [ComponentRuntime.Tree "root"
          [ComponentRuntime.Blob "header" "abc";
           RuntimeView.attributesBlob (Sample.textChannel "root")] (Some "base")]
  /\ ComponentRuntime.Tree "root"
       [ComponentRuntime.Blob "header" "abc";
        RuntimeView.attributesBlob (Sample.textChannel "root")] None
     ∈ RuntimeView.snapshotEntries
         (ComponentRuntime.processOp Sample.connectionProcess Sample.opOnRoot false
            ComponentRuntime.CtxUndefined Sample.loaded).2.
Proof.
  assert (H1 : ComponentRuntime.closed Sample.loaded = false) by reflexivity.
  assert (H2 : JsMap.get "root" (ComponentRuntime.channels Sample.loaded)
               = Some {| ComponentRuntime.object := Sample.textChannel "root";
                         ComponentRuntime.storage :=
                           Some (ComponentRuntime.ChannelStorageService (Some Sample.rootTree));
                         ComponentRuntime.connection :=
                           Some {| ComponentRuntime.conn_objectId := "root";
                                   ComponentRuntime.conn_state := ComponentRuntime.Connected |};
                         ComponentRuntime.baseId := Some "base" |}) by reflexivity.
  split; [exact H1|]. split; [reflexivity|]. split; [reflexivity|].
  destruct (processed_channel_is_dirty Sample.connectionProcess Sample.loaded
              Sample.opOnRoot false ComponentRuntime.CtxUndefined "root" (Num 1) _ H1 eq_refl H2)
    as (Hg & _ & Hsnap).
  split; [rewrite Hg; reflexivity|]. split; [reflexivity|].
  destruct (Hsnap eq_refl) as (es & Hes & Hin).
  unfold RuntimeView.snapshotEntries. rewrite Hes. exact Hin.
Defined.

Lemma unroutable_is_refused_witness :
  ComponentRuntime.closed Scenario.attached = false
  /\ ComponentRuntime.process Sample.connectionProcess Scenario.opOnRoot false
       ComponentRuntime.CtxUndefined Scenario.attached
     = (Throw "AssertionError", Scenario.attached)
  /\ ComponentRuntime.createChannel Sample.registry "ink" "ink" Scenario.attached
     = (Throw "Channel Extension ink not registered", Scenario.attached).
Proof.
  assert (H1 : ComponentRuntime.closed Scenario.attached = false) by reflexivity.
  split; [exact H1|].
  destruct (unroutable_is_refused Sample.registry ComponentRuntime.Connected "doc"
              Sample.connectionPrepare Sample.connectionProcess Scenario.attached
              Scenario.opOnRoot false ComponentRuntime.CtxUndefined H1) as (Hc & Ho & _).
  split.
  - apply Ho; reflexivity.
  - apply (Hc "ink" "ink"). reflexivity.
Defined.

Lemma attach_connects_queued_channels_witness :
  ComponentRuntime.isLocal Scenario.queued = true
  /\ JsMap.values (ComponentRuntime.attachChannelQueue Scenario.queued)
     = [Scenario.root; Scenario.notes]
  /\ ComponentRuntime.trace (ComponentRuntime.attach ComponentRuntime.Connected Scenario.queued).2
     = [ComponentRuntime.ContextAttach; ComponentRuntime.ChannelConnect "root";
        ComponentRuntime.ChannelConnect "notes"]
  /\ RuntimeView.submittedMessages
       (ComponentRuntime.attach ComponentRuntime.Connected Scenario.queued).2 = [].
Proof.
  assert (H1 : ComponentRuntime.isLocal Scenario.queued = true) by reflexivity.
  assert (H2 : Forall (fun ch =>
                  (ComponentRuntime.object
                     <$> JsMap.get (ComponentRuntime.ch_id ch)
                           (ComponentRuntime.channels Scenario.queued)) = Some ch)
                 (JsMap.values (ComponentRuntime.attachChannelQueue Scenario.queued))).
  { repeat constructor. }
  split; [exact H1|]. split; [reflexivity|].
  destruct (attach_connects_queued_channels ComponentRuntime.Connected Scenario.queued H1 H2)
    as (_ & _ & _ & _ & Ht & Hs & _).
  split; [rewrite Ht; reflexivity | rewrite Hs; reflexivity].
Defined.

Lemma attach_is_idempotent_witness :
  (ComponentRuntime.attach ComponentRuntime.Connected Scenario.queued).1 = Ok tt
  /\ ComponentRuntime.attach ComponentRuntime.Connected
       (ComponentRuntime.attach ComponentRuntime.Connected Scenario.queued).2
     = (Ok tt, (ComponentRuntime.attach ComponentRuntime.Connected Scenario.queued).2).
Proof.
  assert (H1 : (ComponentRuntime.attach ComponentRuntime.Connected Scenario.queued).1 = Ok tt)
    by reflexivity.
  split; [exact H1|].
  apply (attach_is_idempotent ComponentRuntime.Connected Scenario.queued H1).
Defined.

Lemma only_stop_closes_witness :
  ComponentRuntime.closed Scenario.withRoot = false
  /\ (ComponentRuntime.CallStop ∉ Scenario.harmless)
  /\ ComponentRuntime.closed (Sample.run Scenario.harmless Scenario.withRoot) = false.
Proof.
  assert (H1 : ComponentRuntime.closed Scenario.withRoot = false) by reflexivity.
  assert (H2 : ComponentRuntime.CallStop ∉ Scenario.harmless).
  { intros Hin. repeat (apply elem_of_cons in Hin as [Hin|Hin]; [discriminate|]).
    by apply elem_of_nil in Hin. }
  split; [exact H1|]. split; [exact H2|].
  apply (only_stop_closes Sample.registry ComponentRuntime.Connected "doc" Sample.hostRequest
           Sample.contextSubmitMessage Sample.connectionPrepare Sample.connectionProcess
           _ Scenario.withRoot H1 H2).
Defined.

Lemma remote_attach_creates_channel_witness :
  ComponentRuntime.closed Scenario.attached = false
  /\ Sample.registry "text" = Some Sample.textExtension
  /\ JsMap.get "notes"
       (ComponentRuntime.channels
          (ComponentRuntime.process Sample.connectionProcess
             (Sample.runtimeMessage Attach (ComponentRuntime.AttachContent Scenario.attachNotes))
             false (ComponentRuntime.CtxChannelState Scenario.notesState)
             (ComponentRuntime.prepare Sample.registry ComponentRuntime.Connected "doc"
                Sample.connectionPrepare
                (Sample.runtimeMessage Attach
                   (ComponentRuntime.AttachContent Scenario.attachNotes)) false
                Scenario.attached).2).2)
     = Some Scenario.notesState.
Proof.
  assert (H1 : ComponentRuntime.closed Scenario.attached = false) by reflexivity.
  assert (H2 : Sample.registry "text" = Some Sample.textExtension) by reflexivity.
  split; [exact H1|]. split; [exact H2|].
  destruct (remote_attach_creates_channel Sample.registry ComponentRuntime.Connected "doc"
              Sample.connectionPrepare Sample.connectionProcess Scenario.attached
              (Sample.runtimeMessage Attach (ComponentRuntime.AttachContent Scenario.attachNotes))
              Scenario.attachNotes Sample.textExtension Scenario.notes
              H1 eq_refl eq_refl H2 eq_refl eq_refl (fun _ => ltac:(discriminate)))
    as (_ & _ & _ & _ & Hg & _).
  exact Hg.
Defined.
Lemma stop_shields_component_runtime_witness :
  ComponentContext.closed Scenario.context = false
  /\ ComponentContext._componentRuntime Scenario.context = Some Scenario.registered
  /\ ComponentContext.process "bars" Scenario.hostSubmitFn Sample.connectionProcess
       Scenario.opOnRoot false ComponentRuntime.CtxUndefined
       (ComponentContext.stop "progress" "bars" Scenario.hostSubmitFn Scenario.context).2
     = (Throw "Runtime is closed",
        (ComponentContext.stop "progress" "bars" Scenario.hostSubmitFn Scenario.context).2).
Proof.
  assert (H1 : ComponentContext.closed Scenario.context = false) by reflexivity.
  assert (H2 : ComponentContext._componentRuntime Scenario.context = Some Scenario.registered)
    by reflexivity.
  split; [exact H1|]. split; [exact H2|].
  destruct (stop_shields_component_runtime "progress" "bars" Sample.registry
              ComponentRuntime.Connected "doc" Scenario.hostSubmitFn Sample.connectionPrepare
              Sample.connectionProcess Scenario.context Scenario.registered H1 H2)
    as (Hstop & _ & _ & _ & _ & Hproc & _).
  rewrite Hstop. apply Hproc.
Defined.


Lemma reconnect_reaches_host_as_operations_witness :
  ComponentContext.closed Scenario.context = false
  /\ ComponentRuntime.closed Scenario.registered = false
  /\ ComponentContext.trace
       (ComponentContext.changeConnectionState "bars" Scenario.hostSubmitFn
          ComponentRuntime.Connected "client" Scenario.context).2
     = [ComponentContext.HostSubmitFn Operation
          {| ComponentContext.env_address := "bars";
             ComponentContext.env_content :=
               ComponentRuntime.AttachContent (RuntimeView.attachMessage Scenario.root);
             ComponentContext.env_type := Attach |};
        ComponentContext.RaiseConnectedEvent ComponentRuntime.Connected "client"].
Proof.
  assert (H1 : ComponentContext.closed Scenario.context = false) by reflexivity.
  assert (H2 : ComponentRuntime.closed Scenario.registered = false) by reflexivity.
  split; [exact H1|]. split; [exact H2|].
  destruct (reconnect_reaches_host_as_operations "bars" Scenario.hostSubmitFn Scenario.context
              Scenario.registered ComponentRuntime.Connected "client" H1 eq_refl H2
              (fun _ => eq_refl)) as (_ & _ & Ht).
  rewrite Ht. reflexivity.
Defined.

Lemma value_change_reaches_its_bar_witness :
  ProgressBars.Collection.wellKeyed Scenario.bars
  /\ (ProgressBars.value
        <$> JsMap.get "progress-1"
              (ProgressBars.Collection.progressBars
                 (ProgressBars.Collection.onValueChanged Scenario.rootValues "progress-1"
                    Scenario.bars))) = Some (Num 75).
Proof.
  assert (H1 : ProgressBars.Collection.wellKeyed Scenario.bars).
  { intros key bar. simpl. case_bool_decide as Hk; [|discriminate].
    intros H. injection H as <-. subst key. split; reflexivity. }
  split; [exact H1|].
  destruct (value_change_reaches_its_bar Scenario.rootValues "progress-1" Scenario.bars H1)
    as (_ & (bar & Hg & Hv & _) & _).
  rewrite Hg. simpl. rewrite Hv. reflexivity.
Defined.
